(** * Forecast data diagnostics: a model of [util/diagnostic.py]

    The development embeds the schema attribute type, the domain catalog,
    the CSV sniffer, the schema validator, the first-chunk schema inference
    and the per-chunk statistics of [diagnose], and states what they
    guarantee.  Python exceptions are values of [error]; every function that
    can raise returns a [result]. *)

From Stdlib Require Import Ascii String ZArith QArith.Qcanon.
From stdpp Require Import gmap strings list fin_maps sorting.

Local Open Scope string_scope.
Local Open Scope list_scope.

(** ** Exceptions *)

(** Every [raise] site of the module, and the built-in exceptions that its
    expressions can throw.  The constructor names follow the error kinds of
    the design document; all but the last group are [ValueError]s (or, for
    [SchemaIndeterminate], a [NotImplementedError]) in the source. *)
Inductive ambiguity : Type :=
| ManyColumns (count : nat)           (* several data columns of one detected type *)
| ManyRequiredFields (count : nat).   (* several required fields of that type *)

Inductive error : Type :=
| InvalidAttributeName (name : string)            (* SchemaAttribute.__init__, first raise *)
| InvalidAttributeType (typename : string)        (* SchemaAttribute.__init__, second raise *)
| UnsupportedDomain (domain : string)             (* diagnose: domain not in DOMAINS *)
| MissingRequiredField (fname domain : string)    (* validate: len(matching_fields) < 1 *)
| RequiredFieldTypeMismatch (fname domain : string) (* validate: type differs *)
| InvalidPath (path : string)                     (* diagnose: neither directory nor file *)
| SchemaColumnCount (file : string) (expected found : nat)
| SchemaColumnMismatch (file : string) (ixcol : nat)
| UnsupportedPhysicalType (file : string) (ixcol : nat)
| SchemaIndeterminate                             (* no domain, no schema, no header *)
| AmbiguousColumnMapping (schematype : string) (why : ambiguity)
| PyKeyError                                      (* missing dict key or column label *)
| PyIndexError                                    (* list index out of range *)
| PyStopIteration                                 (* next() on an exhausted iterator *)
| PyUnboundLocalError                             (* local read before assignment *)
| PyTypeError                                     (* unorderable operands *)
| PandasError (msg : string).                     (* raised inside a pandas call *)

Inductive result (A : Type) : Type :=
| Ok (a : A)
| Err (e : error).
Arguments Ok {A} a.
Arguments Err {A} e.

#[global] Instance result_ret : MRet result := fun A a => Ok a.
#[global] Instance result_bind : MBind result := fun A B f m =>
  match m with
  | Ok a => f a
  | Err e => Err e
  end.

#[global] Instance result_fmap : FMap result := fun A B f m =>
  match m with
  | Ok a => Ok (f a)
  | Err e => Err e
  end.

Definition is_ok {A} (r : result A) : bool :=
  match r with Ok _ => true | Err _ => false end.

(** ** SchemaAttribute *)

Module SchemaAttribute.

Record t : Type := mk { AttributeName : string; AttributeType : string }.

#[global] Instance t_eq_dec : EqDecision t.
Proof. solve_decision. Defined.

Definition in_range (lo hi c : ascii) : bool :=
  (nat_of_ascii lo <=? nat_of_ascii c)%nat && (nat_of_ascii c <=? nat_of_ascii hi)%nat.

(** The two character classes of the pattern [[a-zA-Z][a-zA-Z0-9_]*]. *)
Definition class_letter (c : ascii) : bool :=
  in_range "a" "z" c || in_range "A" "Z" c.
Definition class_word (c : ascii) : bool :=
  in_range "a" "z" c || in_range "A" "Z" c || in_range "0" "9" c
  || bool_decide (c = "_"%char).

(** Greedy run of a starred class: the longest prefix of [s] inside it. *)
Fixpoint star (cls : ascii -> bool) (s : string) : string :=
  match s with
  | String c rest => if cls c then String c (star cls rest) else ""
  | EmptyString => ""
  end.

(** [re.match(r"[a-zA-Z][a-zA-Z0-9_]*", name)]: the pattern is tried at the
    start of [name] only, and nothing anchors its end.  The result is the
    matched text, or [None] when there is no match. *)
Definition re_match_name (name : string) : option string :=
  match name with
  | String c rest => if class_letter c then Some (String c (star class_word rest)) else None
  | EmptyString => None
  end.

Definition is_valid_name (name : string) : bool :=
  bool_decide (is_Some (re_match_name name)).

Definition is_valid_type (typename : string) : bool :=
  bool_decide (typename ∈ ["string"; "integer"; "float"; "timestamp"]).

(** [__init__]: the name is checked first, then the type. *)
Definition init (AttributeName AttributeType : string) : result t :=
  if is_valid_name AttributeName then
    if is_valid_type AttributeType then Ok (mk AttributeName AttributeType)
    else Err (InvalidAttributeType AttributeType)
  else Err (InvalidAttributeName AttributeName).

(** The numpy/pandas dtype handed to the CSV reader for a declared type.
    A type outside the three branches falls off the end of the function,
    which returns Python's [None]. *)
Inductive numpy_type : Type := np_str | np_Int64 | np_float64.

Definition type_to_numpy_type (typename : string) : option numpy_type :=
  if bool_decide (typename ∈ ["string"; "timestamp"]) then Some np_str
  else if bool_decide (typename = "integer") then Some np_Int64
  else if bool_decide (typename = "float") then Some np_float64
  else None.

(** The shape the design document asks of a name: the whole of it is a
    letter followed by word characters. *)
Fixpoint all_chars (cls : ascii -> bool) (s : string) : bool :=
  match s with
  | String c rest => cls c && all_chars cls rest
  | EmptyString => true
  end.

Definition identifier_shaped (name : string) : bool :=
  match name with
  | String c rest => class_letter c && all_chars class_word rest
  | EmptyString => false
  end.

End SchemaAttribute.

Abbreviation SA := SchemaAttribute.mk.

(** ** The domain catalog *)

(** [SimpleNamespace(target_field=..., tts=SimpleNamespace(required_fields=...,
    optional_fields=...))].  The two field dicts keep their insertion order,
    which the validator's loops follow. *)
Record TtsTemplate : Type := {
  required_fields : list (string * SchemaAttribute.t);
  optional_fields : list (string * SchemaAttribute.t);
}.

Record DomainTemplate : Type := {
  target_field : string;
  tts : TtsTemplate;
}.

Definition DOMAINS : list (string * DomainTemplate) := [
  ("RETAIL", {|
     target_field := "demand";
     tts := {|
       required_fields := [
         ("item_id", SA "item_id" "string");
         ("timestamp", SA "timestamp" "timestamp");
         ("demand", SA "demand" "float") ];
       optional_fields := [ ("location", SA "location" "string") ] |} |});
  ("CUSTOM", {|
     target_field := "target_value";
     tts := {|
       required_fields := [
         ("item_id", SA "item_id" "string");
         ("timestamp", SA "timestamp" "timestamp");
         ("target_value", SA "target_value" "float") ];
       optional_fields := [] |} |});
  ("INVENTORY_PLANNING", {|
     target_field := "demand";
     tts := {|
       required_fields := [
         ("item_id", SA "item_id" "string");
         ("timestamp", SA "timestamp" "timestamp");
         ("demand", SA "demand" "float") ];
       optional_fields := [ ("location", SA "location" "string") ] |} |});
  ("EC2 CAPACITY", {|
     target_field := "number_of_instances";
     tts := {|
       required_fields := [
         ("instance_type", SA "instance_type" "string");
         ("timestamp", SA "timestamp" "timestamp");
         ("number_of_instances", SA "number_of_instances" "integer") ];
       optional_fields := [ ("location", SA "location" "string") ] |} |});
  ("WORK_FORCE", {|
     target_field := "workforce_demand";
     tts := {|
       required_fields := [
         ("workforce_type", SA "workforce_type" "string");
         ("timestamp", SA "timestamp" "timestamp");
         ("workforce_demand", SA "workforce_demand" "float") ];
       optional_fields := [ ("location", SA "location" "string") ] |} |});
  ("WEB_TRAFFIC", {|
     target_field := "value";
     tts := {|
       required_fields := [
         ("item_id", SA "item_id" "string");
         ("timestamp", SA "timestamp" "timestamp");
         ("value", SA "demand" "float") ];
       optional_fields := [] |} |});
  ("METRICS", {|
     target_field := "metric_value";
     tts := {|
       required_fields := [
         ("metric_name", SA "metric_name" "string");
         ("timestamp", SA "timestamp" "timestamp");
         ("metric_value", SA "metric_value" "float") ];
       optional_fields := [] |} |})
].

(** Lookup in an insertion-ordered dict with string keys. *)
Fixpoint dict_get {A} (d : list (string * A)) (k : string) : option A :=
  match d with
  | [] => None
  | (k', v) :: rest => if bool_decide (k' = k) then Some v else dict_get rest k
  end.

Definition dict_keys {A} (d : list (string * A)) : list string := d.*1.

(** [DOMAINS[domain]] *)
Definition DOMAINS_getitem (domain : string) : result DomainTemplate :=
  match dict_get DOMAINS domain with
  | Some d => Ok d
  | None => Err PyKeyError
  end.

(** The four type keywords. *)
Definition TypeTag_keywords : list string := ["string"; "integer"; "float"; "timestamp"].

(** The domain names the design document lists. *)
Definition documented_domain_names : list string :=
  ["RETAIL"; "CUSTOM"; "INVENTORY_PLANNING"; "EC2_CAPACITY"; "WORK_FORCE";
   "WEB_TRAFFIC"; "METRICS"].

(** ** The file sniffer *)

(** [sniff_csv_file], given what [next(csv.reader(f))] yields for the file:
    its first row, already split into cells, or nothing for an empty file. *)
Definition sniff_csv_file (first_row : option (list string))
  : result (option (list string) * nat) :=
  match first_row with
  | None => Err PyStopIteration
  | Some row1 =>
      let ncols := length row1 in
      if negb (forallb SchemaAttribute.is_valid_type row1) then Ok (None, ncols)
      else Ok (Some row1, ncols)
  end.



(** ** Schema documents *)

(** A column label.  Schema documents passed by the caller and CSV headers
    carry strings; for a headerless file read without names pandas labels
    the columns with the integers 0, 1, ...  An integer never compares equal
    to a string. *)
Inductive label : Type :=
| LInt (n : nat)
| LStr (s : string).

#[global] Instance label_eq_dec : EqDecision label.
Proof. solve_decision. Defined.

#[global] Instance label_countable : Countable label :=
  inj_countable'
    (fun l => match l with LInt n => inl n | LStr s => inr s end)
    (fun x => match x with inl n => LInt n | inr s => LStr s end)
    (fun l => match l with LInt _ => eq_refl | LStr _ => eq_refl end).

(** One element of [tts_schema["Attributes"]]: a plain dict, not a
    [SchemaAttribute] object, so neither entry is validated. *)
Record SchemaEntry : Type := {
  AttributeName : label;
  AttributeType : string;
}.

#[global] Instance SchemaEntry_eq_dec : EqDecision SchemaEntry.
Proof. solve_decision. Defined.

Record Schema : Type := { Attributes : list SchemaEntry }.

Definition entry (name type : string) : SchemaEntry :=
  {| AttributeName := LStr name; AttributeType := type |}.

(** ** The schema validator *)

Record Validation : Type := {
  required_fnames : list string;
  optional_fields_used : list string;
  custom_fnames : list label;
  (** the optional fields for which a [WARNING:] line was printed *)
  printed_warnings : list string;
}.

(** [[f for f in tts_schema["Attributes"] if f["AttributeName"] == fname]] *)
Definition matching_fields (attrs : list SchemaEntry) (fname : string) : list SchemaEntry :=
  List.filter (fun f => bool_decide (AttributeName f = LStr fname)) attrs.

(** The first loop of [validate_tts_schema_on_domain]: it raises at the
    first required field, in the template's order, that is absent or whose
    first same-named attribute has another type. *)
Fixpoint check_required_fields (domain : string)
    (required : list (string * SchemaAttribute.t)) (attrs : list SchemaEntry)
  : result unit :=
  match required with
  | [] => Ok tt
  | (fname, spec) :: rest =>
      match matching_fields attrs fname with
      | [] => Err (MissingRequiredField fname domain)
      | f0 :: _ =>
          if bool_decide (AttributeType f0 ≠ SchemaAttribute.AttributeType spec)
          then Err (RequiredFieldTypeMismatch fname domain)
          else check_required_fields domain rest attrs
      end
  end.

(** The second loop: [next(f for f in ... if f["AttributeName"] == fname)]
    is the first same-named attribute; [StopIteration] skips the field.
    Returns the fields used and the fields warned about, both in template
    order. *)
Fixpoint scan_optional_fields
    (optional : list (string * SchemaAttribute.t)) (attrs : list SchemaEntry)
  : list string * list string :=
  match optional with
  | [] => ([], [])
  | (fname, spec) :: rest =>
      let '(used, warned) := scan_optional_fields rest attrs in
      match List.find (fun f => bool_decide (AttributeName f = LStr fname)) attrs with
      | None => (used, warned)
      | Some matching_field =>
          if bool_decide (AttributeType matching_field = SchemaAttribute.AttributeType spec)
          then (fname :: used, warned)
          else (used, fname :: warned)
      end
  end.

Definition validate_tts_schema_on_domain (tts_schema : Schema) (domain : string)
  : result Validation :=
  d ← DOMAINS_getitem domain;
  _ ← check_required_fields domain (required_fields (tts d)) (Attributes tts_schema);
  let '(optional_fields_used, warned) :=
    scan_optional_fields (optional_fields (tts d)) (Attributes tts_schema) in
  let schema_fnames := AttributeName <$> Attributes tts_schema in
  let required_fnames := dict_keys (required_fields (tts d)) in
  let custom_fnames :=
    List.filter
      (fun f => negb (bool_decide
         (f ∈ LStr <$> (optional_fields_used ++ dict_keys (required_fields (tts d))))))
      schema_fnames in
  Ok {| required_fnames := required_fnames;
        optional_fields_used := optional_fields_used;
        custom_fnames := custom_fnames;
        printed_warnings := warned |}.

(** A required field is satisfied by a schema when the first attribute that
    carries its name has its declared type. *)
Definition field_satisfied (attrs : list SchemaEntry) (kv : string * SchemaAttribute.t) : bool :=
  match matching_fields attrs kv.1 with
  | f0 :: _ => bool_decide (AttributeType f0 = SchemaAttribute.AttributeType kv.2)
  | [] => false
  end.

(** The attribute that [next(f for f in ... if f["AttributeName"] == fname)]
    yields. *)
Definition first_named (attrs : list SchemaEntry) (fname : string) : option SchemaEntry :=
  List.find (fun f => bool_decide (AttributeName f = LStr fname)) attrs.

(** The catalog's field dicts are well formed: keys are unique, no name is
    both required and optional, and no two required fields of a domain share
    a type. *)
Definition template_wf (d : DomainTemplate) : bool :=
  bool_decide (NoDup (dict_keys (required_fields (tts d))))
  && bool_decide (NoDup (dict_keys (optional_fields (tts d))))
  && bool_decide (Forall (fun k => k ∉ dict_keys (required_fields (tts d)))
                         (dict_keys (optional_fields (tts d))))
  && bool_decide (NoDup (SchemaAttribute.AttributeType <$> (required_fields (tts d)).*2)).

(** Schemas used as examples. *)
Definition retail_schema : Schema :=
  {| Attributes := [entry "item_id" "string"; entry "timestamp" "timestamp";
                    entry "demand" "float"] |}.

Definition retail_location_integer : Schema :=
  {| Attributes := [entry "item_id" "string"; entry "timestamp" "timestamp";
                    entry "demand" "float"; entry "location" "integer"] |}.

(** ** Data frames *)

(** A parsed cell value: text, or a number given by the rational it
    denotes.  A cell is [None] when pandas holds NaN / <NA> there. *)
Inductive value : Type :=
| VStr (s : string)
| VNum (q : Qc).

#[global] Instance value_eq_dec : EqDecision value.
Proof. solve_decision. Defined.

#[global] Instance value_countable : Countable value :=
  inj_countable'
    (fun v => match v with VStr s => inl s | VNum q => inr q end)
    (fun x => match x with inl s => VStr s | inr q => VNum q end)
    (fun v => match v with VStr _ => eq_refl | VNum _ => eq_refl end).

Definition cell : Type := option value.

(** What the inference looks at in a column's dtype: which of
    [is_integer_dtype], [is_float_dtype], [is_string_dtype] holds, and for a
    string column whether [pd.to_datetime] accepts its first five values. *)
Inductive pd_dtype : Type :=
| dtype_integer
| dtype_float
| dtype_string (datetime_like : bool)
| dtype_other.

(** A chunk as the CSV reader hands it over: labelled, typed columns and the
    rows in file order.  A row shorter than the header reads as NaN in the
    missing places. *)
Record DataFrame : Type := {
  columns : list (label * pd_dtype);
  rows : list (list cell);
}.

Definition column_index (df : DataFrame) (name : label) : result nat :=
  match list_find (fun c => c.1 = name) (columns df) with
  | Some (i, _) => Ok i
  | None => Err PyKeyError
  end.

Definition cell_at (i : nat) (row : list cell) : cell := mjoin (row !! i).

(** [df[name]] *)
Definition getitem (df : DataFrame) (name : label) : result (list cell) :=
  i ← column_index df name;
  Ok (cell_at i <$> rows df).

(** [df.rename(columns=renames)] *)
Definition rename (renames : gmap label string) (df : DataFrame) : DataFrame :=
  {| columns := (fun c => (match renames !! c.1 with
                           | Some new => LStr new
                           | None => c.1
                           end, c.2)) <$> columns df;
     rows := rows df |}.

(** ** Series of counts *)

(** A pandas Series of counts, as a finite map from index labels to values.
    A value is [None] when the Series holds NaN there.  The display order of
    the entries is not part of the model. *)
Abbreviation Series K := (gmap K (option Z)).

Definition nan_add (x y : option Z) : option Z :=
  match x, y with
  | Some a, Some b => Some (a + b)%Z
  | _, _ => None
  end.

(** [a + b]: the operands are aligned on the union of their labels, and a
    label missing on either side gives NaN. *)
Definition series_add `{Countable K} (a b : Series K) : Series K :=
  merge (fun x y =>
           match x, y with
           | Some u, Some v => Some (nan_add u v)
           | None, None => None
           | _, _ => Some None
           end) a b.

(** [r.reindex_like(a)]: the labels of [a], with the values of [r]. *)
Definition reindex_like `{Countable K} (r a : Series K) : Series K :=
  map_imap (fun k _ => Some (mjoin (r !! k))) a.

(** [a += b]: pandas computes [a + b] and then writes it back into [a]
    re-indexed like [a], so the labels of [a] are kept as they are. *)
Definition series_iadd `{Countable K} (a b : Series K) : Series K :=
  reindex_like (series_add a b) a.

(** [s.sum()], which skips NaN. *)
Definition series_sum `{Countable K} (s : Series K) : Z :=
  map_fold (fun _ v acc => (default 0%Z v + acc)%Z) 0%Z s.

(** [len(s)] *)
Definition series_len `{Countable K} (s : Series K) : nat := size s.

Definition count_one `{Countable K} (k : K) (s : Series K) : Series K :=
  <[k := Some (1 + default 0 (mjoin (s !! k)))%Z]> s.

(** [col.value_counts(dropna=False)] *)
Definition value_counts `{Countable K} (col : list K) : Series K :=
  foldr count_one ∅ col.

Definition row_key (ixs : list nat) (row : list cell) : list cell :=
  (fun i => cell_at i row) <$> ixs.

Definition key_has_null (key : list cell) : bool :=
  existsb (fun c => bool_decide (c = None)) key.

(** [df.groupby(by).size()]: rows with a null in any grouping column belong
    to no group; an empty [by] is refused for a frame that has rows. *)
Definition groupby_size (df : DataFrame) (by_ : list label) : result (Series (list cell)) :=
  ixs ← mapM (column_index df) by_;
  if bool_decide (by_ = []) && negb (bool_decide (rows df = []))
  then Err (PandasError "No group keys passed!")
  else Ok (value_counts (List.filter (fun k => negb (key_has_null k)) (row_key ixs <$> rows df))).

(** ** Python ordering, [min] and [max] *)

(** [a < b] on parsed values: text against text by code point, number
    against number by value; text against a number is a [TypeError]. *)
Definition py_lt (a b : value) : result bool :=
  match a, b with
  | VStr x, VStr y => Ok (String.ltb x y)
  | VNum x, VNum y => Ok (match (x ?= y)%Qc with Lt => true | _ => false end)
  | _, _ => Err PyTypeError
  end.

(** The same on scalars that may be NaN (a float): NaN compares false with
    every number, and cannot be ordered against text. *)
Definition cell_lt (a b : cell) : result bool :=
  match a, b with
  | Some x, Some y => py_lt x y
  | None, Some (VStr _) | Some (VStr _), None => Err PyTypeError
  | _, _ => Ok false
  end.

(** [min((a, b))] and [max((a, b))]: the first item is kept unless the second
    is strictly better. *)
Definition py_min2 (a b : cell) : result cell :=
  lt ← cell_lt b a; Ok (if lt : bool then b else a).
Definition py_max2 (a b : cell) : result cell :=
  gt ← cell_lt a b; Ok (if gt : bool then b else a).

(** A left fold whose step can raise. *)
Fixpoint foldlM {A B} (f : B -> A -> result B) (b : B) (l : list A) : result B :=
  match l with
  | [] => Ok b
  | a :: rest => b' ← f b a; foldlM f b' rest
  end.

Definition fold_best (better : value -> value -> result bool) (vals : list value)
  : result cell :=
  match vals with
  | [] => Ok None
  | v :: rest =>
      best ← foldlM (fun acc x => b ← better x acc; Ok (if b : bool then x else acc)) v rest;
      Ok (Some best)
  end.

(** [col.min()] and [col.max()]: nulls are skipped, and a column with no
    value left gives NaN. *)
Definition series_min (col : list cell) : result cell :=
  fold_best py_lt (omap id col).
Definition series_max (col : list cell) : result cell :=
  fold_best (fun x acc => py_lt acc x) (omap id col).

(** ** The per-file statistics *)

(** The tracking variables of [diagnose].  An outer [None] is Python's
    [None]; for the time span the inner [cell] is the scalar held. *)
Record Stats : Type := {
  global_tts_start : option cell;
  global_tts_end : option cell;
  total_records : Z;
  total_records_nonulls : Z;
  num_nulls_by_field : option (Series label);
  unique_dimension_vals : gmap label (Series cell);
  unique_dimension_combos : option (Series (list cell));
}.

(** The values assigned under [# Tracking variables for analysis:]. *)
Definition initial_stats : Stats := {|
  global_tts_start := None;
  global_tts_end := None;
  total_records := 0;
  total_records_nonulls := 0;
  num_nulls_by_field := None;
  unique_dimension_vals := ∅;
  unique_dimension_combos := None;
|}.

Definition row_has_null (ncols : nat) (row : list cell) : bool :=
  existsb (fun i => bool_decide (cell_at i row = None)) (seq 0 ncols).

(** [df.isnull().any(axis=1).sum()] *)
Definition rows_with_nulls (df : DataFrame) : Z :=
  Z.of_nat (length (List.filter (row_has_null (length (columns df))) (rows df))).

(** [df.isna().sum()]: the number of nulls of every column, by label. *)
Definition isna_sum (df : DataFrame) : Series label :=
  list_to_map
    (imap (fun i c =>
             (c.1, Some (Z.of_nat (length
                (List.filter (fun r => bool_decide (cell_at i r = None)) (rows df))))))
          (columns df)).

(** One turn of [for fname in dimension_fields]. *)
Definition update_dimension_vals (tts_chunk : DataFrame)
    (vals : gmap label (Series cell)) (fname : label)
  : result (gmap label (Series cell)) :=
  col ← getitem tts_chunk fname;
  let chunk_unique_vals := value_counts col in
  match vals !! fname with
  | Some seen => Ok (<[fname := series_iadd seen chunk_unique_vals]> vals)
  | None => Ok (<[fname := chunk_unique_vals]> vals)
  end.

(** [# Update statistics from this chunk:] to the end of the chunk loop's
    body. *)
Definition update_stats (timestamp_field : label) (dimension_fields : list label)
    (st : Stats) (tts_chunk : DataFrame) : result Stats :=
  ts ← getitem tts_chunk timestamp_field;
  chunk_min_ts ← series_min ts;
  chunk_max_ts ← series_max ts;
  tts_start ← match global_tts_start st with
               | None => Ok chunk_min_ts
               | Some g => py_min2 g chunk_min_ts
               end;
  tts_end ← match global_tts_end st with
             | None => Ok chunk_max_ts
             | Some g => py_max2 g chunk_max_ts
             end;
  let len := Z.of_nat (length (rows tts_chunk)) in
  let chunk_nulls_by_field := isna_sum tts_chunk in
  let nulls := match num_nulls_by_field st with
               | None => chunk_nulls_by_field
               | Some seen => series_add seen chunk_nulls_by_field
               end in
  vals ← foldlM (update_dimension_vals tts_chunk) (unique_dimension_vals st) dimension_fields;
  chunk_dimension_combos ← groupby_size tts_chunk dimension_fields;
  let combos := match unique_dimension_combos st with
                | None => chunk_dimension_combos
                | Some seen => series_iadd seen chunk_dimension_combos
                end in
  Ok {| global_tts_start := Some tts_start;
        global_tts_end := Some tts_end;
        total_records := total_records st + len;
        total_records_nonulls := total_records_nonulls st + (len - rows_with_nulls tts_chunk);
        num_nulls_by_field := Some nulls;
        unique_dimension_vals := vals;
        unique_dimension_combos := Some combos |}.

(** The statistics after a sequence of chunks, from a given state. *)
Definition aggregate (timestamp_field : label) (dimension_fields : list label)
    (st : Stats) (chunks : list DataFrame) : result Stats :=
  foldlM (update_stats timestamp_field dimension_fields) st chunks.

(** The rows of a frame cut into consecutive chunks of at most [S n] rows,
    as the reader's [chunksize] does. *)
Fixpoint chunk_rows_aux (fuel : nat) (n : nat) (rs : list (list cell)) : list (list (list cell)) :=
  match fuel, rs with
  | _, [] => []
  | O, _ => [rs]
  | S fuel', _ => take (S n) rs :: chunk_rows_aux fuel' n (drop (S n) rs)
  end.

Definition chunked (chunksize : nat) (df : DataFrame) : list DataFrame :=
  match chunksize with
  | O => []
  | S n => (fun rs => {| columns := columns df; rows := rs |})
             <$> chunk_rows_aux (length (rows df)) n (rows df)
  end.

Definition CHUNKSIZE : nat := Z.to_nat 10000.

(** ** Schema inference on the first chunk *)

(** The [if]/[elif] chain over the column's dtype; [None] is the final
    [else], which raises. *)
Definition schematype_of (d : pd_dtype) : option string :=
  match d with
  | dtype_integer => Some "integer"
  | dtype_float => Some "float"
  | dtype_string true => Some "timestamp"
  | dtype_string false => Some "string"
  | dtype_other => None
  end.

(** [field_counts_by_type[schematype] += 1] on a [defaultdict(int)], which
    keeps its keys in the order of their first use. *)
Fixpoint incr_count (k : string) (d : list (string * nat)) : list (string * nat) :=
  match d with
  | [] => [(k, 1)]
  | (k', n) :: rest => if bool_decide (k' = k) then (k', S n) :: rest
                       else (k', n) :: incr_count k rest
  end.

(** One turn of [for ixcol, col in enumerate(tts_chunk)]. *)
Definition infer_column (file : string)
    (acc : list (string * nat) * list SchemaEntry) (col : nat * (label * pd_dtype))
  : result (list (string * nat) * list SchemaEntry) :=
  let '(field_counts_by_type, attrs) := acc in
  let '(ixcol, (name, dtype)) := col in
  match schematype_of dtype with
  | None => Err (UnsupportedPhysicalType file ixcol)
  | Some schematype =>
      Ok (incr_count schematype field_counts_by_type,
          attrs ++ [{| AttributeName := name; AttributeType := schematype |}])
  end.

(** The field names of a template dict whose declared type is [schematype]. *)
Definition fields_of_type (fields : list (string * SchemaAttribute.t)) (schematype : string)
  : list string :=
  (List.filter (fun kv => bool_decide (SchemaAttribute.AttributeType kv.2 = schematype)) fields).*1.

(** One turn of [for schematype in field_counts_by_type].  The attribute
    found by [next(...)] is an element of the schema's list and is renamed in
    place. *)
Definition infer_column_name (d : DomainTemplate)
    (acc : list SchemaEntry * gmap label string) (item : string * nat)
  : result (list SchemaEntry * gmap label string) :=
  let '(attrs, renames) := acc in
  let '(schematype, count) := item in
  if bool_decide (1 < count) then Err (AmbiguousColumnMapping schematype (ManyColumns count))
  else
    match list_find (fun a => AttributeType a = schematype) attrs with
    | None => Err PyStopIteration
    | Some (i, attribute) =>
        let matching_required_fields := fields_of_type (required_fields (tts d)) schematype in
        let n_matching_required := length matching_required_fields in
        if bool_decide (1 < n_matching_required)
        then Err (AmbiguousColumnMapping schematype (ManyRequiredFields n_matching_required))
        else
          let matching_optional_fields := fields_of_type (optional_fields (tts d)) schematype in
          let n_matching_optional := length matching_optional_fields in
          let renamed_to new :=
            (<[i := {| AttributeName := LStr new; AttributeType := AttributeType attribute |}]> attrs,
             <[AttributeName attribute := new]> renames) in
          if bool_decide (n_matching_required = 1)
          then Ok (renamed_to (default "" (head matching_required_fields)))
          else if bool_decide (n_matching_required = 0) && bool_decide (n_matching_optional = 1)
          then Ok (renamed_to (default "" (head matching_optional_fields)))
          else Ok (attrs, renames)
    end.

(** The timestamp, target and dimension fields fixed after validation. *)
Record Fields : Type := {
  timestamp_field : label;
  the_target_field : label;
  dimension_fields : list label;
}.

Definition next_name (p : SchemaEntry -> bool) (attrs : list SchemaEntry) : result label :=
  match List.find p attrs with
  | Some f => Ok (AttributeName f)
  | None => Err PyStopIteration
  end.

(** The three assignments that follow each call of the validator. *)
Definition derive_fields (tts_schema : Schema) (domain : option string)
    (reqd_fields : list string) : result Fields :=
  let attrs := Attributes tts_schema in
  let in_reqd f := bool_decide (AttributeName f ∈ LStr <$> reqd_fields) in
  timestamp_field ←
    next_name (fun f => in_reqd f && bool_decide (AttributeType f = "timestamp")) attrs;
  target_field ←
    match domain with
    | Some dn => d ← DOMAINS_getitem dn; Ok (LStr (target_field d))
    | None =>
        next_name (fun f => in_reqd f
                     && negb (bool_decide (AttributeType f ∈ ["timestamp"; "string"]))) attrs
    end;
  Ok {| timestamp_field := timestamp_field;
        the_target_field := target_field;
        dimension_fields :=
          List.filter (fun n => negb (bool_decide (n ∈ [timestamp_field; target_field])))
                      (AttributeName <$> attrs) |}.

(** The validator called with a domain that may be [None]: [DOMAINS[None]]
    is a [KeyError]. *)
Definition validate_on (tts_schema : Schema) (domain : option string) : result Validation :=
  match domain with
  | Some dn => validate_tts_schema_on_domain tts_schema dn
  | None => Err PyKeyError
  end.

(** The body of [if tts_schema is None:] in the chunk loop.  Returns the
    inferred schema, the derived fields and the renames to apply. *)
Definition infer_schema (file : string) (domain : option string)
    (header_columns : option (list string)) (renames : option (gmap label string))
    (tts_chunk : DataFrame)
  : result (Schema * Fields * option (gmap label string)) :=
  '(field_counts_by_type, attrs) ←
    foldlM (infer_column file) ([], []) (imap (fun i c => (i, c)) (columns tts_chunk));
  '(attrs, renames) ←
    match header_columns with
    | Some _ => Ok (attrs, renames)
    | None =>
        match domain with
        | None => Err SchemaIndeterminate
        | Some dn =>
            d ← DOMAINS_getitem dn;
            r0 ← match renames with Some r0 => Ok r0 | None => Err PyTypeError end;
            '(attrs, r) ← foldlM (infer_column_name d) (attrs, r0) field_counts_by_type;
            Ok (attrs, Some r)
        end
    end;
  let tts_schema := {| Attributes := attrs |} in
  v ← validate_on tts_schema domain;
  fields ← derive_fields tts_schema domain (required_fnames v);
  Ok (tts_schema, fields, renames).

(** ** The orchestrator *)

(** What [diagnose] asks of the file system and of the CSV readers.
    [os_walk] lists the joined paths of all files below a directory;
    [csv_first_row] is [next(csv.reader(f))], absent for an empty file;
    [pd_read_csv file header_is_none names dtype] is the sequence of items
    the chunked reader yields, each a chunk or an exception that ends the
    iteration. *)
Record World : Type := {
  os_path_isdir : string -> bool;
  os_path_isfile : string -> bool;
  os_walk : string -> list string;
  csv_first_row : string -> option (list string);
  pd_read_csv : string -> bool -> option (list label)
                -> option (list (label * option SchemaAttribute.numpy_type))
                -> list (result DataFrame);
}.

(** [sorted] on path names. *)
Definition sorted (l : list string) : list string :=
  merge_sort (fun a b => Is_true (String.leb a b)) l.

Definition lower_char (c : ascii) : ascii :=
  if SchemaAttribute.in_range "A" "Z" c then ascii_of_nat (nat_of_ascii c + 32) else c.

Fixpoint lower (s : string) : string :=
  match s with
  | EmptyString => EmptyString
  | String c rest => String (lower_char c) (lower rest)
  end.

Definition endswith (s suffix : string) : bool :=
  String.prefix (String.rev suffix) (String.rev s).

(** [f.lower().endswith(".csv")] *)
Definition is_csv (f : string) : bool := endswith (lower f) ".csv".

(** [ResolvingInputs]: the directory branch keeps the unfiltered listing
    unless at least one, but not every, file passes the [.csv] filter. *)
Definition resolve_inputs (w : World) (tts_path : string) : result (list string) :=
  if os_path_isdir w tts_path then
    let tts_filenames := sorted (os_walk w tts_path) in
    let filtered_filenames :=
      sorted (List.filter is_csv tts_filenames) in
    let n_raw := length tts_filenames in
    let n_filtered := length filtered_filenames in
    if bool_decide (0 < n_filtered) && bool_decide (n_filtered < n_raw)
    then Ok filtered_filenames
    else Ok tts_filenames
  else if os_path_isfile w tts_path then Ok [tts_path]
  else Err (InvalidPath tts_path).

(** The column checks made for a file once a schema exists. *)
Definition check_file_against_schema (file : string) (tts_schema : option Schema)
    (header_columns : option (list string)) (ncols : nat) : result unit :=
  match tts_schema with
  | None => Ok tt
  | Some s =>
      if bool_decide (length (Attributes s) ≠ ncols)
      then Err (SchemaColumnCount file (length (Attributes s)) ncols)
      else
        match header_columns with
        | None => Ok tt
        | Some hs =>
            foldlM (fun _ '(ixcol, header) =>
                      match Attributes s !! ixcol with
                      | None => Err PyIndexError
                      | Some a =>
                          if bool_decide (LStr header ≠ AttributeName a)
                          then Err (SchemaColumnMismatch file ixcol)
                          else Ok tt
                      end)
                   tt (imap (fun i h => (i, h)) hs)
        end
  end.

(** The variables that live across the chunks of a file; the first two also
    live across files. *)
Record Loop : Type := {
  tts_schema : option Schema;
  fields : option Fields;
  renames : option (gmap label string);
  stats : Stats;
}.

(** The body of [for ixchunk, tts_chunk in enumerate(tts_chunker)]. *)
Definition chunk_step (file : string) (domain : option string)
    (header_columns : option (list string)) (l : Loop) (tts_chunk : DataFrame)
  : result Loop :=
  '(schema, flds, rn) ←
    match tts_schema l with
    | Some s => Ok (s, fields l, renames l)
    | None =>
        '(s, f, rn) ← infer_schema file domain header_columns (renames l) tts_chunk;
        Ok (s, Some f, rn)
    end;
  let tts_chunk := match rn with Some r => rename r tts_chunk | None => tts_chunk end in
  f ← match flds with Some f => Ok f | None => Err PyUnboundLocalError end;
  st ← update_stats (timestamp_field f) (dimension_fields f) (stats l) tts_chunk;
  Ok {| tts_schema := Some schema; fields := flds; renames := rn; stats := st |}.

(** The chunk loop over the reader's items: an exception raised by the
    reader ends the run when the loop reaches it. *)
Fixpoint chunk_loop (file : string) (domain : option string)
    (header_columns : option (list string)) (l : Loop) (items : list (result DataFrame))
  : result Loop :=
  match items with
  | [] => Ok l
  | Err e :: _ => Err e
  | Ok tts_chunk :: rest =>
      l' ← chunk_step file domain header_columns l tts_chunk;
      chunk_loop file domain header_columns l' rest
  end.

(** What is printed for a file after its last chunk. *)
Record Report : Type := {
  shown : Stats;
  missing_values_warning : bool;
  unique_items : nat;
}.

(** The prints that follow the chunk loop; [len(unique_dimension_combos)]
    is a [TypeError] when no chunk was read. *)
Definition report (st : Stats) : result Report :=
  match unique_dimension_combos st with
  | None => Err PyTypeError
  | Some combos =>
      Ok {| shown := st;
            missing_values_warning :=
              negb (bool_decide (total_records st = total_records_nonulls st));
            unique_items := series_len combos |}
  end.

Definition is_nonempty {A} (l : option (list A)) : bool :=
  match l with Some (_ :: _) => true | _ => false end.

(** The body of [for tts_filename in tts_filenames].  The schema and the
    derived fields come from the previous files and go on to the next; the
    tracking variables are assigned afresh. *)
Definition process_file (w : World) (domain : option string)
    (carried : option Schema * option Fields) (tts_filename : string)
  : result ((option Schema * option Fields) * Report) :=
  let '(schema0, fields0) := carried in
  '(header_columns, ncols) ← sniff_csv_file (csv_first_row w tts_filename);
  _ ← check_file_against_schema tts_filename schema0 header_columns ncols;
  let tts_chunker :=
    pd_read_csv w tts_filename
      (bool_decide (header_columns = None))
      ((fun s => AttributeName <$> Attributes s) <$> schema0)
      ((fun s => (fun f => (AttributeName f,
                            SchemaAttribute.type_to_numpy_type (AttributeType f)))
                   <$> Attributes s) <$> schema0) in
  let renames0 : option (gmap label string) :=
    if bool_decide (is_Some schema0) || is_nonempty header_columns then None else Some ∅ in
  l ← chunk_loop tts_filename domain header_columns
        {| tts_schema := schema0; fields := fields0; renames := renames0;
           stats := initial_stats |}
        tts_chunker;
  r ← report (stats l);
  Ok ((tts_schema l, fields l), r).

(** A run prints one report per file until it ends or raises. *)
Inductive outcome : Type :=
| Finished (reports : list Report)
| Failed (reports : list Report) (e : error).

Definition reports_of (o : outcome) : list Report :=
  match o with Finished rs => rs | Failed rs _ => rs end.

Fixpoint run_files (w : World) (domain : option string)
    (carried : option Schema * option Fields) (tts_filenames : list string) : outcome :=
  match tts_filenames with
  | [] => Finished []
  | tts_filename :: rest =>
      match process_file w domain carried tts_filename with
      | Err e => Failed [] e
      | Ok (carried', r) =>
          match run_files w domain carried' rest with
          | Finished rs => Finished (r :: rs)
          | Failed rs e => Failed (r :: rs) e
          end
      end
  end.

(** The statements of [diagnose] before the file loop: the domain check and,
    when domain and schema are both given, validation of the schema. *)
Definition check_arguments (domain : option string) (tts_schema : option Schema)
  : result (option Fields) :=
  match domain with
  | Some dn =>
      if negb (bool_decide (dn ∈ dict_keys DOMAINS)) then Err (UnsupportedDomain dn)
      else
        match tts_schema with
        | Some s =>
            v ← validate_tts_schema_on_domain s dn;
            f ← derive_fields s domain (required_fnames v);
            Ok (Some f)
        | None => Ok None
        end
  | None => Ok None
  end.

Definition diagnose (w : World) (tts_path : string) (domain : option string)
    (tts_schema : option Schema) : outcome :=
  match check_arguments domain tts_schema with
  | Err e => Failed [] e
  | Ok fields0 =>
      match resolve_inputs w tts_path with
      | Err e => Failed [] e
      | Ok tts_filenames => run_files w domain (tts_schema, fields0) tts_filenames
      end
  end.

(** ** Example data *)

(** A frame as the reader builds it: the given names, or the positions
    0, 1, ... when none are given. *)
Definition frame (names : option (list label)) (dtypes : list pd_dtype)
    (rows : list (list cell)) : DataFrame :=
  {| columns := zip (default (LInt <$> seq 0 (length dtypes)) names) dtypes;
     rows := rows |}.

Definition retail_names : list label := [LStr "item_id"; LStr "timestamp"; LStr "demand"].
Definition retail_dtypes : list pd_dtype := [dtype_string false; dtype_string true; dtype_float].

Definition retail_row (item_id : cell) (timestamp : string) : list cell :=
  [item_id; Some (VStr timestamp); Some (VNum 1)].

Definition item (s : string) : cell := Some (VStr s).

(** Two rows with different items. *)
Definition two_items : DataFrame :=
  frame (Some retail_names) retail_dtypes
        [retail_row (item "a") "2020-01-01"; retail_row (item "b") "2020-01-02"].

(** 10,001 rows: item [a] in all but the last, item [b] in the last. *)
Definition late_item : DataFrame :=
  frame (Some retail_names) retail_dtypes
        (replicate CHUNKSIZE (retail_row (item "a") "2020-01-01")
         ++ [retail_row (item "b") "2020-01-02"]).

(** Two rows, the second without an item. *)
Definition missing_item : DataFrame :=
  frame (Some retail_names) retail_dtypes
        [retail_row (item "a") "2020-01-01"; retail_row None "2020-01-02"].

(** A directory with two one-row CSV files and a text file. *)
Definition two_files : World := {|
  os_path_isdir := fun p => bool_decide (p = "data");
  os_path_isfile := fun p => bool_decide (p ∈ ["data/a.csv"; "data/b.csv"; "data/notes.txt"]);
  os_walk := fun p =>
    if bool_decide (p = "data") then ["data/notes.txt"; "data/b.csv"; "data/a.csv"] else [];
  csv_first_row := fun f =>
    if bool_decide (f = "data/a.csv") then Some ["a"; "2020-01-01"; "1.0"]
    else if bool_decide (f = "data/b.csv") then Some ["b"; "2020-01-02"; "1.0"]
    else if bool_decide (f = "data/notes.txt") then Some ["to do"]
    else None;
  pd_read_csv := fun f _ names _ =>
    if bool_decide (f = "data/a.csv")
    then [Ok (frame names retail_dtypes [retail_row (item "a") "2020-01-01"])]
    else if bool_decide (f = "data/b.csv")
    then [Ok (frame names retail_dtypes [retail_row (item "b") "2020-01-02"])]
    else [Err (PandasError "cannot parse")];
|}.

(** A directory without files. *)
Definition empty_directory : World := {|
  os_path_isdir := fun p => bool_decide (p = "data");
  os_path_isfile := fun _ => false;
  os_walk := fun _ => [];
  csv_first_row := fun _ => None;
  pd_read_csv := fun _ _ _ _ => [];
|}.

(** Four headerless columns, the last one of integers. *)
Definition retail_with_integer : DataFrame :=
  frame None (retail_dtypes ++ [dtype_integer])
        [retail_row (item "a") "2020-01-01" ++ [Some (VNum (Q2Qc (QArith_base.Qmake 7 1)))]].

(** Two headerless columns of floats. *)
Definition two_floats : DataFrame :=
  frame None [dtype_float; dtype_float] [[Some (VNum 1); Some (VNum (Q2Qc (QArith_base.Qmake 2 1)))]].

(** The count a report shows for one dimension tuple: absent, NaN or a
    number; and the count it shows for one value of a dimension field. *)
Definition combo_count (st : Stats) (key : list cell) : option (option Z) :=
  c ← unique_dimension_combos st; c !! key.

Definition dimension_count (st : Stats) (fname : label) (v : cell) : option (option Z) :=
  c ← unique_dimension_vals st !! fname; c !! v.

(** What the examples read off the statistics: the record count and the
    counts shown for the items [a] and [b]. *)
Definition item_counts (st : Stats) : Z * option (option Z) * option (option Z) :=
  (total_records st, combo_count st [item "a"], combo_count st [item "b"]).

(** The statistics of one frame read in chunks of the given size, for the
    RETAIL fields. *)
Definition run_chunked (chunksize : nat) (df : DataFrame) : result Stats :=
  aggregate (LStr "timestamp") [LStr "item_id"] initial_stats (chunked chunksize df).

Definition is_finished (o : outcome) : bool :=
  match o with Finished _ => true | Failed _ _ => false end.

(** The record count, the number of entries of the dimension combination
    counts and their sum, as a report shows them. *)
Definition report_summary (r : Report) : Z * nat * Z :=
  (total_records (shown r), unique_items r,
   series_sum (default ∅ (unique_dimension_combos (shown r)))).

(** A Series of counts holds no negative number. *)
Definition series_nonneg `{Countable K} (s : Series K) : Prop :=
  forall k n, s !! k = Some (Some n) -> (0 <= n)%Z.

(** ** Vocabulary of the statements *)

(** The rows, and the rows without a null, of a sequence of chunks. *)
Definition total_rows (chunks : list DataFrame) : Z :=
  foldr (fun c acc => (Z.of_nat (length (rows c)) + acc)%Z) 0%Z chunks.

Definition total_rows_without_nulls (chunks : list DataFrame) : Z :=
  foldr (fun c acc => (Z.of_nat (length (rows c)) - rows_with_nulls c + acc)%Z) 0%Z chunks.

(** The row holds a null in one of the dimension columns of its frame. *)
Definition null_in_dimension (df : DataFrame) (dims : list label) (row : list cell) : Prop :=
  exists f i, f ∈ dims /\ column_index df f = Ok i /\ cell_at i row = None.

Definition combo_total (st : Stats) : Z :=
  series_sum (default ∅ (unique_dimension_combos st)).

Definition combos_nonneg (st : Stats) : Prop :=
  series_nonneg (default ∅ (unique_dimension_combos st)).

Definition renamed (rn : option (gmap label string)) (df : DataFrame) : DataFrame :=
  match rn with Some r => rename r df | None => df end.

(** The null-free dimension tuples of a chunk, one per row, in row order. *)
Definition dimension_keys (df : DataFrame) (ixs : list nat) : list (list cell) :=
  List.filter (fun k => negb (key_has_null k)) (row_key ixs <$> rows df).

(** [r] is what the statistics give when they start empty and go through the
    chunks of [file] and of no other file. *)
Definition report_of_file (w : World) (file : string) (r : Report) : Prop :=
  exists header_is_none names dtype chunks f rn,
    pd_read_csv w file header_is_none names dtype = Ok <$> chunks
    /\ chunks <> []
    /\ aggregate (timestamp_field f) (dimension_fields f) initial_stats
                 (renamed rn <$> chunks) = Ok (shown r)
    /\ total_records (shown r) = total_rows chunks
    /\ total_records_nonulls (shown r) = total_rows_without_nulls chunks
    /\ forall chunk, chunks = [chunk] ->
         exists combos ixs,
           unique_dimension_combos (shown r) = Some combos
           /\ mapM (column_index (renamed rn chunk)) (dimension_fields f) = Ok ixs
           /\ series_len combos = length (remove_dups (dimension_keys chunk ixs))
           /\ series_sum combos = Z.of_nat (length (dimension_keys chunk ixs)).

(** The number of columns whose dtype is detected as [t]. *)
Definition columns_of_type (t : string) (cols : list (label * pd_dtype)) : nat :=
  length (List.filter (fun c => bool_decide (schematype_of c.2 = Some t)) cols).

(** ** Further vocabulary *)

(** The name begins with an ASCII letter. *)
Definition starts_with_letter (name : string) : Prop :=
  exists c rest, name = String c rest /\ SchemaAttribute.class_letter c = true.

(** The names of a schema's attributes, in column order. *)
Definition schema_names (s : Schema) : list label := AttributeName <$> Attributes s.

(** What every template of the catalog looks like: three required fields,
    one of them named [timestamp] with type [timestamp], the target field
    among them, and at least one of them with a name that is not a type
    keyword. *)
Definition template_shape (d : DomainTemplate) : bool :=
  bool_decide (length (required_fields (tts d)) = 3)
  && bool_decide (("timestamp", SA "timestamp" "timestamp") ∈ required_fields (tts d))
  && bool_decide (target_field d ∈ dict_keys (required_fields (tts d)))
  && bool_decide (Exists (fun k => k ∉ TypeTag_keywords) (dict_keys (required_fields (tts d)))).

(** One turn of [for ixcol, header in enumerate(header_columns)]. *)
Definition header_step (file : string) (attrs : list SchemaEntry)
    (_ : unit) (c : nat * string) : result unit :=
  let '(ixcol, header) := c in
  match attrs !! ixcol with
  | None => Err PyIndexError
  | Some a =>
      if bool_decide (LStr header ≠ AttributeName a)
      then Err (SchemaColumnMismatch file ixcol)
      else Ok tt
  end.


(** The fields of the RETAIL examples. *)
Definition retail_fields : Fields :=
  {| timestamp_field := LStr "timestamp"; the_target_field := LStr "demand";
     dimension_fields := [LStr "item_id"] |}.

(** The schema read off a chunk: one attribute per column of a supported
    dtype, in column order, named by the column's label. *)
Definition detected_attribute (c : label * pd_dtype) : option SchemaEntry :=
  t ← schematype_of c.2; Some {| AttributeName := c.1; AttributeType := t |}.

Definition detected_schema (df : DataFrame) : Schema :=
  {| Attributes := omap detected_attribute (columns df) |}.

(** A column label as [rename] leaves it. *)
Definition renamed_label (r : gmap label string) (l : label) : label :=
  match r !! l with Some new => LStr new | None => l end.

(** What the name loop keeps true of the schema under construction, given
    the labels and detected types of the chunk's columns: the types stay,
    every attribute is named as [renames] maps its column's label, and
    [renames] holds labels of columns whose type has had its turn. *)
Definition names_inv (labels0 : list label) (types : list string) (seen : list string)
    (acc : list SchemaEntry * gmap label string) : Prop :=
  AttributeType <$> acc.1 = types
  /\ AttributeName <$> acc.1 = renamed_label acc.2 <$> labels0
  /\ forall k, is_Some (acc.2 !! k) ->
       exists i t, labels0 !! i = Some k /\ types !! i = Some t /\ t ∈ seen.

(** The field name that the name loop gives the one column of a detected
    type: the required field of that type or, when the domain requires
    none, its one optional field of that type. *)
Definition inferred_name (d : DomainTemplate) (schematype : string) : option string :=
  match fields_of_type (required_fields (tts d)) schematype with
  | [k] => Some k
  | [] =>
      match fields_of_type (optional_fields (tts d)) schematype with
      | [k] => Some k
      | _ => None
      end
  | _ => None
  end.

(** The attributes whose type has had its turn in the name loop carry the
    inferred name if there is one; all others carry their column's label. *)
Definition names_resolved (d : DomainTemplate) (labels0 : list label) (seen : list string)
    (attrs : list SchemaEntry) : Prop :=
  forall i a l, attrs !! i = Some a -> labels0 !! i = Some l ->
    (AttributeType a ∈ seen
       -> AttributeName a = from_option LStr l (inferred_name d (AttributeType a)))
    /\ (AttributeType a ∉ seen -> AttributeName a = l).

(** ** A row without an item after the first chunk *)

(** Four rows, the last without an item. *)
Definition three_then_missing : DataFrame :=
  frame (Some retail_names) retail_dtypes
        [retail_row (item "a") "2020-01-01"; retail_row (item "a") "2020-01-02";
         retail_row (item "a") "2020-01-03"; retail_row None "2020-01-04"].

(** 10,002 rows: item [a] in all but the last, which has no item. *)
Definition late_missing_item : DataFrame :=
  frame (Some retail_names) retail_dtypes
        (replicate (S CHUNKSIZE) (retail_row (item "a") "2020-01-01")
         ++ [retail_row None "2020-01-02"]).

(** What a report shows of a row without an item: the record count; in the
    value counts kept for [item_id], the count under the null label, the
    count under [a] and the sum of all counts; in the combination counts,
    the count under the null tuple and the sum of all counts. *)
Definition null_row_view (st : Stats)
  : Z * option (option Z) * option (option Z) * Z * option (option Z) * Z :=
  (total_records st,
   dimension_count st (LStr "item_id") None,
   dimension_count st (LStr "item_id") (item "a"),
   series_sum (default ∅ (unique_dimension_vals st !! LStr "item_id")),
   combo_count st [None],
   combo_total st).

(** * Properties *)

(** Closes a conjunction of closed equations by evaluating both sides. *)
Ltac by_evaluation :=
  repeat (match goal with |- _ /\ _ => split end); vm_compute; reflexivity.

(** Closes a decidable closed goal by evaluating its decision procedure. *)
Ltac by_decide :=
  match goal with
  | |- ?P => apply (bool_decide_eq_true_1 P); vm_compute; reflexivity
  end.

Section result_facts.
Context {A B : Type}.

Lemma bind_Ok (m : result A) (f : A -> result B) (b : B) :
  (m ≫= f) = Ok b -> exists a, m = Ok a /\ f a = Ok b.
Proof. destruct m as [a|e]; simpl; [eauto | discriminate]. Qed.

End result_facts.

(** ** SchemaAttribute *)

Lemma is_valid_type_spec (typename : string) :
  SchemaAttribute.is_valid_type typename = true <-> typename ∈ TypeTag_keywords.
Proof. unfold SchemaAttribute.is_valid_type. apply bool_decide_eq_true. Qed.

Lemma is_valid_name_spec (name : string) :
  SchemaAttribute.is_valid_name name = true
  <-> exists c rest, name = String c rest /\ SchemaAttribute.class_letter c = true.
Proof.
  unfold SchemaAttribute.is_valid_name, SchemaAttribute.re_match_name.
  rewrite bool_decide_eq_true. split.
  - destruct name as [|c rest]; [intros [? [=]]|].
    destruct (SchemaAttribute.class_letter c) eqn:Hc; [eauto | intros [? [=]]].
  - intros (c & rest & -> & ->). eauto.
Qed.

(** What the constructor accepts: a name whose first character is an ASCII
    letter, whatever follows, and one of the four type keywords. *)
Lemma init_accepts (name type : string) :
  SchemaAttribute.init name type = Ok (SA name type)
  <-> (exists c rest, name = String c rest /\ SchemaAttribute.class_letter c = true)
      /\ type ∈ TypeTag_keywords.
Proof.
  rewrite <- is_valid_name_spec, <- is_valid_type_spec. unfold SchemaAttribute.init.
  destruct (SchemaAttribute.is_valid_name name), (SchemaAttribute.is_valid_type type);
    split; (intros [? ?] || intros ?); try discriminate; auto.
Qed.

Lemma identifier_shaped_valid_name (name : string) :
  SchemaAttribute.identifier_shaped name = true -> SchemaAttribute.is_valid_name name = true.
Proof.
  destruct name as [|c rest]; [discriminate|]. simpl.
  intros [Hc _]%andb_true_iff. apply is_valid_name_spec. eauto.
Qed.

(** C6 (defect).  The design asks that construction succeed exactly when the
    whole name is a letter followed by letters, digits and underscores and
    the type is one of the four keywords.  The constructor accepts the name
    ["a-b"], which does not have that shape: [re.match] tries the pattern at
    the start of the name and nothing requires it to reach the end. *)
Theorem SchemaAttribute_init_accepts_malformed_name :
  SchemaAttribute.init "a-b" "string" = Ok (SA "a-b" "string")
  /\ SchemaAttribute.identifier_shaped "a-b" = false
  /\ SchemaAttribute.re_match_name "a-b" = Some "a".
Proof. by_evaluation. Qed.

(** ** The domain catalog *)

Lemma dict_get_elem_of {V} (d : list (string * V)) k v :
  dict_get d k = Some v -> (k, v) ∈ d.
Proof.
  induction d as [|[k' v'] d IH]; simpl; [discriminate|].
  case_bool_decide as Hk.
  - intros [= ->]. subst. left.
  - intros H. right. auto.
Qed.

Lemma DOMAINS_getitem_elem_of dn d :
  DOMAINS_getitem dn = Ok d -> (dn, d) ∈ DOMAINS.
Proof.
  unfold DOMAINS_getitem. destruct (dict_get DOMAINS dn) eqn:H; [|discriminate].
  intros [= ->]. by apply dict_get_elem_of.
Qed.

(** Every attribute of the catalog is one the constructor builds. *)
Lemma DOMAINS_attributes_constructed :
  Forall (fun kd =>
            Forall (fun kv =>
                      SchemaAttribute.init (SchemaAttribute.AttributeName kv.2)
                                           (SchemaAttribute.AttributeType kv.2) = Ok kv.2)
                   (required_fields (tts kd.2) ++ optional_fields (tts kd.2)))
         DOMAINS.
Proof. repeat constructor. Qed.

(** C9 (defect).  The catalog's fourth key is ["EC2 CAPACITY"], written with
    a space, where the design (and every sibling key) uses an underscore.
    So ["EC2_CAPACITY"] is not a key, and a run for that domain is refused
    before anything is read. *)
Theorem DOMAINS_keys_EC2_CAPACITY :
  dict_keys DOMAINS =
    ["RETAIL"; "CUSTOM"; "INVENTORY_PLANNING"; "EC2 CAPACITY"; "WORK_FORCE";
     "WEB_TRAFFIC"; "METRICS"]
  /\ ("EC2_CAPACITY" ∈ documented_domain_names)
  /\ ("EC2_CAPACITY" ∉ dict_keys DOMAINS)
  /\ DOMAINS_getitem "EC2_CAPACITY" = Err PyKeyError
  /\ forall w tts_path tts_schema,
       diagnose w tts_path (Some "EC2_CAPACITY") tts_schema
       = Failed [] (UnsupportedDomain "EC2_CAPACITY").
Proof.
  split; [reflexivity|]. split; [by_decide|]. split; [by_decide|].
  split; [reflexivity|]. intros w p s. reflexivity.
Qed.

(** ** The file sniffer *)

Lemma forallb_is_valid_type (row1 : list string) :
  forallb SchemaAttribute.is_valid_type row1 = true
  <-> forall c, c ∈ row1 -> c ∈ TypeTag_keywords.
Proof.
  rewrite forallb_forall. setoid_rewrite <- list_elem_of_In.
  by setoid_rewrite is_valid_type_spec.
Qed.




(** ** The schema validator *)

Section validator.
Variable domain : string.
Variable attrs : list SchemaEntry.

Lemma check_required_fields_satisfied required :
  Forall (fun kv => field_satisfied attrs kv = true) required ->
  check_required_fields domain required attrs = Ok tt.
Proof.
  induction 1 as [|[fname spec] rest Hsat _ IH]; simpl; [done|].
  unfold field_satisfied in Hsat. simpl in Hsat.
  destruct (matching_fields attrs fname) as [|f0 ?]; [discriminate|].
  apply bool_decide_eq_true in Hsat.
  rewrite bool_decide_eq_false_2; [exact IH | by intros []].
Qed.

Lemma check_required_fields_skip pre rest :
  Forall (fun kv => field_satisfied attrs kv = true) pre ->
  check_required_fields domain (pre ++ rest) attrs
  = check_required_fields domain rest attrs.
Proof.
  induction 1 as [|[fname spec] pre' Hsat _ IH]; simpl; [done|].
  unfold field_satisfied in Hsat. simpl in Hsat.
  destruct (matching_fields attrs fname) as [|f0 ?]; [discriminate|].
  apply bool_decide_eq_true in Hsat.
  rewrite bool_decide_eq_false_2; [exact IH | by intros []].
Qed.

Lemma check_required_fields_Ok required :
  check_required_fields domain required attrs = Ok tt ->
  Forall (fun kv => field_satisfied attrs kv = true) required.
Proof.
  induction required as [|[fname spec] rest IH]; simpl; [constructor|].
  unfold field_satisfied at 1. simpl.
  destruct (matching_fields attrs fname) as [|f0 ?] eqn:Hm; [discriminate|].
  case_bool_decide as Hty; [discriminate|].
  intros H. constructor; [|auto].
  unfold field_satisfied. simpl. rewrite Hm. apply bool_decide_eq_true.
  destruct (decide (AttributeType f0 = SchemaAttribute.AttributeType spec)); [done|].
  by destruct Hty.
Qed.

End validator.

Lemma DOMAINS_wf dn d : DOMAINS_getitem dn = Ok d -> template_wf d = true.
Proof.
  intros Hd%DOMAINS_getitem_elem_of.
  assert (Hall : Forall (fun kd => template_wf kd.2 = true) DOMAINS)
    by (repeat constructor).
  by apply (proj1 (Forall_forall _ _) Hall (dn, d)).
Qed.

Lemma dict_functional {V} (d : list (string * V)) k v v' :
  NoDup (dict_keys d) -> (k, v) ∈ d -> (k, v') ∈ d -> v = v'.
Proof.
  unfold dict_keys. induction d as [|[k0 v0] d IH]; simpl.
  - intros _ H. by apply elem_of_nil in H.
  - intros [Hk0 Hnd]%NoDup_cons [H1|H1]%elem_of_cons [H2|H2]%elem_of_cons.
    + congruence.
    + injection H1 as -> ->. destruct Hk0. apply list_elem_of_fmap. by exists (k0, v').
    + injection H2 as -> ->. destruct Hk0. apply list_elem_of_fmap. by exists (k0, v).
    + eauto.
Qed.

Section optional_fields.
Variable attrs : list SchemaEntry.

Lemma scan_optional_fields_used optional fname :
  fname ∈ (scan_optional_fields optional attrs).1 ->
  exists spec f, (fname, spec) ∈ optional /\ first_named attrs fname = Some f
                 /\ AttributeType f = SchemaAttribute.AttributeType spec.
Proof.
  induction optional as [|[k spec] rest IH]; simpl.
  - intros H. by apply elem_of_nil in H.
  - destruct (scan_optional_fields rest attrs) as [used warned] eqn:Hrest. simpl in IH.
    assert (Hrec : fname ∈ used -> exists spec0 f, (fname, spec0) ∈ (k, spec) :: rest
              /\ first_named attrs fname = Some f
              /\ AttributeType f = SchemaAttribute.AttributeType spec0).
    { intros (s0 & f & ? & ? & ?)%IH. exists s0, f. split; [by right | done]. }
    destruct (List.find _ attrs) as [mf|] eqn:Hfind; [|exact Hrec].
    case_bool_decide as Hty; simpl; [|exact Hrec].
    intros [->|Hin]%elem_of_cons; [|auto].
    exists spec, mf. split; [by left | done].
Qed.

Lemma scan_optional_fields_warned optional fname spec f :
  (fname, spec) ∈ optional -> first_named attrs fname = Some f ->
  AttributeType f ≠ SchemaAttribute.AttributeType spec ->
  fname ∈ (scan_optional_fields optional attrs).2.
Proof.
  intros Hin Hfind Hty. induction optional as [|[k spec0] rest IH]; simpl.
  - by apply elem_of_nil in Hin.
  - destruct (scan_optional_fields rest attrs) as [used warned] eqn:Hrest. simpl in IH.
    apply elem_of_cons in Hin as [Heq|Hin].
    + injection Heq as <- <-. unfold first_named in Hfind. rewrite Hfind.
      rewrite bool_decide_eq_false_2 by done. simpl. by left.
    + specialize (IH Hin). destruct (List.find _ attrs) as [mf|]; [|done].
      case_bool_decide; simpl; [done | by right].
Qed.

End optional_fields.

Lemma find_Some_elem_of {A} (p : A -> bool) (l : list A) x :
  List.find p l = Some x -> x ∈ l /\ p x = true.
Proof. intros [? ?]%find_some. by rewrite list_elem_of_In. Qed.

Lemma elem_of_List_filter {A} (p : A -> bool) (l : list A) x :
  x ∈ List.filter p l <-> x ∈ l /\ p x = true.
Proof. by rewrite !list_elem_of_In, filter_In. Qed.

(** C4 (as the code has it).  For a catalog domain, validation walks the
    required fields in the template's order and stops at the first one that
    the schema does not satisfy: [MissingRequiredField] when no attribute has
    its name, [RequiredFieldTypeMismatch] when the first attribute with its
    name has another type.  When the first same-named attribute of every
    required field has the declared type, validation succeeds and returns
    the template's required field names. *)
Theorem validate_required_fields (dn : string) (d : DomainTemplate) (s : Schema) :
  DOMAINS_getitem dn = Ok d ->
  (forall pre fname spec post,
      required_fields (tts d) = pre ++ (fname, spec) :: post ->
      Forall (fun kv => field_satisfied (Attributes s) kv = true) pre ->
      (matching_fields (Attributes s) fname = [] ->
       validate_tts_schema_on_domain s dn = Err (MissingRequiredField fname dn))
      /\ (forall f0 more,
             matching_fields (Attributes s) fname = f0 :: more ->
             AttributeType f0 ≠ SchemaAttribute.AttributeType spec ->
             validate_tts_schema_on_domain s dn = Err (RequiredFieldTypeMismatch fname dn)))
  /\ (Forall (fun kv => field_satisfied (Attributes s) kv = true) (required_fields (tts d)) ->
      exists v, validate_tts_schema_on_domain s dn = Ok v
                /\ required_fnames v = dict_keys (required_fields (tts d))).
Proof.
  intros Hd. unfold validate_tts_schema_on_domain. rewrite Hd. simpl. split.
  - intros pre fname spec post -> Hpre.
    rewrite (check_required_fields_skip dn (Attributes s) pre _ Hpre). simpl. split.
    + by intros ->.
    + intros f0 more -> Hty. by rewrite bool_decide_eq_true_2.
  - intros Hall. rewrite (check_required_fields_satisfied dn _ _ Hall). simpl.
    destruct (scan_optional_fields _ _). eauto.
Qed.

Lemma validate_required_fields_witness :
  (exists d, DOMAINS_getitem "RETAIL" = Ok d)
  /\ (exists v, validate_tts_schema_on_domain retail_schema "RETAIL" = Ok v
                /\ required_fnames v = ["item_id"; "timestamp"; "demand"])
  /\ validate_tts_schema_on_domain {| Attributes := [entry "item_id" "string"] |} "RETAIL"
     = Err (MissingRequiredField "timestamp" "RETAIL").
Proof.
  split; [by eexists|]. split.
  - eapply (proj2 (validate_required_fields "RETAIL" _ retail_schema eq_refl)).
    repeat constructor.
  - eapply (proj1 (validate_required_fields "RETAIL" _ _ eq_refl)
              [("item_id", SA "item_id" "string")] "timestamp" _
              [("demand", SA "demand" "float")] eq_refl).
    + repeat constructor.
    + reflexivity.
Defined.

(** C4, refuted as written: the schema that holds only [item_id] with type
    [integer] lacks the required fields [timestamp] and [demand] of RETAIL,
    yet validation does not fail with [MissingRequiredField]: it stops at
    [item_id], the first required field, with [RequiredFieldTypeMismatch]. *)
Lemma validate_missing_field_reported_as_mismatch :
  matching_fields [entry "item_id" "integer"] "timestamp" = []
  /\ validate_tts_schema_on_domain {| Attributes := [entry "item_id" "integer"] |} "RETAIL"
     = Err (RequiredFieldTypeMismatch "item_id" "RETAIL").
Proof. split; reflexivity. Qed.

(** C5 (as the code has it).  For a catalog domain and a schema that passes
    the required-field checks: when the first attribute named like an
    optional field has another type than the template declares, validation
    succeeds, prints a warning for the field, leaves it out of the optional
    fields used and lists it among the custom fields. *)
Theorem validate_optional_type_mismatch
    (dn : string) (d : DomainTemplate) (s : Schema)
    (fname : string) (spec : SchemaAttribute.t) (f : SchemaEntry) :
  DOMAINS_getitem dn = Ok d ->
  check_required_fields dn (required_fields (tts d)) (Attributes s) = Ok tt ->
  (fname, spec) ∈ optional_fields (tts d) ->
  first_named (Attributes s) fname = Some f ->
  AttributeType f ≠ SchemaAttribute.AttributeType spec ->
  exists v, validate_tts_schema_on_domain s dn = Ok v
            /\ (fname ∈ printed_warnings v)
            /\ (fname ∉ optional_fields_used v)
            /\ (LStr fname ∈ custom_fnames v).
Proof.
  intros Hd Hreq Hopt Hfind Hty.
  pose proof (DOMAINS_wf dn d Hd) as Hwf. unfold template_wf in Hwf.
  apply andb_true_iff in Hwf as [Hwf _].
  apply andb_true_iff in Hwf as [Hwf Hdisj%bool_decide_eq_true].
  apply andb_true_iff in Hwf as [_ Hnd%bool_decide_eq_true].
  unfold validate_tts_schema_on_domain. rewrite Hd. simpl. rewrite Hreq. simpl.
  pose proof (scan_optional_fields_used (Attributes s) (optional_fields (tts d)) fname) as Hused.
  pose proof (scan_optional_fields_warned (Attributes s) _ fname spec f Hopt Hfind Hty) as Hwarn.
  destruct (scan_optional_fields _ _) as [used warned]. simpl in *.
  assert (Hnot : fname ∉ used).
  { intros (spec' & f' & Hin' & Hf' & Hty')%Hused.
    rewrite Hfind in Hf'. injection Hf' as <-.
    by rewrite (dict_functional _ _ _ _ Hnd Hopt Hin') in Hty. }
  eexists. split; [reflexivity|]. simpl. split; [done|]. split; [done|].
  apply elem_of_List_filter. apply find_Some_elem_of in Hfind as [Hin Hname].
  apply bool_decide_eq_true in Hname. split.
  - rewrite <- Hname. apply list_elem_of_fmap. by exists f.
  - apply negb_true_iff, bool_decide_eq_false.
    intros (x & [= <-] & [Hx|Hx]%elem_of_app)%list_elem_of_fmap; [done|].
    apply (proj1 (Forall_forall _ _) Hdisj fname); [|done].
    apply list_elem_of_fmap. by exists (fname, spec).
Qed.

Lemma validate_optional_type_mismatch_witness :
  exists v, validate_tts_schema_on_domain retail_location_integer "RETAIL" = Ok v
            /\ ("location" ∈ printed_warnings v)
            /\ ("location" ∉ optional_fields_used v)
            /\ (LStr "location" ∈ custom_fnames v).
Proof.
  eapply (validate_optional_type_mismatch "RETAIL" _ retail_location_integer
            "location" (SA "location" "string") (entry "location" "integer")).
  - reflexivity.
  - reflexivity.
  - by_decide.
  - reflexivity.
  - discriminate.
Defined.

(** C5, refuted as written: a schema whose only attribute is [location] with
    type [integer] uses the optional field of RETAIL with another type, and
    validation fails, because the required fields are checked first. *)
Lemma validate_optional_mismatch_can_fail :
  (exists d, DOMAINS_getitem "RETAIL" = Ok d
             /\ ("location", SA "location" "string") ∈ optional_fields (tts d))
  /\ first_named [entry "location" "integer"] "location" = Some (entry "location" "integer")
  /\ validate_tts_schema_on_domain {| Attributes := [entry "location" "integer"] |} "RETAIL"
     = Err (MissingRequiredField "item_id" "RETAIL").
Proof.
  split; [|split; reflexivity].
  eexists. split; [reflexivity | by_decide].
Qed.

(** ** Series of counts *)

Section series.
Context `{Countable K}.
Implicit Types (s a b : Series K) (k : K) (v : option Z).

Lemma series_sum_empty : series_sum (∅ : Series K) = 0%Z.
Proof. unfold series_sum. by rewrite map_fold_empty. Qed.

Lemma series_sum_insert_fresh s k v :
  s !! k = None -> series_sum (<[k:=v]> s) = (default 0 v + series_sum s)%Z.
Proof.
  intros Hk. unfold series_sum. rewrite map_fold_insert_L; [done | | done].
  intros. lia.
Qed.

Lemma series_sum_delete s k v :
  s !! k = Some v -> series_sum s = (default 0 v + series_sum (delete k s))%Z.
Proof.
  intros Hk. unfold series_sum. rewrite (map_fold_delete_L _ _ k v s); [done | | done].
  intros. lia.
Qed.

Lemma series_sum_insert s k v :
  series_sum (<[k:=v]> s)
  = (default 0 v + series_sum s - default 0 (mjoin (s !! k)))%Z.
Proof.
  rewrite <- insert_delete_eq.
  rewrite series_sum_insert_fresh by apply lookup_delete_eq.
  destruct (s !! k) as [u|] eqn:Hk; simpl.
  - rewrite (series_sum_delete s k u Hk). lia.
  - rewrite delete_id by done. lia.
Qed.

Lemma series_sum_count_one s k : series_sum (count_one k s) = (1 + series_sum s)%Z.
Proof.
  unfold count_one. rewrite series_sum_insert. simpl. lia.
Qed.

Lemma series_sum_value_counts (col : list K) :
  series_sum (value_counts col) = Z.of_nat (length col).
Proof.
  induction col as [|k col IH]; simpl.
  - apply series_sum_empty.
  - rewrite series_sum_count_one, IH. lia.
Qed.

(** Every value of a column is a label of its counts, with a positive
    count; nothing else is. *)
Lemma value_counts_lookup (col : list K) k :
  (k ∈ col -> exists n, value_counts col !! k = Some (Some n) /\ (1 <= n)%Z)
  /\ (k ∉ col -> value_counts col !! k = None).
Proof.
  induction col as [|k0 col [IHin IHout]]; simpl.
  - split; [by intros ?%elem_of_nil | intros _; apply lookup_empty].
  - unfold count_one. destruct (decide (k0 = k)) as [->|Hne].
    + split; [|intros []; left].
      intros _. rewrite lookup_insert_eq. eexists. split; [reflexivity|].
      destruct (decide (k ∈ col)) as [Hin|Hout].
      * destruct (IHin Hin) as (n & -> & ?). simpl. lia.
      * rewrite (IHout Hout). simpl. lia.
    + rewrite lookup_insert_ne by done. split.
      * intros [?|?]%elem_of_cons; [congruence | auto].
      * intros Hout. apply IHout. intros ?. apply Hout. by right.
Qed.

Lemma value_counts_dom (col : list K) : dom (value_counts col) = list_to_set col.
Proof.
  apply set_eq. intros k. rewrite elem_of_dom, elem_of_list_to_set.
  destruct (value_counts_lookup col k) as [Hin Hout]. split.
  - intros [v Hv]. destruct (decide (k ∈ col)); [done|]. rewrite Hout in Hv; done.
  - intros (n & -> & _)%Hin. eauto.
Qed.

(** The number of labels is the number of distinct values. *)
Lemma series_len_value_counts (col : list K) :
  series_len (value_counts col) = length (remove_dups col).
Proof.
  unfold series_len. rewrite <- size_dom, value_counts_dom.
  assert (Heq : (list_to_set col : gset K) = list_to_set (remove_dups col)).
  { apply set_eq. intros k. by rewrite !elem_of_list_to_set, elem_of_remove_dups. }
  rewrite Heq. apply size_list_to_set, NoDup_remove_dups.
Qed.

Lemma value_counts_nonneg (col : list K) : series_nonneg (value_counts col).
Proof.
  intros k n Hk. destruct (decide (k ∈ col)) as [Hin|Hout].
  - destruct (proj1 (value_counts_lookup col k) Hin) as (m & Hm & ?).
    rewrite Hm in Hk. injection Hk as <-. lia.
  - by rewrite (proj2 (value_counts_lookup col k) Hout) in Hk.
Qed.

(** What [a += b] leaves under each label: the labels of [a] only, with the
    sum where [b] has the label too, and NaN where it has not. *)
Lemma series_iadd_lookup a b k :
  series_iadd a b !! k
  = match a !! k with
    | None => None
    | Some u => Some (match b !! k with Some v => nan_add u v | None => None end)
    end.
Proof.
  unfold series_iadd, reindex_like, series_add.
  rewrite map_lookup_imap, lookup_merge.
  destruct (a !! k) as [u|], (b !! k) as [v|]; reflexivity.
Qed.

Lemma series_iadd_empty b : series_iadd (∅ : Series K) b = ∅.
Proof. apply map_eq. intros k. by rewrite series_iadd_lookup, lookup_empty. Qed.

Lemma series_iadd_insert a b k u :
  series_iadd (<[k:=u]> a) b
  = <[k := match b !! k with Some v => nan_add u v | None => None end]> (series_iadd a b).
Proof.
  apply map_eq. intros j. rewrite series_iadd_lookup.
  destruct (decide (k = j)) as [->|Hne].
  - by rewrite !lookup_insert_eq.
  - by rewrite !lookup_insert_ne, series_iadd_lookup by done.
Qed.

Lemma series_iadd_delete_r a b k :
  a !! k = None -> series_iadd a (delete k b) = series_iadd a b.
Proof.
  intros Hk. apply map_eq. intros j. rewrite !series_iadd_lookup.
  destruct (decide (k = j)) as [->|Hne]; [by rewrite Hk|].
  by rewrite lookup_delete_ne.
Qed.

Lemma series_nonneg_delete s k : series_nonneg s -> series_nonneg (delete k s).
Proof.
  intros Hs j n Hj. apply (Hs j n).
  destruct (decide (k = j)) as [->|Hne]; [by rewrite lookup_delete_eq in Hj|].
  by rewrite lookup_delete_ne in Hj.
Qed.

Lemma series_nonneg_insert s k v :
  series_nonneg (<[k:=v]> s) -> s !! k = None -> series_nonneg s.
Proof.
  intros Hs Hk j n Hj. apply (Hs j n).
  destruct (decide (k = j)) as [->|Hne]; [congruence|]. by rewrite lookup_insert_ne.
Qed.

Lemma series_sum_nonneg s : series_nonneg s -> (0 <= series_sum s)%Z.
Proof.
  induction s as [|k v s Hk IH] using map_ind.
  - rewrite series_sum_empty. lia.
  - intros Hs. rewrite series_sum_insert_fresh by done.
    specialize (IH (series_nonneg_insert _ _ _ Hs Hk)).
    destruct v as [n|]; simpl; [|lia].
    specialize (Hs k n (lookup_insert_eq _ _ _)). lia.
Qed.

Lemma series_iadd_nonneg a b :
  series_nonneg a -> series_nonneg b -> series_nonneg (series_iadd a b).
Proof.
  intros Ha Hb k n. rewrite series_iadd_lookup.
  destruct (a !! k) as [[u|]|] eqn:Hak, (b !! k) as [[v|]|] eqn:Hbk; simpl; try done.
  intros [= <-]. specialize (Ha _ _ Hak). specialize (Hb _ _ Hbk). lia.
Qed.

(** In-place addition never counts more than both operands hold. *)
Lemma series_sum_iadd_le a b :
  series_nonneg a -> series_nonneg b ->
  (series_sum (series_iadd a b) <= series_sum a + series_sum b)%Z.
Proof.
  revert b. induction a as [|k u a Hk IH] using map_ind; intros b Ha Hb.
  - rewrite series_iadd_empty, series_sum_empty.
    pose proof (series_sum_nonneg b Hb). lia.
  - rewrite series_iadd_insert.
    rewrite series_sum_insert_fresh by (by rewrite series_iadd_lookup, Hk).
    rewrite series_sum_insert_fresh by done.
    pose proof (series_nonneg_insert _ _ _ Ha Hk) as Ha'.
    assert (Hu : (0 <= default 0 u)%Z).
    { destruct u as [n|]; simpl; [|lia]. apply (Ha k n), lookup_insert_eq. }
    destruct (b !! k) as [v|] eqn:Hbk.
    + rewrite <- (series_iadd_delete_r a b k Hk).
      specialize (IH (delete k b) Ha' (series_nonneg_delete _ k Hb)).
      rewrite (series_sum_delete b k v Hbk).
      assert (Hv : (0 <= default 0 v)%Z).
      { destruct v as [n|]; simpl; [|lia]. by apply (Hb k n). }
      destruct u, v; simpl in *; lia.
    + specialize (IH b Ha' Hb). simpl. lia.
Qed.

End series.

(** ** The per-file statistics *)

Ltac bind_inv H :=
  repeat (let x := fresh "x" in let Hx := fresh "Hx" in
          apply bind_Ok in H as (x & Hx & H)).

Lemma mapM_Ok_Forall2 {A B} (f : A -> result B) (l : list A) (k : list B) :
  mapM f l = Ok k -> Forall2 (fun a b => f a = Ok b) l k.
Proof.
  revert k. induction l as [|a l IH]; simpl; intros k Hk.
  - injection Hk as <-. constructor.
  - bind_inv Hk. injection Hk as <-. constructor; auto.
Qed.

Lemma List_filter_length_le {A} (p : A -> bool) (l : list A) :
  length (List.filter p l) <= length l.
Proof. induction l as [|a l IH]; simpl; [lia|]. destruct (p a); simpl; lia. Qed.

Lemma List_filter_length_lt {A} (p : A -> bool) (l : list A) (a : A) :
  a ∈ l -> p a = false -> length (List.filter p l) < length l.
Proof.
  induction l as [|b l IH]; simpl; [by intros ?%elem_of_nil|].
  intros [->|Hin]%elem_of_cons Hp.
  - rewrite Hp. pose proof (List_filter_length_le p l). lia.
  - specialize (IH Hin Hp). destruct (p b); simpl; lia.
Qed.

Section groupby.
Variable df : DataFrame.
Variable dims : list label.

Lemma row_key_has_null ixs row :
  Forall2 (fun f i => column_index df f = Ok i) dims ixs ->
  null_in_dimension df dims row -> key_has_null (row_key ixs row) = true.
Proof.
  intros Hixs (f & i & Hf & Hi & Hnull).
  unfold key_has_null, row_key. apply existsb_exists. exists None.
  split; [|by apply bool_decide_eq_true].
  apply list_elem_of_In, list_elem_of_fmap. exists i. split; [done|].
  apply list_elem_of_lookup in Hf as [n Hn].
  destruct (Forall2_lookup_l _ _ _ _ _ Hixs Hn) as (j & Hj & Hfj).
  rewrite Hi in Hfj. injection Hfj as ->. by apply list_elem_of_lookup_2 in Hj.
Qed.

(** The group sizes of a chunk add up to the number of its rows that hold no
    null in a dimension column. *)
Lemma groupby_size_Ok c :
  groupby_size df dims = Ok c ->
  exists ixs,
    mapM (column_index df) dims = Ok ixs
    /\ c = value_counts (List.filter (fun k => negb (key_has_null k)) (row_key ixs <$> rows df))
    /\ series_nonneg c
    /\ (series_sum c <= Z.of_nat (length (rows df)))%Z
    /\ forall row, row ∈ rows df -> null_in_dimension df dims row ->
         c !! row_key ixs row = None /\ (series_sum c < Z.of_nat (length (rows df)))%Z.
Proof.
  unfold groupby_size. intros Hc. apply bind_Ok in Hc as (ixs & Hixs & Hc).
  destruct (_ && _); [discriminate|]. injection Hc as <-.
  exists ixs. split; [done|]. split; [done|]. split; [apply value_counts_nonneg|].
  rewrite series_sum_value_counts.
  set (p := fun k => negb (key_has_null k)).
  pose proof (List_filter_length_le p (row_key ixs <$> rows df)) as Hle.
  rewrite length_fmap in Hle. split; [lia|].
  intros row Hrow Hnull.
  pose proof (row_key_has_null ixs row (mapM_Ok_Forall2 _ _ _ Hixs) Hnull) as Hkey.
  split.
  - apply value_counts_lookup. rewrite elem_of_List_filter. intros [_ Hp].
    unfold p in Hp. by rewrite Hkey in Hp.
  - assert (Hlt : length (List.filter p (row_key ixs <$> rows df))
                  < length (row_key ixs <$> rows df)).
    { apply (List_filter_length_lt p _ (row_key ixs row)).
      - apply list_elem_of_fmap. by exists row.
      - unfold p. by rewrite Hkey. }
    rewrite length_fmap in Hlt. lia.
Qed.

End groupby.

Section statistics.
Variable ts : label.
Variable dims : list label.

Lemma update_stats_Ok st chunk st' :
  update_stats ts dims st chunk = Ok st' ->
  total_records st' = (total_records st + Z.of_nat (length (rows chunk)))%Z
  /\ total_records_nonulls st'
     = (total_records_nonulls st + (Z.of_nat (length (rows chunk)) - rows_with_nulls chunk))%Z
  /\ exists c, groupby_size chunk dims = Ok c
       /\ unique_dimension_combos st'
          = Some (match unique_dimension_combos st with
                  | None => c
                  | Some seen => series_iadd seen c
                  end).
Proof.
  unfold update_stats. intros Hst. bind_inv Hst. injection Hst as <-. simpl. eauto.
Qed.

Lemma aggregate_cons st chunk chunks :
  aggregate ts dims st (chunk :: chunks)
  = update_stats ts dims st chunk ≫= fun st1 => aggregate ts dims st1 chunks.
Proof. reflexivity. Qed.

(** The record counters add up over the chunks. *)
Lemma aggregate_totals chunks st st' :
  aggregate ts dims st chunks = Ok st' ->
  total_records st' = (total_records st + total_rows chunks)%Z
  /\ total_records_nonulls st'
     = (total_records_nonulls st + total_rows_without_nulls chunks)%Z.
Proof.
  revert st. induction chunks as [|chunk chunks IH]; intros st.
  - intros [= <-]. simpl. lia.
  - rewrite aggregate_cons. intros Hst. apply bind_Ok in Hst as (st1 & H1 & Hst).
    apply update_stats_Ok in H1 as (Ht & Hn & _).
    destruct (IH _ Hst) as [-> ->]. simpl. lia.
Qed.

Lemma update_stats_slack st chunk st' :
  update_stats ts dims st chunk = Ok st' -> combos_nonneg st ->
  combos_nonneg st'
  /\ (total_records st - combo_total st <= total_records st' - combo_total st')%Z
  /\ forall row, row ∈ rows chunk -> null_in_dimension chunk dims row ->
       (total_records st - combo_total st < total_records st' - combo_total st')%Z.
Proof.
  intros (Ht & _ & c & Hc & Hcombos)%update_stats_Ok Hnn.
  apply groupby_size_Ok in Hc as (ixs & _ & _ & Hcn & Hle & Hlt).
  unfold combos_nonneg, combo_total in *. rewrite Hcombos, Ht. simpl.
  destruct (unique_dimension_combos st) as [seen|]; simpl in *.
  - pose proof (series_sum_iadd_le seen c Hnn Hcn). split; [by apply series_iadd_nonneg|].
    split; [lia|]. intros row Hrow Hnull. destruct (Hlt row Hrow Hnull). lia.
  - rewrite series_sum_empty. split; [done|]. split; [lia|].
    intros row Hrow Hnull. destruct (Hlt row Hrow Hnull). lia.
Qed.

Lemma aggregate_slack chunks st st' :
  aggregate ts dims st chunks = Ok st' -> combos_nonneg st ->
  combos_nonneg st'
  /\ (total_records st - combo_total st <= total_records st' - combo_total st')%Z
  /\ forall chunk row, chunk ∈ chunks -> row ∈ rows chunk ->
       null_in_dimension chunk dims row ->
       (total_records st - combo_total st < total_records st' - combo_total st')%Z.
Proof.
  revert st. induction chunks as [|chunk chunks IH]; intros st.
  - intros [= <-] Hnn. split; [done|]. split; [lia|]. by intros ?? ?%elem_of_nil.
  - rewrite aggregate_cons. intros Hst Hnn. apply bind_Ok in Hst as (st1 & H1 & Hst).
    destruct (update_stats_slack _ _ _ H1 Hnn) as (Hnn1 & Hle1 & Hlt1).
    destruct (IH _ Hst Hnn1) as (Hnn' & Hle & Hlt).
    split; [done|]. split; [lia|].
    intros chunk' row [->|Hin]%elem_of_cons Hrow Hnull.
    + specialize (Hlt1 row Hrow Hnull). lia.
    + specialize (Hlt chunk' row Hin Hrow Hnull). lia.
Qed.

Lemma aggregate_combos_Some chunks st st' :
  aggregate ts dims st chunks = Ok st' -> chunks <> [] ->
  is_Some (unique_dimension_combos st').
Proof.
  revert st. induction chunks as [|chunk chunks IH]; intros st; [done|].
  rewrite aggregate_cons. intros Hst _. apply bind_Ok in Hst as (st1 & H1 & Hst).
  destruct chunks as [|chunk' chunks].
  - injection Hst as <-. apply update_stats_Ok in H1 as (_ & _ & c & _ & ->). eauto.
  - by apply (IH st1).
Qed.

Lemma aggregate_each_chunk chunks st st' chunk :
  aggregate ts dims st chunks = Ok st' -> chunk ∈ chunks ->
  exists st1 st2, update_stats ts dims st1 chunk = Ok st2.
Proof.
  revert st. induction chunks as [|chunk0 chunks IH]; intros st; [by intros _ ?%elem_of_nil|].
  rewrite aggregate_cons. intros Hst. apply bind_Ok in Hst as (st1 & H1 & Hst).
  intros [->|Hin]%elem_of_cons; eauto.
Qed.

End statistics.

(** Cutting a frame into chunks loses no row and adds none. *)
Lemma chunk_rows_aux_counts (p : list cell -> bool) fuel n rs :
  length rs <= fuel ->
  foldr (fun c acc => (Z.of_nat (length (List.filter p c)) + acc)%Z) 0%Z
        (chunk_rows_aux fuel n rs)
  = Z.of_nat (length (List.filter p rs)).
Proof.
  revert rs. induction fuel as [|fuel IH]; intros rs Hlen.
  - destruct rs; [done | simpl in Hlen; lia].
  - destruct rs as [|r rs]; [done|].
    change (chunk_rows_aux (S fuel) n (r :: rs))
      with (take (S n) (r :: rs) :: chunk_rows_aux fuel n (drop (S n) (r :: rs))).
    cbn [foldr]. rewrite IH.
    + rewrite <- (take_drop (S n) (r :: rs)) at 3.
      rewrite List.filter_app, length_app. lia.
    + rewrite length_drop. simpl in *. lia.
Qed.

Lemma total_rows_chunked n df :
  total_rows (chunked (S n) df) = Z.of_nat (length (rows df)).
Proof.
  unfold total_rows, chunked. rewrite foldr_fmap. simpl.
  pose proof (chunk_rows_aux_counts (fun _ => true) (length (rows df)) n (rows df)) as H.
  assert (Hall : forall l : list (list cell), List.filter (fun _ => true) l = l).
  { induction l as [|x l IHl]; simpl; [done | by rewrite IHl]. }
  rewrite Hall in H. rewrite <- H by lia.
  clear H. induction (chunk_rows_aux _ _ _) as [|c cs IHc]; simpl; [done|].
  by rewrite Hall, IHc.
Qed.

Lemma total_rows_without_nulls_chunked n df :
  total_rows_without_nulls (chunked (S n) df)
  = (Z.of_nat (length (rows df)) - rows_with_nulls df)%Z.
Proof.
  rewrite <- (total_rows_chunked n df).
  unfold total_rows_without_nulls, total_rows, rows_with_nulls, chunked.
  rewrite !foldr_fmap. simpl.
  rewrite <- (chunk_rows_aux_counts (row_has_null (length (columns df)))
                (length (rows df)) n (rows df)) by lia.
  induction (chunk_rows_aux _ _ _) as [|c cs IHc]; simpl; [done|]. lia.
Qed.

(** The record counters do not depend on how a file's rows are cut into
    chunks. *)
Lemma record_counters_ignore_chunking ts dims df n m st1 st2 :
  aggregate ts dims initial_stats (chunked (S n) df) = Ok st1 ->
  aggregate ts dims initial_stats (chunked (S m) df) = Ok st2 ->
  total_records st1 = total_records st2
  /\ total_records_nonulls st1 = total_records_nonulls st2.
Proof.
  intros [H1 H1']%aggregate_totals [H2 H2']%aggregate_totals.
  rewrite H1, H2, H1', H2', !total_rows_chunked, !total_rows_without_nulls_chunked. done.
Qed.

(** X21.  Take the chunks of a file that [diagnose] has gone through, and in
    one of them a row that holds a null in a dimension field.  The group
    sizes of that chunk have no label for the row and add up to fewer than
    the chunk's rows, and at the report the entries of the dimension
    combination counts sum to strictly fewer than [total_records]. *)
Theorem null_dimension_row_not_grouped
    (ts : label) (dims : list label) (chunks : list DataFrame) (st : Stats)
    (chunk : DataFrame) (row : list cell) :
  aggregate ts dims initial_stats chunks = Ok st ->
  chunk ∈ chunks -> row ∈ rows chunk -> null_in_dimension chunk dims row ->
  (exists c ixs, groupby_size chunk dims = Ok c
     /\ mapM (column_index chunk) dims = Ok ixs
     /\ c !! row_key ixs row = None
     /\ (series_sum c < Z.of_nat (length (rows chunk)))%Z)
  /\ (exists combos, unique_dimension_combos st = Some combos
        /\ (series_sum combos < total_records st)%Z).
Proof.
  intros Hagg Hchunk Hrow Hnull.
  destruct (aggregate_each_chunk _ _ _ _ _ _ Hagg Hchunk) as (st1 & st2 & Hupd).
  apply update_stats_Ok in Hupd as (_ & _ & c & Hc & _).
  destruct (groupby_size_Ok _ _ _ Hc) as (ixs & Hixs & _ & _ & _ & Hlt).
  destruct (Hlt row Hrow Hnull) as [Hnone Hsum].
  split; [by exists c, ixs|].
  assert (Hne : chunks <> []) by (by intros ->; apply elem_of_nil in Hchunk).
  destruct (aggregate_combos_Some _ _ _ _ _ Hagg Hne) as [combos Hcombos].
  exists combos. split; [done|].
  destruct (aggregate_slack _ _ _ _ _ Hagg) as (_ & _ & Hslack).
  { intros k n. simpl. by rewrite lookup_empty. }
  specialize (Hslack chunk row Hchunk Hrow Hnull).
  unfold combo_total in Hslack. rewrite Hcombos in Hslack. simpl in Hslack.
  rewrite (series_sum_empty (K:=list cell)) in Hslack. lia.
Qed.

(** ** The chunk loop and the file loop *)

Lemma renamed_rows rn df : rows (renamed rn df) = rows df.
Proof. by destruct rn. Qed.

Lemma rows_with_nulls_renamed rn df : rows_with_nulls (renamed rn df) = rows_with_nulls df.
Proof. destruct rn; [|done]. unfold rows_with_nulls, rename. simpl. by rewrite length_fmap. Qed.

Lemma total_rows_renamed rn chunks : total_rows (renamed rn <$> chunks) = total_rows chunks.
Proof.
  induction chunks as [|c cs IH]; [done|].
  rewrite fmap_cons. unfold total_rows in *. simpl. by rewrite renamed_rows, IH.
Qed.

Lemma total_rows_without_nulls_renamed rn chunks :
  total_rows_without_nulls (renamed rn <$> chunks) = total_rows_without_nulls chunks.
Proof.
  induction chunks as [|c cs IH]; [done|].
  rewrite fmap_cons. unfold total_rows_without_nulls in *. simpl.
  by rewrite renamed_rows, rows_with_nulls_renamed, IH.
Qed.

Section chunk_loop.
Variable file : string.
Variable domain : option string.
Variable header_columns : option (list string).

Lemma chunk_step_Ok l chunk l' :
  chunk_step file domain header_columns l chunk = Ok l' ->
  is_Some (tts_schema l')
  /\ (is_Some (tts_schema l) ->
      tts_schema l' = tts_schema l /\ fields l' = fields l /\ renames l' = renames l)
  /\ exists f, fields l' = Some f
       /\ update_stats (timestamp_field f) (dimension_fields f) (stats l)
                       (renamed (renames l') chunk) = Ok (stats l').
Proof.
  unfold chunk_step. intros Hl. apply bind_Ok in Hl as ([[schema flds] rn] & Hres & Hl).
  apply bind_Ok in Hl as (f & Hf & Hl). apply bind_Ok in Hl as (st & Hst & Hl).
  injection Hl as <-. simpl.
  destruct flds as [f'|]; [|discriminate]. injection Hf as ->.
  split; [eauto|]. split; [|by exists f].
  intros [s Hs]. rewrite Hs in Hres |- *. by injection Hres as <- <- <-.
Qed.

Lemma chunk_loop_resolved items l l' :
  is_Some (tts_schema l) ->
  chunk_loop file domain header_columns l items = Ok l' ->
  exists chunks,
    items = Ok <$> chunks
    /\ tts_schema l' = tts_schema l /\ fields l' = fields l /\ renames l' = renames l
    /\ (chunks = [] -> stats l' = stats l)
    /\ forall f, fields l = Some f ->
         aggregate (timestamp_field f) (dimension_fields f) (stats l)
                   (renamed (renames l) <$> chunks) = Ok (stats l').
Proof.
  revert l. induction items as [|[chunk|e] items IH]; intros l Hs; simpl.
  - intros [= <-]. exists []. by repeat split.
  - intros Hl. apply bind_Ok in Hl as (l1 & H1 & Hl).
    destruct (chunk_step_Ok _ _ _ H1) as (Hs1 & Hsame & f & Hf & Hupd).
    destruct (Hsame Hs) as (Es & Ef & Er).
    destruct (IH l1 Hs1 Hl) as (chunks & -> & Es' & Ef' & Er' & _ & Hagg).
    exists (chunk :: chunks). split; [done|].
    split; [congruence|]. split; [congruence|]. split; [congruence|]. split; [done|].
    intros f' Hf'. rewrite <- Ef, Hf in Hf'. injection Hf' as <-.
    rewrite fmap_cons, aggregate_cons. rewrite <- Er, Hupd. simpl.
    by apply Hagg.
  - discriminate.
Qed.

(** The chunk loop is the statistics fold over the chunks the reader yields,
    with the fields and renames that the first chunk settles. *)
Lemma chunk_loop_aggregate items l l' :
  chunk_loop file domain header_columns l items = Ok l' ->
  exists chunks,
    items = Ok <$> chunks
    /\ (chunks = [] -> stats l' = stats l)
    /\ (chunks <> [] ->
        exists f, fields l' = Some f
          /\ aggregate (timestamp_field f) (dimension_fields f) (stats l)
                       (renamed (renames l') <$> chunks) = Ok (stats l')).
Proof.
  destruct items as [|[chunk|e] items]; simpl.
  - intros [= <-]. exists []. by repeat split.
  - intros Hl. apply bind_Ok in Hl as (l1 & H1 & Hl).
    destruct (chunk_step_Ok _ _ _ H1) as (Hs1 & _ & f & Hf & Hupd).
    destruct (chunk_loop_resolved _ _ _ Hs1 Hl) as (chunks & -> & _ & Ef & Er & _ & Hagg).
    exists (chunk :: chunks). split; [done|]. split; [done|].
    intros _. exists f. split; [congruence|].
    rewrite fmap_cons, aggregate_cons, Er, Hupd. simpl. by apply Hagg.
  - discriminate.
Qed.

End chunk_loop.

Lemma process_file_report w domain carried file carried' r :
  process_file w domain carried file = Ok (carried', r) -> report_of_file w file r.
Proof.
  unfold process_file. destruct carried as [schema0 fields0]. intros Hp.
  apply bind_Ok in Hp as ([header_columns ncols] & _ & Hp).
  apply bind_Ok in Hp as (_ & _ & Hp). apply bind_Ok in Hp as (l & Hloop & Hp).
  apply bind_Ok in Hp as (r' & Hr & Hp). injection Hp as _ ->.
  unfold report in Hr. destruct (unique_dimension_combos (stats l)) as [combos|] eqn:Hcombos;
    [|discriminate].
  injection Hr as <-. simpl.
  apply chunk_loop_aggregate in Hloop as (chunks & Hitems & Hnil & Hagg). simpl in *.
  assert (Hne : chunks <> []).
  { intros ->. rewrite Hnil in Hcombos by done. discriminate. }
  destruct (Hagg Hne) as (f & _ & Haggr).
  do 3 eexists. exists chunks, f, (renames l). split; [exact Hitems|]. split; [done|].
  split; [exact Haggr|].
  destruct (aggregate_totals _ _ _ _ _ Haggr) as [Ht Hn].
  rewrite total_rows_renamed in Ht. rewrite total_rows_without_nulls_renamed in Hn.
  change (total_records initial_stats) with 0%Z in Ht.
  change (total_records_nonulls initial_stats) with 0%Z in Hn.
  simpl. split; [lia|]. split; [lia|].
  intros chunk ->. simpl in Haggr. apply bind_Ok in Haggr as (st1 & Hupd & Hst).
  injection Hst as ->. apply update_stats_Ok in Hupd as (_ & _ & c & Hc & Hcs). simpl in Hcs.
  apply groupby_size_Ok in Hc as (ixs & Hixs & Hceq & _). rewrite renamed_rows in Hceq.
  rewrite Hcombos in Hcs. injection Hcs as ->. exists c, ixs. subst c.
  split; [done|]. split; [done|]. unfold dimension_keys. split.
  - apply series_len_value_counts.
  - apply series_sum_value_counts.
Qed.

Lemma run_files_reports w domain files carried :
  exists processed rest,
    files = processed ++ rest
    /\ Forall2 (report_of_file w) processed (reports_of (run_files w domain carried files))
    /\ (forall rs, run_files w domain carried files = Finished rs -> rest = []).
Proof.
  revert carried. induction files as [|file files IH]; intros carried; simpl.
  - exists [], []. by repeat split.
  - destruct (process_file w domain carried file) as [[carried' r]|e] eqn:Hp.
    + destruct (IH carried') as (processed & rest & -> & Hall & Hfin).
      exists (file :: processed), rest. split; [done|].
      pose proof (process_file_report _ _ _ _ _ _ Hp) as Hr.
      destruct (run_files w domain carried' (processed ++ rest)) as [rs|rs e] eqn:Hrun; simpl in *.
      * split; [by constructor|]. intros rs' _. by apply (Hfin rs).
      * split; [by constructor|]. discriminate.
    + exists [], (file :: files). split; [done|]. split; [constructor | discriminate].
Qed.

(** C1 (as the code has it).  The tracking variables are assigned afresh at
    the start of every file and a report is printed after every file, so
    each report covers the chunks of one file only: the reports of a run
    match a prefix of the input files (all of them when the run finishes),
    and in the report of a file [total_records] is the number of rows of
    that file's chunks, [total_records_nonulls] the number of its rows
    without a null, and, when the file came as a single chunk, the
    dimension combination counts have one entry per distinct null-free
    dimension tuple of that file and sum to the number of its rows with such
    a tuple. *)
Theorem statistics_are_per_file
    (w : World) (tts_path : string) (domain : option string)
    (tts_schema : option Schema) (fields0 : option Fields) (tts_filenames : list string) :
  check_arguments domain tts_schema = Ok fields0 ->
  resolve_inputs w tts_path = Ok tts_filenames ->
  exists processed rest,
    tts_filenames = processed ++ rest
    /\ Forall2 (report_of_file w) processed
               (reports_of (diagnose w tts_path domain tts_schema))
    /\ (forall rs, diagnose w tts_path domain tts_schema = Finished rs -> rest = []).
Proof.
  intros Hargs Hfiles. unfold diagnose. rewrite Hargs, Hfiles. apply run_files_reports.
Qed.

(** ** Schema inference *)

Lemma incr_count_get k d t :
  dict_get (incr_count k d) t
  = if bool_decide (k = t) then Some (S (default 0 (dict_get d k))) else dict_get d t.
Proof.
  induction d as [|[k' n] d IH]; simpl.
  - by case_bool_decide.
  - destruct (decide (k' = k)) as [->|Hne].
    + rewrite !(bool_decide_eq_true_2 (k = k)) by done. simpl.
      case_bool_decide; [done|]. done.
    + rewrite (bool_decide_eq_false_2 (k' = k)) by done. simpl. rewrite IH.
      destruct (decide (k = t)) as [->|Hkt].
      * rewrite (bool_decide_eq_false_2 (k' = t)), (bool_decide_eq_true_2 (t = t)) by done.
        done.
      * rewrite (bool_decide_eq_false_2 (k = t)) by done. done.
Qed.

Lemma dict_get_Some_elem_of {V} (d : list (string * V)) k v :
  (k, v) ∈ d -> is_Some (dict_get d k).
Proof.
  induction d as [|[k' v'] d IH]; simpl; [by intros ?%elem_of_nil|].
  intros [[= <- <-]|Hin]%elem_of_cons.
  - rewrite bool_decide_eq_true_2 by done. eauto.
  - case_bool_decide; eauto.
Qed.

Lemma incr_count_keys k d : NoDup d.*1 -> NoDup (incr_count k d).*1.
Proof.
  induction d as [|[k' n] d IH]; simpl.
  - intros _. apply NoDup_singleton.
  - intros [Hk' Hnd]%NoDup_cons. case_bool_decide as Hk; simpl.
    + by apply NoDup_cons.
    + apply NoDup_cons. split; [|auto].
      intros ([k2 n2] & Hk2 & Hin)%list_elem_of_fmap. simpl in Hk2. subst k2.
      apply dict_get_Some_elem_of in Hin as Hget. rewrite incr_count_get in Hget.
      rewrite (bool_decide_eq_false_2 (k = k')) in Hget by congruence.
      destruct Hget as [m Hm]. apply dict_get_elem_of in Hm.
      apply Hk'. apply list_elem_of_fmap. by exists (k', m).
Qed.

Lemma incr_count_pos k d :
  (forall t n, (t, n) ∈ d -> 0 < n) -> forall t n, (t, n) ∈ incr_count k d -> 0 < n.
Proof.
  induction d as [|[k' m] d IH]; simpl; intros Hd t n.
  - intros [= _ ->]%list_elem_of_singleton. lia.
  - case_bool_decide.
    + intros [[= _ ->]|Hin]%elem_of_cons; [lia|]. apply (Hd t n). by right.
    + intros [[= -> ->]|Hin]%elem_of_cons.
      * apply (Hd k' m). left.
      * apply (IH (fun t n H => Hd t n (list_elem_of_further _ _ _ H)) t n Hin).
Qed.

Lemma List_filter_nonempty {A} (p : A -> bool) (l : list A) :
  0 < length (List.filter p l) -> exists x, x ∈ l /\ p x = true.
Proof.
  destruct (List.filter p l) as [|x ?] eqn:Hf; simpl; [lia|]. intros _.
  exists x. apply elem_of_List_filter. rewrite Hf. left.
Qed.

Section column_loop.
Variable file : string.

(** The column loop builds one entry per column, in order, and counts the
    columns of every detected type. *)
Lemma infer_columns_Ok cols ixs counts0 attrs0 :
  length ixs = length cols ->
  Forall (fun c => is_Some (schematype_of c.2)) cols ->
  exists counts attrs,
    foldlM (infer_column file) (counts0, attrs0) (zip ixs cols) = Ok (counts, attrs)
    /\ (AttributeType <$> attrs)
       = (AttributeType <$> attrs0) ++ omap (fun c => schematype_of c.2) cols
    /\ (NoDup counts0.*1 -> NoDup counts.*1)
    /\ ((forall t n, (t, n) ∈ counts0 -> 0 < n) -> forall t n, (t, n) ∈ counts -> 0 < n)
    /\ forall t, default 0 (dict_get counts t)
                 = default 0 (dict_get counts0 t) + columns_of_type t cols.
Proof.
  revert ixs counts0 attrs0. induction cols as [|[name dt] cols IH];
    intros ixs counts0 attrs0 Hlen Hall.
  - destruct ixs; [|done]. exists counts0, attrs0. simpl. rewrite app_nil_r.
    repeat split; [done..|]. intros t. unfold columns_of_type. simpl. lia.
  - destruct ixs as [|ix ixs]; [done|]. apply Forall_cons in Hall as [[t0 Ht0] Hall].
    simpl in Ht0. simpl. rewrite Ht0. simpl.
    destruct (IH ixs (incr_count t0 counts0)
                (attrs0 ++ [{| AttributeName := name; AttributeType := t0 |}]))
      as (counts & attrs & -> & Hty & Hnd & Hpos & Hcount); [by injection Hlen | done |].
    exists counts, attrs. split; [done|]. split.
    { rewrite Hty, fmap_app. simpl. by rewrite <- app_assoc. }
    split; [intros ?; by apply Hnd, incr_count_keys|].
    split; [intros ?; by apply Hpos, incr_count_pos|].
    intros t. rewrite Hcount, incr_count_get. unfold columns_of_type. simpl. rewrite Ht0.
    destruct (decide (t0 = t)) as [->|Hne].
    + rewrite !bool_decide_eq_true_2 by done. simpl. lia.
    + rewrite (bool_decide_eq_false_2 (t0 = t)) by done.
      rewrite (bool_decide_eq_false_2 (Some t0 = Some t)) by congruence. done.
Qed.

End column_loop.

Lemma imap_pair_zip_from {A} (l : list A) n :
  imap (fun i c => (n + i, c)) l = zip (seq n (length l)) l.
Proof.
  revert n. induction l as [|a l IH]; intros n; simpl; [done|].
  rewrite Nat.add_0_r. f_equal. rewrite <- IH. apply imap_ext. intros i x _. simpl.
  f_equal. lia.
Qed.

Lemma imap_pair_zip {A} (l : list A) : imap (fun i c => (i, c)) l = zip (seq 0 (length l)) l.
Proof. apply (imap_pair_zip_from l 0). Qed.

Lemma foldlM_cons {A B} (f : B -> A -> result B) (b : B) (a : A) (l : list A) :
  foldlM f b (a :: l) = f b a ≫= fun b' => foldlM f b' l.
Proof. reflexivity. Qed.

Lemma infer_column_name_many_columns d attrs r schematype count :
  1 < count ->
  infer_column_name d (attrs, r) (schematype, count)
  = Err (AmbiguousColumnMapping schematype (ManyColumns count)).
Proof. intros Hn. unfold infer_column_name. by rewrite bool_decide_eq_true_2. Qed.

Section name_loop.
Variable d : DomainTemplate.
Hypothesis d_wf : template_wf d = true.

Lemma required_of_type_le_1 schematype :
  length (fields_of_type (required_fields (tts d)) schematype) <= 1.
Proof.
  unfold template_wf in d_wf. apply andb_true_iff in d_wf as [_ Hnd%bool_decide_eq_true].
  unfold fields_of_type. rewrite length_fmap.
  induction (required_fields (tts d)) as [|[k spec] req IH]; simpl in *; [lia|].
  apply NoDup_cons in Hnd as [Hspec Hnd]. specialize (IH Hnd).
  case_bool_decide as Hty; simpl; [|lia].
  assert (List.filter
            (fun kv => bool_decide (SchemaAttribute.AttributeType kv.2 = schematype)) req = [])
    as ->; [|simpl; lia].
  destruct (List.filter _ req) as [|[k' spec'] ?] eqn:Hf; [done|].
  assert (Hin : (k', spec') ∈ List.filter
            (fun kv => bool_decide (SchemaAttribute.AttributeType kv.2 = schematype)) req)
    by (rewrite Hf; left).
  apply elem_of_List_filter in Hin as [Hin Hp]. apply bool_decide_eq_true in Hp. simpl in Hp.
  destruct Hspec. rewrite Hty, <- Hp.
  apply list_elem_of_fmap. exists spec'. split; [done|].
  apply list_elem_of_fmap. by exists (k', spec').
Qed.

Lemma infer_column_name_Ok attrs r schematype count :
  count <= 1 -> schematype ∈ AttributeType <$> attrs ->
  exists attrs' r',
    infer_column_name d (attrs, r) (schematype, count) = Ok (attrs', r')
    /\ AttributeType <$> attrs' = AttributeType <$> attrs.
Proof.
  intros Hcount Hty. unfold infer_column_name.
  rewrite bool_decide_eq_false_2 by lia.
  apply list_elem_of_fmap in Hty as (a & Ha & Hin).
  destruct (list_find_elem_of (fun a => AttributeType a = schematype) attrs a Hin)
    as [[i attribute] Hfind]; [done|].
  rewrite Hfind. apply list_find_Some in Hfind as (Hi & _ & _).
  rewrite bool_decide_eq_false_2 by (pose proof (required_of_type_le_1 schematype); lia).
  assert (Hkeep : forall new,
    AttributeType <$> <[i := {| AttributeName := LStr new;
                                AttributeType := AttributeType attribute |}]> attrs
    = AttributeType <$> attrs).
  { intros new. rewrite list_fmap_insert. simpl. apply list_insert_id.
    by rewrite list_lookup_fmap, Hi. }
  case_bool_decide; [eauto|]. destruct (_ && _); eauto.
Qed.

(** Once a detected type is carried by several columns, the loop over the
    detected types ends in [AmbiguousColumnMapping]. *)
Lemma infer_column_names_many_columns counts attrs r :
  (forall t n, (t, n) ∈ counts -> t ∈ AttributeType <$> attrs) ->
  (exists t n, (t, n) ∈ counts /\ 1 < n) ->
  exists t n, (t, n) ∈ counts /\ 1 < n
    /\ foldlM (infer_column_name d) (attrs, r) counts
       = Err (AmbiguousColumnMapping t (ManyColumns n)).
Proof.
  revert attrs r. induction counts as [|[t0 n0] counts IH]; intros attrs r Hty Hmany.
  - destruct Hmany as (? & ? & []%elem_of_nil & _).
  - destruct (decide (1 < n0)) as [Hn0|Hn0].
    + exists t0, n0. split; [left|]. split; [done|].
      by rewrite foldlM_cons, infer_column_name_many_columns.
    + destruct (infer_column_name_Ok attrs r t0 n0) as (attrs' & r' & Hstep & Hsame);
        [lia | apply (Hty t0 n0); left |].
      destruct (IH attrs' r') as (t & n & Hin & Hn & Hrest).
      * intros t n Hin. rewrite Hsame. apply (Hty t n). by right.
      * destruct Hmany as (t & n & [[= -> ->]|Hin]%elem_of_cons & Hn); [lia | eauto].
      * exists t, n. split; [by right|]. split; [done|]. by rewrite foldlM_cons, Hstep.
Qed.

End name_loop.

(** C8 (as the code has it).  For a headerless first file, no schema and a
    catalog domain, with every column of a supported dtype: when some
    detected type is carried by more than one column, name inference fails
    with [AmbiguousColumnMapping]; so does a type for which the template has
    more than one required field.  A type for which the template has no
    required field and not exactly one optional field does not fail: the
    column keeps the label it has.  For RETAIL, two columns both detected as
    [float] fail with [AmbiguousColumnMapping]. *)
Theorem name_inference_ambiguity
    (file dn : string) (d : DomainTemplate) (r0 : gmap label string)
    (tts_chunk : DataFrame) (t : string) :
  DOMAINS_getitem dn = Ok d ->
  Forall (fun c => is_Some (schematype_of c.2)) (columns tts_chunk) ->
  1 < columns_of_type t (columns tts_chunk) ->
  (exists t' n, 1 < n /\ n = columns_of_type t' (columns tts_chunk)
     /\ infer_schema file (Some dn) None (Some r0) tts_chunk
        = Err (AmbiguousColumnMapping t' (ManyColumns n)))
  /\ (forall d' attrs r schematype count,
        count <= 1 -> is_Some (list_find (fun a => AttributeType a = schematype) attrs) ->
        (1 < length (fields_of_type (required_fields (tts d')) schematype) ->
         infer_column_name d' (attrs, r) (schematype, count)
         = Err (AmbiguousColumnMapping schematype
                  (ManyRequiredFields
                     (length (fields_of_type (required_fields (tts d')) schematype)))))
        /\ (fields_of_type (required_fields (tts d')) schematype = [] ->
            length (fields_of_type (optional_fields (tts d')) schematype) <> 1 ->
            infer_column_name d' (attrs, r) (schematype, count) = Ok (attrs, r)))
  /\ (forall name1 name2 rows,
        infer_schema file (Some "RETAIL") None (Some r0)
          {| columns := [(name1, dtype_float); (name2, dtype_float)]; rows := rows |}
        = Err (AmbiguousColumnMapping "float" (ManyColumns 2))).
Proof.
  intros Hd Hall Hmany. split; [|split].
  - unfold infer_schema. rewrite imap_pair_zip.
    destruct (infer_columns_Ok file (columns tts_chunk) (seq 0 (length (columns tts_chunk)))
                [] []) as (counts & attrs & -> & Hty & Hnd & Hpos & Hcount);
      [by rewrite length_seq | done |].
    simpl. rewrite Hd. simpl.
    specialize (Hnd (NoDup_nil_2)). simpl in Hcount, Hty.
    assert (Hin : forall t n, (t, n) ∈ counts ->
                    n = columns_of_type t (columns tts_chunk) /\ 0 < n).
    { intros t1 n1 Hin1. split; [|apply (Hpos ltac:(by intros ?? ?%elem_of_nil) t1 n1 Hin1)].
      destruct (dict_get_Some_elem_of _ _ _ Hin1) as [m Hm].
      pose proof (Hcount t1) as Hc. rewrite Hm in Hc. simpl in Hc. rewrite <- Hc.
      apply dict_get_elem_of in Hm.
      apply (dict_functional counts t1 n1 m Hnd Hin1 Hm). }
    destruct (infer_column_names_many_columns d (DOMAINS_wf dn d Hd) counts attrs r0)
      as (t' & n & Hin' & Hn & Hfold).
    + intros t1 n1 Hin1. rewrite Hty. destruct (Hin t1 n1 Hin1) as [-> Hpos1].
      apply List_filter_nonempty in Hpos1 as (c & Hc & Hp). apply bool_decide_eq_true in Hp.
      apply list_elem_of_omap. by exists c.
    + exists t. pose proof (Hcount t) as Hc.
      destruct (dict_get counts t) as [n|] eqn:Hget; simpl in Hc; [|lia].
      exists n. split; [by apply dict_get_elem_of | lia].
    + exists t', n. split; [done|]. split; [by apply Hin|]. by rewrite Hfold.
  - intros d' attrs r schematype count Hcount [[i a] Hfind]. split.
    + intros Hreq. unfold infer_column_name. rewrite bool_decide_eq_false_2 by lia.
      rewrite Hfind. by rewrite bool_decide_eq_true_2.
    + intros Hreq Hopt. unfold infer_column_name. rewrite bool_decide_eq_false_2 by lia.
      rewrite Hfind, Hreq. simpl.
      by rewrite (bool_decide_eq_false_2 (length _ = 1)) by done.
  - intros. reflexivity.
Qed.

(** ** Input resolution *)

Lemma sorted_nil l : sorted l = [] <-> l = [].
Proof.
  unfold sorted. split; [|by intros ->].
  intros Hs. pose proof (merge_sort_Permutation (fun a b => Is_true (String.leb a b)) l) as Hp.
  rewrite Hs in Hp. by apply Permutation_nil.
Qed.

Lemma resolve_inputs_nil w tts_path :
  resolve_inputs w tts_path = Ok []
  <-> os_path_isdir w tts_path = true /\ os_walk w tts_path = [].
Proof.
  unfold resolve_inputs. destruct (os_path_isdir w tts_path).
  - set (raw := sorted (os_walk w tts_path)).
    set (filtered := sorted (List.filter _ raw)).
    rewrite <- sorted_nil. fold raw. split.
    + destruct (bool_decide (0 < length filtered)) eqn:Hpos; simpl.
      * apply bool_decide_eq_true in Hpos.
        destruct (bool_decide _); intros [= Heq]; [|done].
        rewrite Heq in Hpos. simpl in Hpos. lia.
      * by intros [= ->].
    + intros [_ ->]. subst filtered. simpl. done.
  - split; [|by intros [? _]]. destruct (os_path_isfile w tts_path); discriminate.
Qed.

Lemma List_filter_none {A} (p : A -> bool) (l : list A) :
  (forall x, x ∈ l -> p x = false) -> List.filter p l = [].
Proof.
  induction l as [|a l IH]; simpl; [done|]. intros Hall.
  rewrite (Hall a) by left. apply IH. intros x Hx. apply Hall. by right.
Qed.

(** C7 (as the code has it).  Once the argument checks have passed, a path
    that is neither a directory nor a file ends the run with [InvalidPath].
    An expansion that yields no file is not an error: the run finishes
    without a report; this happens exactly for a directory without files.
    A directory in which no file ends in [.csv] is not filtered: all its
    files are inputs. *)
Theorem diagnose_input_resolution
    (w : World) (tts_path : string) (domain : option string)
    (tts_schema : option Schema) (fields0 : option Fields) :
  check_arguments domain tts_schema = Ok fields0 ->
  (os_path_isdir w tts_path = false -> os_path_isfile w tts_path = false ->
   diagnose w tts_path domain tts_schema = Failed [] (InvalidPath tts_path))
  /\ (resolve_inputs w tts_path = Ok [] ->
      diagnose w tts_path domain tts_schema = Finished [])
  /\ (resolve_inputs w tts_path = Ok []
      <-> os_path_isdir w tts_path = true /\ os_walk w tts_path = [])
  /\ (os_path_isdir w tts_path = true ->
      (forall f, f ∈ os_walk w tts_path -> is_csv f = false) ->
      resolve_inputs w tts_path = Ok (sorted (os_walk w tts_path))).
Proof.
  intros Hargs. unfold diagnose. rewrite Hargs. repeat split.
  - intros Hdir Hfile. unfold resolve_inputs. by rewrite Hdir, Hfile.
  - by intros ->.
  - by apply resolve_inputs_nil.
  - by apply resolve_inputs_nil.
  - by apply resolve_inputs_nil.
  - intros Hdir Hnone. unfold resolve_inputs. rewrite Hdir.
    rewrite (List_filter_none is_csv); [done|].
    intros f Hf. apply (Hnone f).
    unfold sorted in Hf.
    by rewrite (merge_sort_Permutation (fun a b => Is_true (String.leb a b))) in Hf.
Qed.

Lemma diagnose_input_resolution_witness :
  check_arguments (Some "RETAIL") None = Ok None
  /\ diagnose empty_directory "nowhere" (Some "RETAIL") None = Failed [] (InvalidPath "nowhere")
  /\ diagnose empty_directory "data" (Some "RETAIL") None = Finished [].
Proof.
  split; [reflexivity|].
  destruct (diagnose_input_resolution empty_directory "nowhere" (Some "RETAIL") None None eq_refl)
    as (Hinvalid & _).
  destruct (diagnose_input_resolution empty_directory "data" (Some "RETAIL") None None eq_refl)
    as (_ & Hempty & _).
  split; [by apply Hinvalid | by apply Hempty].
Defined.

(** C7, refuted as written: for a directory without files the expansion
    yields the empty set, and the run does not fail with [NoInputFiles] or
    with anything else: it finishes. *)
Lemma empty_directory_is_not_an_error :
  resolve_inputs empty_directory "data" = Ok []
  /\ diagnose empty_directory "data" (Some "RETAIL") None = Finished [].
Proof. split; reflexivity. Qed.

(** ** Examples of runs *)

Lemma two_files_run :
  is_finished (diagnose two_files "data" (Some "RETAIL") (Some retail_schema)) = true
  /\ (fun r => (item_counts (shown r), unique_items r))
       <$> reports_of (diagnose two_files "data" (Some "RETAIL") (Some retail_schema))
     = [((1%Z, Some (Some 1%Z), None), 1); ((1%Z, None, Some (Some 1%Z)), 1)]
  /\ report_summary
       <$> reports_of (diagnose two_files "data" (Some "RETAIL") (Some retail_schema))
     = [(1%Z, 1, 1%Z); (1%Z, 1, 1%Z)].
Proof. by_evaluation. Qed.

(** C1, refuted as written.  Two rows with two different items, one row in
    each of two files: the run prints two reports; each counts one record
    and has one entry, summing to one, in its dimension combination counts,
    and the last one knows nothing of the first file's item.  At no report
    do the counts have two entries or sum to two. *)
Lemma reports_do_not_span_files :
  resolve_inputs two_files "data" = Ok ["data/a.csv"; "data/b.csv"]
  /\ is_finished (diagnose two_files "data" (Some "RETAIL") (Some retail_schema)) = true
  /\ (fun r => (item_counts (shown r), unique_items r))
       <$> reports_of (diagnose two_files "data" (Some "RETAIL") (Some retail_schema))
     = [((1%Z, Some (Some 1%Z), None), 1); ((1%Z, None, Some (Some 1%Z)), 1)]
  /\ report_summary
       <$> reports_of (diagnose two_files "data" (Some "RETAIL") (Some retail_schema))
     = [(1%Z, 1, 1%Z); (1%Z, 1, 1%Z)].
Proof.
  split; [reflexivity|].
  exact (conj (proj1 two_files_run) (conj (proj1 (proj2 two_files_run))
                                          (proj2 (proj2 two_files_run)))).
Qed.

Lemma statistics_are_per_file_witness :
  check_arguments (Some "RETAIL") (Some retail_schema)
  = Ok (Some {| timestamp_field := LStr "timestamp"; the_target_field := LStr "demand";
                dimension_fields := [LStr "item_id"] |})
  /\ resolve_inputs two_files "data" = Ok ["data/a.csv"; "data/b.csv"]
  /\ exists processed rest,
       ["data/a.csv"; "data/b.csv"] = processed ++ rest
       /\ Forall2 (report_of_file two_files) processed
                  (reports_of (diagnose two_files "data" (Some "RETAIL") (Some retail_schema)))
       /\ (forall rs, diagnose two_files "data" (Some "RETAIL") (Some retail_schema)
                      = Finished rs -> rest = []).
Proof.
  split; [reflexivity|]. split; [reflexivity|].
  apply (statistics_are_per_file two_files "data" (Some "RETAIL") (Some retail_schema)
           (Some {| timestamp_field := LStr "timestamp"; the_target_field := LStr "demand";
                    dimension_fields := [LStr "item_id"] |})
           ["data/a.csv"; "data/b.csv"]); reflexivity.
Defined.

Lemma late_item_chunks :
  length (chunked CHUNKSIZE late_item) = 2 /\ length (chunked (S CHUNKSIZE) late_item) = 1.
Proof. split; vm_compute; reflexivity. Qed.

Lemma late_item_by_chunks :
  item_counts <$> run_chunked CHUNKSIZE late_item = Ok (10001%Z, Some None, None).
Proof. vm_compute. reflexivity. Qed.

Lemma late_item_whole :
  item_counts <$> run_chunked (S CHUNKSIZE) late_item
  = Ok (10001%Z, Some (Some 10000%Z), Some (Some 1%Z)).
Proof. vm_compute. reflexivity. Qed.

Lemma late_item_value_counts :
  (fun st => (dimension_count st (LStr "item_id") (item "a"),
              dimension_count st (LStr "item_id") (item "b")))
    <$> run_chunked CHUNKSIZE late_item = Ok (Some None, None).
Proof. vm_compute. reflexivity. Qed.

Lemma two_items_one_by_one :
  item_counts <$> run_chunked 1 two_items = Ok (2%Z, Some None, None).
Proof. vm_compute. reflexivity. Qed.

Lemma two_items_whole :
  item_counts <$> run_chunked 2 two_items = Ok (2%Z, Some (Some 1%Z), Some (Some 1%Z)).
Proof. vm_compute. reflexivity. Qed.

(** C3 (defect).  The same rows give different statistics when they arrive
    in different chunks.  With the module's chunk size of 10,000, a file of
    10,001 rows whose last row is the only one for item [b] is read in two
    chunks: the counts end with NaN for item [a] and no entry for item [b],
    where a single chunk gives 10,000 and 1.  The same happens to two rows
    read one at a time.  The record counters agree in all cases. *)
Theorem chunking_changes_dimension_counts :
  (length (chunked CHUNKSIZE late_item) = 2
   /\ length (chunked (S CHUNKSIZE) late_item) = 1)
  /\ item_counts <$> run_chunked CHUNKSIZE late_item = Ok (10001%Z, Some None, None)
  /\ item_counts <$> run_chunked (S CHUNKSIZE) late_item
     = Ok (10001%Z, Some (Some 10000%Z), Some (Some 1%Z))
  /\ (fun st => (dimension_count st (LStr "item_id") (item "a"),
                 dimension_count st (LStr "item_id") (item "b")))
       <$> run_chunked CHUNKSIZE late_item = Ok (Some None, None)
  /\ item_counts <$> run_chunked 1 two_items = Ok (2%Z, Some None, None)
  /\ item_counts <$> run_chunked 2 two_items = Ok (2%Z, Some (Some 1%Z), Some (Some 1%Z)).
Proof.
  exact (conj late_item_chunks (conj late_item_by_chunks (conj late_item_whole
          (conj late_item_value_counts (conj two_items_one_by_one two_items_whole))))).
Qed.

Lemma null_dimension_row_not_grouped_witness :
  exists st combos,
    run_chunked 1 missing_item = Ok st
    /\ unique_dimension_combos st = Some combos
    /\ (series_sum combos < total_records st)%Z.
Proof.
  assert (Hok : is_ok (run_chunked 1 missing_item) = true) by (vm_compute; reflexivity).
  destruct (run_chunked 1 missing_item) as [st|e] eqn:Hrun; [|discriminate].
  destruct (null_dimension_row_not_grouped
              (LStr "timestamp") [LStr "item_id"] (chunked 1 missing_item) st
              (frame (Some retail_names) retail_dtypes [retail_row None "2020-01-02"])
              (retail_row None "2020-01-02") Hrun)
    as (_ & combos & Hcombos & Hlt).
  - apply (list_elem_of_lookup_2 _ 1). reflexivity.
  - left.
  - exists (LStr "item_id"), 0. split; [left|]. split; reflexivity.
  - exists st, combos. split; [reflexivity|]. split; [exact Hcombos | exact Hlt].
Defined.

Lemma three_then_missing_chunks :
  length (chunked 2 three_then_missing) = 2 /\ length (chunked 4 three_then_missing) = 1.
Proof. split; vm_compute; reflexivity. Qed.

Lemma three_then_missing_by_chunks :
  null_row_view <$> run_chunked 2 three_then_missing
  = Ok (4%Z, None, Some (Some 3%Z), 3%Z, None, 3%Z).
Proof. vm_compute. reflexivity. Qed.

Lemma three_then_missing_whole :
  null_row_view <$> run_chunked 4 three_then_missing
  = Ok (4%Z, Some (Some 1%Z), Some (Some 3%Z), 4%Z, None, 3%Z).
Proof. vm_compute. reflexivity. Qed.

Lemma late_missing_item_chunks :
  length (chunked CHUNKSIZE late_missing_item) = 2
  /\ length (chunked (S (S CHUNKSIZE)) late_missing_item) = 1.
Proof. split; vm_compute; reflexivity. Qed.

Lemma late_missing_item_by_chunks :
  null_row_view <$> run_chunked CHUNKSIZE late_missing_item
  = Ok (10002%Z, None, Some (Some 10001%Z), 10001%Z, None, 10001%Z).
Proof. vm_compute. reflexivity. Qed.

Lemma late_missing_item_whole :
  null_row_view <$> run_chunked (S (S CHUNKSIZE)) late_missing_item
  = Ok (10002%Z, Some (Some 1%Z), Some (Some 10001%Z), 10002%Z, None, 10001%Z).
Proof. vm_compute. reflexivity. Qed.

(** C10 (defect).  A row with a null in a dimension field reaches the value
    counts kept for that field only when it lies in the first chunk of its
    file.  With the module's chunk size of 10,000, a file of 10,002 rows
    whose last row is the only one without an item is read in two chunks:
    the value counts kept for [item_id] end with no null label and sum to
    10,001, one fewer than the records, where a single chunk gives the null
    label the count 1 and a sum of 10,002.  The same happens to four rows,
    the last without an item, read two at a time.  In every case the
    combination counts have no entry for the row and sum to fewer than the
    records. *)
Theorem null_dimension_row_lost_after_first_chunk :
  (length (chunked CHUNKSIZE late_missing_item) = 2
   /\ length (chunked (S (S CHUNKSIZE)) late_missing_item) = 1)
  /\ null_row_view <$> run_chunked CHUNKSIZE late_missing_item
     = Ok (10002%Z, None, Some (Some 10001%Z), 10001%Z, None, 10001%Z)
  /\ null_row_view <$> run_chunked (S (S CHUNKSIZE)) late_missing_item
     = Ok (10002%Z, Some (Some 1%Z), Some (Some 10001%Z), 10002%Z, None, 10001%Z)
  /\ (length (chunked 2 three_then_missing) = 2
      /\ length (chunked 4 three_then_missing) = 1)
  /\ null_row_view <$> run_chunked 2 three_then_missing
     = Ok (4%Z, None, Some (Some 3%Z), 3%Z, None, 3%Z)
  /\ null_row_view <$> run_chunked 4 three_then_missing
     = Ok (4%Z, Some (Some 1%Z), Some (Some 3%Z), 4%Z, None, 3%Z).
Proof.
  exact (conj late_missing_item_chunks (conj late_missing_item_by_chunks
          (conj late_missing_item_whole (conj three_then_missing_chunks
            (conj three_then_missing_by_chunks three_then_missing_whole))))).
Qed.

Lemma name_inference_ambiguity_witness :
  exists t' n,
    infer_schema "data/a.csv" (Some "RETAIL") None (Some ∅) two_floats
    = Err (AmbiguousColumnMapping t' (ManyColumns n)).
Proof.
  destruct (name_inference_ambiguity "data/a.csv" "RETAIL" _ ∅ two_floats "float" eq_refl)
    as ((t' & n & _ & _ & Herr) & _).
  - repeat constructor; eauto.
  - vm_compute. lia.
  - by exists t', n.
Defined.

(** C8, refuted as written: RETAIL has no field of type [integer], neither
    required nor optional, so a lone integer column has no candidate field;
    inference does not fail, it leaves the column under its position. *)
Lemma integer_column_without_candidate :
  columns_of_type "integer" (columns retail_with_integer) = 1
  /\ (forall d, DOMAINS_getitem "RETAIL" = Ok d ->
        fields_of_type (required_fields (tts d)) "integer" = []
        /\ fields_of_type (optional_fields (tts d)) "integer" = [])
  /\ (fun r => (r.1.1, dimension_fields r.1.2))
       <$> infer_schema "data/a.csv" (Some "RETAIL") None (Some ∅) retail_with_integer
     = Ok ({| Attributes := [entry "item_id" "string"; entry "timestamp" "timestamp";
                             entry "demand" "float";
                             {| AttributeName := LInt 3; AttributeType := "integer" |}] |},
           [LStr "item_id"; LInt 3]).
Proof.
  split; [reflexivity|]. split.
  - intros d [= <-]. split; reflexivity.
  - vm_compute. reflexivity.
Qed.

(** * Further properties *)

(** ** SchemaAttribute: what the constructor does with every input *)

(** X1.  The constructor looks at the first character of the name only, and
    at the name before the type: it raises [InvalidAttributeName] exactly
    when the name does not begin with an ASCII letter (the empty name
    included), whatever the type; it raises [InvalidAttributeType] exactly
    when the name begins with a letter and the type is not one of the four
    keywords; otherwise it builds the attribute with both strings
    unchanged. *)
Theorem SchemaAttribute_init_outcome (name type : string) :
  (starts_with_letter name /\ type ∈ TypeTag_keywords
     <-> SchemaAttribute.init name type = Ok (SA name type))
  /\ (~ starts_with_letter name
     <-> SchemaAttribute.init name type = Err (InvalidAttributeName name))
  /\ (starts_with_letter name /\ type ∉ TypeTag_keywords
     <-> SchemaAttribute.init name type = Err (InvalidAttributeType type))
  /\ (forall a, SchemaAttribute.init name type = Ok a ->
        SchemaAttribute.AttributeName a = name /\ SchemaAttribute.AttributeType a = type).
Proof.
  unfold starts_with_letter. rewrite <- is_valid_name_spec, <- is_valid_type_spec.
  unfold SchemaAttribute.init.
  destruct (SchemaAttribute.is_valid_name name), (SchemaAttribute.is_valid_type type);
    repeat split; try (intros [? ?]); try intros ?; try discriminate; try congruence;
    simplify_eq; auto.
Qed.

(** X2.  The dtype handed to the CSV reader is defined for exactly the type
    names the constructor accepts; for any other type name the function
    falls through and yields Python's [None].  Timestamps are read like
    strings, as text. *)
Theorem type_to_numpy_type_defined (typename : string) :
  (SchemaAttribute.is_valid_type typename = true
     <-> is_Some (SchemaAttribute.type_to_numpy_type typename))
  /\ (SchemaAttribute.type_to_numpy_type typename = Some SchemaAttribute.np_str
     <-> typename = "string" \/ typename = "timestamp").
Proof.
  rewrite is_valid_type_spec.
  destruct (decide (typename ∈ TypeTag_keywords)) as [Hin|Hout].
  - unfold TypeTag_keywords in Hin.
    repeat (apply elem_of_cons in Hin as [->|Hin]); [..|by apply elem_of_nil in Hin];
      (split; split; intros H;
       first [ by (vm_compute in H; discriminate)
             | by (destruct H; discriminate)
             | by left | by right
             | by_decide
             | by (vm_compute; eauto) ]).
  - unfold SchemaAttribute.type_to_numpy_type. unfold TypeTag_keywords in Hout.
    rewrite !not_elem_of_cons in Hout. destruct Hout as (Hs & Hi & Hf & Ht & _).
    rewrite (bool_decide_eq_false_2 (typename ∈ ["string"; "timestamp"]))
      by (rewrite !not_elem_of_cons; repeat split; [done..|apply not_elem_of_nil]).
    rewrite (bool_decide_eq_false_2 (typename = "integer")) by done.
    rewrite (bool_decide_eq_false_2 (typename = "float")) by done.
    split; split.
    + intros Hin. unfold TypeTag_keywords in Hin. rewrite !elem_of_cons in Hin.
      destruct Hin as [?|[?|[?|[?|[]%elem_of_nil]]]]; done.
    + by intros [? [=]].
    + discriminate.
    + by intros [?|?].
Qed.

(** ** The schema validator: every outcome *)

Lemma check_required_fields_Err domain attrs required e :
  check_required_fields domain required attrs = Err e ->
  exists pre fname spec post,
    required = pre ++ (fname, spec) :: post
    /\ Forall (fun kv => field_satisfied attrs kv = true) pre
    /\ ((matching_fields attrs fname = [] /\ e = MissingRequiredField fname domain)
        \/ (exists f0 more, matching_fields attrs fname = f0 :: more
              /\ AttributeType f0 <> SchemaAttribute.AttributeType spec
              /\ e = RequiredFieldTypeMismatch fname domain)).
Proof.
  induction required as [|[fname spec] rest IH]; simpl; [discriminate|].
  destruct (matching_fields attrs fname) as [|f0 more] eqn:Hm.
  - intros [= <-]. exists [], fname, spec, rest. split; [done|]. split; [constructor|].
    left. by rewrite Hm.
  - case_bool_decide as Hty.
    + intros [= <-]. exists [], fname, spec, rest. split; [done|]. split; [constructor|].
      right. exists f0, more. by rewrite Hm.
    + intros (pre & f & sp & post & -> & Hpre & Hcase)%IH.
      exists ((fname, spec) :: pre), f, sp, post. split; [done|]. split; [|done].
      constructor; [|done]. unfold field_satisfied. simpl. rewrite Hm.
      apply bool_decide_eq_true. destruct (decide (AttributeType f0 =
        SchemaAttribute.AttributeType spec)); [done | by destruct Hty].
Qed.

Lemma dict_get_None {V} (d : list (string * V)) k :
  dict_get d k = None -> k ∉ dict_keys d.
Proof.
  intros Hget ([k' v] & Hk & Hin)%list_elem_of_fmap. simpl in Hk. subst k'.
  apply dict_get_Some_elem_of in Hin as [? ?]. congruence.
Qed.

Lemma DOMAINS_getitem_Err dn e :
  DOMAINS_getitem dn = Err e -> e = PyKeyError /\ dn ∉ dict_keys DOMAINS.
Proof.
  unfold DOMAINS_getitem. destruct (dict_get DOMAINS dn) eqn:Hget; [done|].
  intros [= <-]. split; [done|]. by apply dict_get_None.
Qed.

(** What a successful validation has checked and what it returns. *)
Lemma validate_Ok_inv (s : Schema) (dn : string) (v : Validation) :
  validate_tts_schema_on_domain s dn = Ok v ->
  exists d, DOMAINS_getitem dn = Ok d
    /\ Forall (fun kv => field_satisfied (Attributes s) kv = true) (required_fields (tts d))
    /\ required_fnames v = dict_keys (required_fields (tts d))
    /\ optional_fields_used v
       = (scan_optional_fields (optional_fields (tts d)) (Attributes s)).1
    /\ custom_fnames v
       = List.filter
           (fun f => negb (bool_decide
              (f ∈ LStr <$> (optional_fields_used v ++ dict_keys (required_fields (tts d))))))
           (schema_names s).
Proof.
  unfold validate_tts_schema_on_domain. intros Hv.
  apply bind_Ok in Hv as (d & Hd & Hv). apply bind_Ok in Hv as ([] & Hreq & Hv).
  exists d. split; [done|]. split; [by apply (check_required_fields_Ok dn)|].
  destruct (scan_optional_fields (optional_fields (tts d)) (Attributes s)) as [used warned].
  by injection Hv as <-.
Qed.

(** A satisfied required field has an attribute of its name in the schema. *)
Lemma satisfied_present (attrs : list SchemaEntry) (required : list (string * SchemaAttribute.t)) :
  Forall (fun kv => field_satisfied attrs kv = true) required ->
  forall fname, fname ∈ dict_keys required -> LStr fname ∈ AttributeName <$> attrs.
Proof.
  intros Hsat fname ([k spec] & Hk & Hin)%list_elem_of_fmap. simpl in Hk. subst k.
  apply (proj1 (Forall_forall _ _) Hsat) in Hin. unfold field_satisfied in Hin. simpl in Hin.
  destruct (matching_fields attrs fname) as [|f0 more] eqn:Hm; [discriminate|].
  assert (Hf0 : f0 ∈ matching_fields attrs fname) by (rewrite Hm; left).
  apply elem_of_List_filter in Hf0 as [Hf0 Hname]. apply bool_decide_eq_true in Hname.
  rewrite <- Hname. apply list_elem_of_fmap. by exists f0.
Qed.

(** X3.  The validator has four outcomes and no other.  For a name that is
    not a catalog key it raises [KeyError].  For a catalog domain it
    succeeds exactly when the first same-named attribute of every required
    field has the declared type; otherwise it raises for one required field
    of the domain, [MissingRequiredField] when the schema has no attribute of
    that name and [RequiredFieldTypeMismatch] when it has one.  Optional and
    custom attributes never make it fail. *)
Theorem validate_outcomes (s : Schema) (dn : string) :
  match validate_tts_schema_on_domain s dn with
  | Ok v =>
      exists d, DOMAINS_getitem dn = Ok d
        /\ Forall (fun kv => field_satisfied (Attributes s) kv = true) (required_fields (tts d))
  | Err (MissingRequiredField fname dn') =>
      dn' = dn /\ matching_fields (Attributes s) fname = []
      /\ exists d spec, DOMAINS_getitem dn = Ok d /\ (fname, spec) ∈ required_fields (tts d)
  | Err (RequiredFieldTypeMismatch fname dn') =>
      dn' = dn
      /\ exists d spec f0 more,
           DOMAINS_getitem dn = Ok d /\ (fname, spec) ∈ required_fields (tts d)
           /\ matching_fields (Attributes s) fname = f0 :: more
           /\ AttributeType f0 <> SchemaAttribute.AttributeType spec
  | Err PyKeyError => dn ∉ dict_keys DOMAINS
  | Err _ => False
  end.
Proof.
  unfold validate_tts_schema_on_domain.
  destruct (DOMAINS_getitem dn) as [d|e] eqn:Hd;
    [|by apply DOMAINS_getitem_Err in Hd as [-> ?]].
  simpl.
  - destruct (check_required_fields dn (required_fields (tts d)) (Attributes s))
      as [[]|e] eqn:Hreq; simpl.
    + destruct (scan_optional_fields _ _). exists d. split; [done|].
      by apply (check_required_fields_Ok dn).
    + apply check_required_fields_Err in Hreq
        as (pre & fname & spec & post & Heq & _ & [[Hm ->]|(f0 & more & Hm & Hty & ->)]).
      * split; [done|]. split; [done|]. exists d, spec. split; [done|].
        rewrite Heq. apply elem_of_app. right. left.
      * split; [done|]. exists d, spec, f0, more. split; [done|]. split; [|done].
        rewrite Heq. apply elem_of_app. right. left.
Qed.

Lemma scan_optional_fields_used_iff (attrs : list SchemaEntry) optional fname :
  fname ∈ (scan_optional_fields optional attrs).1
  <-> exists spec f, (fname, spec) ∈ optional /\ first_named attrs fname = Some f
                     /\ AttributeType f = SchemaAttribute.AttributeType spec.
Proof.
  split; [apply scan_optional_fields_used|].
  intros (spec & f & Hin & Hfind & Hty). induction optional as [|[k spec0] rest IH]; simpl.
  - by apply elem_of_nil in Hin.
  - destruct (scan_optional_fields rest attrs) as [used warned] eqn:Hrest. simpl in IH.
    apply elem_of_cons in Hin as [Heq|Hin].
    + injection Heq as <- <-. unfold first_named in Hfind. rewrite Hfind.
      rewrite bool_decide_eq_true_2 by done. left.
    + specialize (IH Hin). destruct (List.find _ attrs) as [mf|]; [|done].
      case_bool_decide; simpl; [by right | done].
Qed.

Lemma List_filter_sublist {A} (p : A -> bool) (l : list A) : List.filter p l `sublist_of` l.
Proof.
  induction l as [|a l IH]; simpl; [constructor|].
  destruct (p a); by constructor.
Qed.

Lemma scan_optional_fields_sublist (attrs : list SchemaEntry) optional :
  (scan_optional_fields optional attrs).1 `sublist_of` dict_keys optional.
Proof.
  unfold dict_keys. induction optional as [|[k spec] rest IH]; simpl; [constructor|].
  destruct (scan_optional_fields rest attrs) as [used warned]. simpl in IH.
  destruct (List.find _ attrs); [|by constructor].
  case_bool_decide; simpl; by constructor.
Qed.

(** X4.  What a successful validation returns.  The required names are the
    template's, in its order.  The optional fields used are those optional
    fields of the template whose first same-named attribute has the declared
    type, in the template's order.  The custom names are the schema's
    attribute names that are neither required nor a used optional field, in
    column order; so every attribute name of the schema falls in exactly one
    of the two groups, and every required name occurs in the schema. *)
Theorem validate_classification (s : Schema) (dn : string) (v : Validation) :
  validate_tts_schema_on_domain s dn = Ok v ->
  exists d, DOMAINS_getitem dn = Ok d
    /\ required_fnames v = dict_keys (required_fields (tts d))
    /\ optional_fields_used v `sublist_of` dict_keys (optional_fields (tts d))
    /\ (forall fname, fname ∈ optional_fields_used v
          <-> exists spec f, (fname, spec) ∈ optional_fields (tts d)
                /\ first_named (Attributes s) fname = Some f
                /\ AttributeType f = SchemaAttribute.AttributeType spec)
    /\ custom_fnames v `sublist_of` schema_names s
    /\ (forall n, n ∈ schema_names s ->
          (n ∈ custom_fnames v
           <-> n ∉ LStr <$> (optional_fields_used v ++ required_fnames v)))
    /\ (forall fname, fname ∈ required_fnames v -> LStr fname ∈ schema_names s)
    /\ (forall fname, fname ∈ optional_fields_used v -> LStr fname ∈ schema_names s).
Proof.
  intros Hv. destruct (validate_Ok_inv s dn v Hv) as (d & Hd & Hsat & Hreq & Hopt & Hcustom).
  exists d. split; [done|]. split; [done|].
  pose proof (scan_optional_fields_used_iff (Attributes s) (optional_fields (tts d))) as Hused.
  rewrite <- Hopt in Hused.
  split; [rewrite Hopt; apply scan_optional_fields_sublist|]. split; [exact Hused|].
  split; [rewrite Hcustom; apply List_filter_sublist|].
  split; [|split].
  - intros n Hn. rewrite Hcustom at 1. rewrite elem_of_List_filter, negb_true_iff,
      bool_decide_eq_false, Hreq. tauto.
  - intros fname Hin. rewrite Hreq in Hin. by apply (satisfied_present _ _ Hsat).
  - intros fname (spec & f & _ & Hfind & _)%Hused.
    apply find_Some_elem_of in Hfind as [Hin Hname]. apply bool_decide_eq_true in Hname.
    rewrite <- Hname. apply list_elem_of_fmap. by exists f.
Qed.

Lemma validate_classification_witness :
  exists v, validate_tts_schema_on_domain retail_location_integer "RETAIL" = Ok v
    /\ required_fnames v = ["item_id"; "timestamp"; "demand"]
    /\ custom_fnames v `sublist_of` schema_names retail_location_integer.
Proof.
  assert (Hok : is_ok (validate_tts_schema_on_domain retail_location_integer "RETAIL") = true)
    by reflexivity.
  destruct (validate_tts_schema_on_domain retail_location_integer "RETAIL") as [v|] eqn:Hv;
    [|discriminate].
  destruct (validate_classification _ _ _ Hv) as (d & Hd & Hreq & _ & _ & Hcustom & _).
  exists v. split; [done|]. split; [|done].
  rewrite Hreq. by injection Hd as <-.
Defined.

(** ** The fields derived from a validated schema *)

Lemma DOMAINS_shape dn d : DOMAINS_getitem dn = Ok d -> template_shape d = true.
Proof.
  intros Hd%DOMAINS_getitem_elem_of.
  assert (Hall : Forall (fun kd => template_shape kd.2 = true) DOMAINS)
    by (repeat constructor).
  by apply (proj1 (Forall_forall _ _) Hall (dn, d)).
Qed.

Lemma DOMAINS_getitem_key dn d : DOMAINS_getitem dn = Ok d -> dn ∈ dict_keys DOMAINS.
Proof.
  intros Hd%DOMAINS_getitem_elem_of. apply list_elem_of_fmap. by exists (dn, d).
Qed.

Lemma find_is_Some {A} (p : A -> bool) (l : list A) x :
  x ∈ l -> p x = true -> exists y, List.find p l = Some y.
Proof.
  intros Hin Hp. destruct (List.find p l) as [y|] eqn:Hfind; [eauto|].
  apply list_elem_of_In in Hin. by rewrite (find_none p l Hfind x Hin) in Hp.
Qed.

#[local] Instance LStr_inj : Inj (=) (=) LStr.
Proof. by intros ?? [= ->]. Qed.

(** Among three different labels, one differs from two given ones. *)
Lemma third_label (k1 k2 k3 a b : label) :
  NoDup [k1; k2; k3] -> exists k, k ∈ [k1; k2; k3] /\ k <> a /\ k <> b.
Proof.
  intros Hnd.
  apply NoDup_cons in Hnd as [H1 Hnd]. apply NoDup_cons in Hnd as [H2 _].
  assert (H12 : k1 <> k2) by (intros ->; apply H1; left).
  assert (H13 : k1 <> k3) by (intros ->; apply H1; right; left).
  assert (H23 : k2 <> k3) by (intros ->; apply H2; left).
  clear H1 H2.
  destruct (decide (k1 = a)), (decide (k1 = b)), (decide (k2 = a)), (decide (k2 = b)),
           (decide (k3 = a)), (decide (k3 = b));
    try congruence;
    first [ by (exists k1; split; [rewrite !elem_of_cons; auto | split; congruence])
          | by (exists k2; split; [rewrite !elem_of_cons; auto | split; congruence])
          | by (exists k3; split; [rewrite !elem_of_cons; auto | split; congruence]) ].
Qed.

(** The fields derived from a validated schema. *)
Lemma derived_fields_of_validated (s : Schema) (dn : string) (v : Validation) :
  validate_tts_schema_on_domain s dn = Ok v ->
  exists d f,
    DOMAINS_getitem dn = Ok d
    /\ derive_fields s (Some dn) (required_fnames v) = Ok f
    /\ the_target_field f = LStr (target_field d)
    /\ timestamp_field f ∈ LStr <$> required_fnames v
    /\ (exists a, a ∈ Attributes s /\ AttributeName a = timestamp_field f
                  /\ AttributeType a = "timestamp")
    /\ dimension_fields f `sublist_of` schema_names s
    /\ (forall n, n ∈ dimension_fields f
          <-> n ∈ schema_names s /\ n <> timestamp_field f /\ n <> the_target_field f)
    /\ dimension_fields f <> [].
Proof.
  intros Hv. destruct (validate_Ok_inv s dn v Hv) as (d & Hd & Hsat & Hreq & _).
  assert (Hpresent : forall fname, fname ∈ required_fnames v -> LStr fname ∈ schema_names s).
  { intros fname Hin. rewrite Hreq in Hin. by apply (satisfied_present _ _ Hsat). }
  pose proof (DOMAINS_shape dn d Hd) as Hshape. unfold template_shape in Hshape.
  apply andb_true_iff in Hshape as [Hshape _].
  apply andb_true_iff in Hshape as [Hshape _].
  apply andb_true_iff in Hshape as [Hlen%bool_decide_eq_true Hts%bool_decide_eq_true].
  pose proof (DOMAINS_wf dn d Hd) as Hwf. unfold template_wf in Hwf.
  apply andb_true_iff in Hwf as [Hwf _]. apply andb_true_iff in Hwf as [Hwf _].
  apply andb_true_iff in Hwf as [Hnd%bool_decide_eq_true _].
  (* the attribute that satisfies the [timestamp] field *)
  pose proof (proj1 (Forall_forall _ _) Hsat _ Hts) as Hsat_ts.
  unfold field_satisfied in Hsat_ts. simpl in Hsat_ts.
  destruct (matching_fields (Attributes s) "timestamp") as [|f0 more] eqn:Hm; [discriminate|].
  apply bool_decide_eq_true in Hsat_ts.
  assert (Hf0 : f0 ∈ matching_fields (Attributes s) "timestamp") by (rewrite Hm; left).
  apply elem_of_List_filter in Hf0 as [Hf0 Hname]. apply bool_decide_eq_true in Hname.
  set (p := fun f : SchemaEntry =>
              bool_decide (AttributeName f ∈ LStr <$> required_fnames v)
              && bool_decide (AttributeType f = "timestamp")).
  destruct (find_is_Some p (Attributes s) f0 Hf0) as [a Ha].
  { unfold p. apply andb_true_iff. split; apply bool_decide_eq_true; [|done].
    rewrite Hname, Hreq. apply list_elem_of_fmap. exists "timestamp". split; [done|].
    apply list_elem_of_fmap. by exists ("timestamp", SA "timestamp" "timestamp"). }
  apply find_Some_elem_of in Ha as Ha'. destruct Ha' as [Hain Hpa].
  unfold p in Hpa. apply andb_true_iff in Hpa as [Hareq%bool_decide_eq_true Haty%bool_decide_eq_true].
  set (f := {| timestamp_field := AttributeName a;
               the_target_field := LStr (target_field d);
               dimension_fields :=
                 List.filter
                   (fun n => negb (bool_decide (n ∈ [AttributeName a; LStr (target_field d)])))
                   (AttributeName <$> Attributes s) |}).
  assert (Hderive : derive_fields s (Some dn) (required_fnames v) = Ok f).
  { unfold derive_fields, next_name. fold p. rewrite Ha. simpl. rewrite Hd. done. }
  assert (Hdim : forall n, n ∈ dimension_fields f
            <-> n ∈ schema_names s /\ n <> timestamp_field f /\ n <> the_target_field f).
  { intros n. simpl. rewrite elem_of_List_filter, negb_true_iff, bool_decide_eq_false.
    rewrite !not_elem_of_cons. unfold schema_names.
    split; [by intros (? & ? & ? & _) | intros (? & ? & ?)].
    repeat split; try done. apply not_elem_of_nil. }
  exists d, f. split; [done|]. split; [done|].
  split; [done|]. split; [done|]. split; [by exists a|].
  split; [apply List_filter_sublist|]. split; [exact Hdim|].
  (* a third required name is left over *)
  destruct (required_fields (tts d)) as [|[k1 s1] [|[k2 s2] [|[k3 s3] [|? ?]]]] eqn:Hreqd;
    try discriminate.
  unfold dict_keys in Hnd, Hreq. simpl in Hnd, Hreq.
  destruct (third_label (LStr k1) (LStr k2) (LStr k3) (AttributeName a) (LStr (target_field d)))
    as (k & Hk & Hka & Hkt).
  { apply (NoDup_fmap_2 LStr) in Hnd. exact Hnd. }
  assert (Hkin : k ∈ dimension_fields f).
  { apply Hdim. split; [|done].
    assert (Hk' : exists fname, k = LStr fname /\ fname ∈ required_fnames v).
    { rewrite Hreq.
      apply elem_of_cons in Hk as [->|Hk];
        [|apply elem_of_cons in Hk as [->|Hk]; [|apply list_elem_of_singleton in Hk as ->]];
        eexists; (split; [done|]); rewrite !elem_of_cons; auto. }
    destruct Hk' as (fname & -> & Hfname). by apply Hpresent. }
  intros Hnil. rewrite Hnil in Hkin. by apply elem_of_nil in Hkin.
Qed.


(** X5.  After a schema has passed validation against a domain, deriving
    the timestamp, target and dimension fields cannot fail (neither [next]
    runs dry), so the argument checks of [diagnose] succeed.  The timestamp
    field is the name of an attribute of type [timestamp] that carries a
    required name; the target field is the domain's; the dimension fields
    are all other attribute names in column order, and there is at least
    one. *)
Theorem fields_after_validation (s : Schema) (dn : string) (v : Validation) :
  validate_tts_schema_on_domain s dn = Ok v ->
  exists d f,
    DOMAINS_getitem dn = Ok d
    /\ derive_fields s (Some dn) (required_fnames v) = Ok f
    /\ check_arguments (Some dn) (Some s) = Ok (Some f)
    /\ the_target_field f = LStr (target_field d)
    /\ timestamp_field f ∈ LStr <$> required_fnames v
    /\ (exists a, a ∈ Attributes s /\ AttributeName a = timestamp_field f
                  /\ AttributeType a = "timestamp")
    /\ dimension_fields f `sublist_of` schema_names s
    /\ (forall n, n ∈ dimension_fields f
          <-> n ∈ schema_names s /\ n <> timestamp_field f /\ n <> the_target_field f)
    /\ dimension_fields f <> [].
Proof.
  intros Hv.
  destruct (derived_fields_of_validated s dn v Hv)
    as (d & f & Hd & Hderive & Htarget & Hts & Hattr & Hsub & Hdims & Hne).
  exists d, f. split; [done|]. split; [done|]. split; [|done].
  unfold check_arguments. rewrite bool_decide_eq_true_2 by (by eapply DOMAINS_getitem_key).
  simpl. rewrite Hv. simpl. by rewrite Hderive.
Qed.

Lemma fields_after_validation_witness :
  exists f, check_arguments (Some "RETAIL") (Some retail_location_integer) = Ok (Some f)
    /\ dimension_fields f <> [].
Proof.
  assert (Hok : is_ok (validate_tts_schema_on_domain retail_location_integer "RETAIL") = true)
    by reflexivity.
  destruct (validate_tts_schema_on_domain retail_location_integer "RETAIL") as [v|] eqn:Hv;
    [|discriminate].
  destruct (fields_after_validation _ _ _ Hv) as (d & f & _ & _ & Hargs & _ & _ & _ & _ & _ & Hne).
  by exists f.
Defined.

(** ** The column checks of a file against the schema *)

Section header_check.
Variable file : string.
Variable attrs : list SchemaEntry.

Lemma header_loop hs n u :
  match foldlM (header_step file attrs) u (zip (seq n (length hs)) hs) with
  | Ok _ => LStr <$> hs = AttributeName <$> take (length hs) (drop n attrs)
  | Err (SchemaColumnMismatch f i) =>
      f = file /\ n <= i < n + length hs
      /\ take (i - n) (LStr <$> hs) = AttributeName <$> take (i - n) (drop n attrs)
      /\ exists h a, hs !! (i - n) = Some h /\ attrs !! i = Some a /\ LStr h <> AttributeName a
  | Err PyIndexError => length attrs < n + length hs
  | Err _ => False
  end.
Proof.
  revert n u. induction hs as [|h hs IH]; intros n u; [done|].
  cbn [length seq zip zip_with]. rewrite foldlM_cons. unfold header_step at 2. cbv beta iota.
  destruct (attrs !! n) as [a|] eqn:Ha; [|apply lookup_ge_None in Ha; cbn; lia].
  case_bool_decide as Hne.
  - cbn [mbind result_bind]. split; [done|]. split; [lia|]. rewrite Nat.sub_diag.
    split; [done|]. exists h, a. done.
  - cbn [mbind result_bind].
    assert (Heq : LStr h = AttributeName a)
      by (destruct (decide (LStr h = AttributeName a)); [done | by destruct Hne]).
    specialize (IH (S n) tt).
    assert (Hdrop : drop n attrs = a :: drop (S n) attrs) by (by apply drop_S).
    destruct (foldlM (header_step file attrs) tt (zip (seq (S n) (length hs)) hs)) as [[]|e].
    + rewrite Hdrop, fmap_cons. cbn [take]. by rewrite fmap_cons, Heq, IH.
    + destruct e; try done.
      * destruct IH as (-> & Hi & Htake & Hex). split; [done|]. split; [lia|].
        replace (ixcol - n) with (S (ixcol - S n)) by lia.
        rewrite Hdrop, fmap_cons. cbn [take]. rewrite fmap_cons, Heq, Htake.
        split; [done|]. destruct Hex as (h' & a' & ? & ? & ?). exists h', a'. done.
      * simpl. lia.
Qed.

End header_check.

(** Every outcome of the column checks, for a header as long as the column
    count. *)
Lemma check_file_against_schema_cases
    (file : string) (s : Schema) (header_columns : option (list string)) (ncols : nat) :
  (forall hs, header_columns = Some hs -> length hs = ncols) ->
  match check_file_against_schema file (Some s) header_columns ncols with
  | Ok _ =>
      length (Attributes s) = ncols
      /\ forall hs, header_columns = Some hs -> LStr <$> hs = schema_names s
  | Err (SchemaColumnCount f expected found) =>
      f = file /\ expected = length (Attributes s) /\ found = ncols /\ expected <> found
  | Err (SchemaColumnMismatch f i) =>
      f = file /\ length (Attributes s) = ncols
      /\ exists hs h a,
           header_columns = Some hs /\ hs !! i = Some h /\ Attributes s !! i = Some a
           /\ LStr h <> AttributeName a
           /\ take i (LStr <$> hs) = take i (schema_names s)
  | Err _ => False
  end.
Proof.
  intros Hlen. unfold check_file_against_schema.
  case_bool_decide as Hcount; [done|].
  assert (Hn : length (Attributes s) = ncols)
    by (destruct (decide (length (Attributes s) = ncols)); [done | by destruct Hcount]).
  destruct header_columns as [hs|]; [|by split].
  specialize (Hlen hs eq_refl). rewrite imap_pair_zip.
  pose proof (header_loop file (Attributes s) hs 0 tt) as Hloop.
  unfold header_step in Hloop.
  destruct (foldlM _ tt (zip (seq 0 (length hs)) hs)) as [[]|e].
  - split; [done|]. intros ? [= <-]. rewrite Hloop. unfold schema_names.
    rewrite drop_0, take_ge by lia. done.
  - destruct e; try done.
    + destruct Hloop as (-> & Hi & Htake & h & a & Hh & Ha & Hne). rewrite Nat.sub_0_r in *.
      split; [done|]. split; [done|]. exists hs, h, a. repeat split; try done.
      rewrite Htake, drop_0. unfold schema_names. by rewrite fmap_take.
    + lia.
Qed.

(** X6.  The column checks a file gets once a schema exists, given the
    header and column count the sniffer found.  They pass exactly when the
    schema has as many attributes as the file has columns and, if the file
    has a header, its cells are the schema's attribute names in order.
    A different column count is reported first, as [SchemaColumnCount]; a
    header that differs is reported as [SchemaColumnMismatch] for the first
    column whose cell is not the schema's name.  No other exception leaves
    the checks, and without a schema nothing is checked. *)
Theorem check_file_against_schema_outcome
    (file : string) (s : Schema) (header_columns : option (list string)) (ncols : nat) :
  (forall hs, header_columns = Some hs -> length hs = ncols) ->
  check_file_against_schema file None header_columns ncols = Ok tt
  /\ (check_file_against_schema file (Some s) header_columns ncols = Ok tt
      <-> length (Attributes s) = ncols
          /\ forall hs, header_columns = Some hs -> LStr <$> hs = schema_names s)
  /\ (length (Attributes s) <> ncols
      <-> check_file_against_schema file (Some s) header_columns ncols
          = Err (SchemaColumnCount file (length (Attributes s)) ncols))
  /\ (forall e, check_file_against_schema file (Some s) header_columns ncols = Err e ->
        e = SchemaColumnCount file (length (Attributes s)) ncols
        \/ exists i hs h a,
             e = SchemaColumnMismatch file i
             /\ header_columns = Some hs /\ hs !! i = Some h /\ Attributes s !! i = Some a
             /\ LStr h <> AttributeName a
             /\ take i (LStr <$> hs) = take i (schema_names s)).
Proof.
  intros Hlen. pose proof (check_file_against_schema_cases file s header_columns ncols Hlen)
    as Hcases.
  split; [done|].
  destruct (check_file_against_schema file (Some s) header_columns ncols) as [[]|e] eqn:Hc.
  - split; [done|]. split; [|done]. split; [|done]. by destruct Hcases as [? _].
  - split; [|split].
    + split; [done|]. intros [Hn Hnames]. exfalso. destruct e; try done.
      * destruct Hcases as (_ & -> & -> & ?). done.
      * destruct Hcases as (_ & _ & hs & h & a & Hhs & Hh & Ha & Hne & _).
        specialize (Hnames hs Hhs). apply Hne.
        assert (Hl : (LStr <$> hs) !! ixcol = Some (LStr h)) by (by rewrite list_lookup_fmap, Hh).
        rewrite Hnames in Hl. unfold schema_names in Hl. rewrite list_lookup_fmap, Ha in Hl.
        by injection Hl.
    + split.
      * intros Hne. unfold check_file_against_schema in Hc.
        rewrite bool_decide_eq_true_2 in Hc by done. by injection Hc as <-.
      * intros [= ->]. by destruct Hcases as (_ & _ & _ & ?).
    + intros e' [= <-]. destruct e; try done.
      * destruct Hcases as (-> & -> & -> & _). by left.
      * destruct Hcases as (-> & _ & hs & h & a & ? & ? & ? & ? & ?). right.
        exists ixcol, hs, h, a. done.
Qed.

Lemma check_file_against_schema_outcome_witness :
  check_file_against_schema "data/a.csv" (Some retail_schema)
    (Some ["item_id"; "timestamp"; "demand"]) 3 = Ok tt
  <-> length (Attributes retail_schema) = 3
      /\ forall hs, Some ["item_id"; "timestamp"; "demand"] = Some hs ->
           LStr <$> hs = schema_names retail_schema.
Proof.
  pose proof (check_file_against_schema_outcome "data/a.csv" retail_schema
                (Some ["item_id"; "timestamp"; "demand"]) 3) as H.
  destruct H as (_ & H & _).
  - by intros ? [= <-].
  - exact H.
Defined.

(** X7.  A file whose first row the sniffer takes for a header never passes
    the column checks of a schema that has been validated against a catalog
    domain: the cells of such a row are all type keywords, and every domain
    requires a field whose name is not one.  With a validated schema in
    hand, such a file ends the run with a column error. *)
Theorem header_row_fails_validated_schema
    (file dn : string) (s : Schema) (v : Validation)
    (row1 hs : list string) (ncols : nat) :
  validate_tts_schema_on_domain s dn = Ok v ->
  sniff_csv_file (Some row1) = Ok (Some hs, ncols) ->
  exists e,
    check_file_against_schema file (Some s) (Some hs) ncols = Err e
    /\ ((exists expected, e = SchemaColumnCount file expected ncols)
        \/ (exists i, e = SchemaColumnMismatch file i)).
Proof.
  intros Hv Hsniff. unfold sniff_csv_file in Hsniff.
  destruct (forallb SchemaAttribute.is_valid_type row1) eqn:Hall; simpl in Hsniff;
    [|discriminate].
  injection Hsniff as <- <-.
  pose proof (proj1 (forallb_is_valid_type _) Hall) as Hkw.
  destruct (validate_Ok_inv s dn v Hv) as (d & Hd & Hsat & Hreq & _).
  pose proof (DOMAINS_shape dn d Hd) as Hshape. unfold template_shape in Hshape.
  apply andb_true_iff in Hshape as [_ Hex%bool_decide_eq_true].
  apply Exists_exists in Hex as (k & Hk & Hnot).
  pose proof (check_file_against_schema_cases file s (Some row1) (length row1)) as Hout.
  destruct (check_file_against_schema file (Some s) (Some row1) (length row1)) as [[]|e].
  - destruct Hout as [_ Hnames]; [by intros ? [= <-]|]. specialize (Hnames row1 eq_refl).
    assert (Hin : LStr k ∈ schema_names s) by (by apply (satisfied_present _ _ Hsat)).
    rewrite <- Hnames in Hin. apply list_elem_of_fmap in Hin as (k' & [= <-] & Hin).
    destruct Hnot. by apply Hkw.
  - exists e. split; [done|]. specialize (Hout ltac:(by intros ? [= <-])).
    destruct e; try done.
    + destruct Hout as (-> & -> & -> & _). left. eauto.
    + destruct Hout as (-> & _). right. eauto.
Qed.

Lemma header_row_fails_validated_schema_witness :
  exists e,
    check_file_against_schema "data/a.csv" (Some retail_schema)
      (Some ["string"; "timestamp"; "float"]) 3 = Err e.
Proof.
  assert (Hok : is_ok (validate_tts_schema_on_domain retail_schema "RETAIL") = true)
    by reflexivity.
  destruct (validate_tts_schema_on_domain retail_schema "RETAIL") as [v|] eqn:Hv;
    [|discriminate].
  destruct (header_row_fails_validated_schema "data/a.csv" "RETAIL" retail_schema v
              ["string"; "timestamp"; "float"] ["string"; "timestamp"; "float"] 3 Hv eq_refl)
    as (e & He & _).
  by exists e.
Defined.

(** ** The file loop: what is carried from file to file *)

Lemma chunk_step_unbound file domain header_columns l chunk :
  is_Some (tts_schema l) -> fields l = None ->
  chunk_step file domain header_columns l chunk = Err PyUnboundLocalError.
Proof. intros [s Hs] Hf. unfold chunk_step. by rewrite Hs, Hf. Qed.

(** With a schema but no derived fields, the loop gets through no chunk. *)
Lemma chunk_loop_unbound file domain header_columns l items l' :
  is_Some (tts_schema l) -> fields l = None ->
  chunk_loop file domain header_columns l items = Ok l' -> items = [] /\ l' = l.
Proof.
  intros Hs Hf. destruct items as [|[chunk|e] items]; simpl.
  - by intros [= <-].
  - by rewrite chunk_step_unbound.
  - discriminate.
Qed.

(** X8.  Once a schema exists, no file changes it: processing a file with a
    schema in hand hands the same schema and the same derived fields on to
    the next file, reads the file with the schema's names, ignores whatever
    the file's own first chunk looks like, and applies no renames. *)
Theorem schema_is_frozen
    (w : World) (domain : option string) (s : Schema) (flds : option Fields)
    (file : string) (carried : option Schema * option Fields) (r : Report) :
  process_file w domain (Some s, flds) file = Ok (carried, r) ->
  carried = (Some s, flds)
  /\ exists f header_is_none dtype chunks,
       flds = Some f
       /\ pd_read_csv w file header_is_none (Some (schema_names s)) dtype = Ok <$> chunks
       /\ aggregate (timestamp_field f) (dimension_fields f) initial_stats chunks
          = Ok (shown r).
Proof.
  unfold process_file. intros Hp.
  apply bind_Ok in Hp as ([header_columns ncols] & _ & Hp).
  apply bind_Ok in Hp as (_ & _ & Hp). apply bind_Ok in Hp as (l & Hloop & Hp).
  apply bind_Ok in Hp as (r' & Hr & Hp). injection Hp as <- ->.
  rewrite (bool_decide_eq_true_2 (is_Some (Some s))) in Hloop by eauto. simpl in Hloop.
  unfold report in Hr. destruct (unique_dimension_combos (stats l)) eqn:Hcombos; [|discriminate].
  injection Hr as <-. simpl.
  destruct flds as [f|].
  - apply chunk_loop_resolved in Hloop as (chunks & Hitems & Hs & Hf & Hrn & Hnil & Hagg);
      [|simpl; eauto].
    simpl in *. rewrite Hs, Hf. split; [done|].
    exists f. do 2 eexists. exists chunks. split; [done|]. split; [exact Hitems|].
    specialize (Hagg f eq_refl). rewrite <- Hagg. f_equal.
    clear. induction chunks as [|c cs IH]; [done|]. by rewrite fmap_cons, <- IH.
  - apply chunk_loop_unbound in Hloop as [_ ->]; [|simpl; eauto|done].
    simpl in Hcombos. discriminate.
Qed.

Lemma schema_is_frozen_witness :
  exists carried r,
    process_file two_files (Some "RETAIL") (Some retail_schema, Some retail_fields) "data/a.csv"
    = Ok (carried, r)
    /\ carried = (Some retail_schema, Some retail_fields).
Proof.
  assert (Hok : is_ok (process_file two_files (Some "RETAIL")
                         (Some retail_schema, Some retail_fields) "data/a.csv") = true)
    by (vm_compute; reflexivity).
  destruct (process_file two_files (Some "RETAIL")
              (Some retail_schema, Some retail_fields) "data/a.csv") as [[carried r]|] eqn:Hp;
    [|discriminate].
  exists carried, r. split; [done|].
  exact (proj1 (schema_is_frozen _ _ _ _ _ _ _ Hp)).
Defined.

(** ** Running without a domain *)

(** Inference cannot succeed without a domain: a headerless chunk is
    refused, and with a header the validator is called with [None]. *)
Lemma infer_schema_without_domain file header_columns rn chunk :
  exists e, infer_schema file None header_columns rn chunk = Err e
    /\ (Forall (fun c => is_Some (schematype_of c.2)) (columns chunk) ->
        e = match header_columns with
            | None => SchemaIndeterminate
            | Some _ => PyKeyError
            end).
Proof.
  unfold infer_schema. rewrite imap_pair_zip.
  destruct (foldlM (infer_column file) ([], []) _) as [[counts attrs]|e] eqn:Hcols.
  - destruct header_columns; simpl; eauto.
  - exists e. split; [done|]. intros Hall.
    destruct (infer_columns_Ok file (columns chunk) (seq 0 (length (columns chunk))) [] [])
      as (? & ? & Hok & _); [by rewrite length_seq | done |]. congruence.
Qed.

Lemma process_file_without_domain w sch file :
  exists e, process_file w None (sch, None) file = Err e.
Proof.
  destruct (process_file w None (sch, None) file) as [[carried r]|e] eqn:Hp; [|eauto].
  exfalso. unfold process_file in Hp.
  apply bind_Ok in Hp as ([header_columns ncols] & _ & Hp).
  apply bind_Ok in Hp as (_ & _ & Hp). apply bind_Ok in Hp as (l & Hloop & Hp).
  apply bind_Ok in Hp as (r' & Hr & _).
  unfold report in Hr. destruct (unique_dimension_combos (stats l)) eqn:Hcombos; [|discriminate].
  destruct sch as [s|].
  - apply chunk_loop_unbound in Hloop as [_ ->]; [|simpl; eauto|done]. discriminate.
  - destruct (pd_read_csv w file _ _ _) as [|[chunk|e] items]; simpl in Hloop.
    + injection Hloop as <-. discriminate.
    + unfold chunk_step in Hloop. simpl in Hloop.
      destruct (infer_schema_without_domain file header_columns
                  (if is_nonempty header_columns then None else Some ∅) chunk) as (e & He & _).
      rewrite He in Hloop. discriminate.
    + discriminate.
Qed.

(** X9.  Without a domain no report is ever printed, whatever the files
    hold and whether or not a schema is given: the run ends without output
    for an empty directory and fails at the first file otherwise.  (With a
    schema the chunk loop reads fields that were never assigned; without one
    the inferred schema is validated against the domain [None].) *)
Theorem diagnose_without_domain (w : World) (tts_path : string) (sch : option Schema) :
  reports_of (diagnose w tts_path None sch) = []
  /\ (diagnose w tts_path None sch = Finished [] <-> resolve_inputs w tts_path = Ok [])
  /\ (forall file rest, resolve_inputs w tts_path = Ok (file :: rest) ->
        exists e, diagnose w tts_path None sch = Failed [] e).
Proof.
  unfold diagnose. cbn [check_arguments].
  destruct (resolve_inputs w tts_path) as [[|file rest]|e]; cbn [run_files].
  - split; [done|]. split; [done|]. discriminate.
  - destruct (process_file_without_domain w sch file) as (e & ->).
    split; [done|]. split; [split; discriminate|]. eauto.
  - split; [done|]. split; [split; discriminate|]. discriminate.
Qed.

(** X19.  Where the schema comes from when none is given.  A file processed
    without a schema yields at least one chunk; the schema and the fields
    are inferred from its first chunk alone, whatever fields were carried
    in; they are what is handed to the next file; and the file's report is
    the statistics, from empty tracking variables, of all its chunks with
    the renames of that one inference applied to each. *)
Theorem schema_from_first_chunk
    (w : World) (domain : option string) (flds0 : option Fields) (file : string)
    (carried : option Schema * option Fields) (r : Report) :
  process_file w domain (None, flds0) file = Ok (carried, r) ->
  exists header_columns ncols chunk chunks s f rn,
    sniff_csv_file (csv_first_row w file) = Ok (header_columns, ncols)
    /\ pd_read_csv w file (bool_decide (header_columns = None)) None None
       = Ok <$> (chunk :: chunks)
    /\ infer_schema file domain header_columns
         (if is_nonempty header_columns then None else Some ∅) chunk = Ok (s, f, rn)
    /\ carried = (Some s, Some f)
    /\ aggregate (timestamp_field f) (dimension_fields f) initial_stats
                 (renamed rn <$> (chunk :: chunks)) = Ok (shown r).
Proof.
  unfold process_file. intros Hp.
  apply bind_Ok in Hp as ([header_columns ncols] & Hsniff & Hp).
  apply bind_Ok in Hp as (_ & _ & Hp). apply bind_Ok in Hp as (l & Hloop & Hp).
  apply bind_Ok in Hp as (r' & Hr & Hp). injection Hp as <- ->.
  unfold report in Hr. destruct (unique_dimension_combos (stats l)) eqn:Hcombos; [|discriminate].
  injection Hr as <-. cbn [shown fmap option_fmap option_map] in *.
  rewrite (bool_decide_eq_false_2 (is_Some None)) in Hloop by (by intros [? ?]).
  cbn [orb] in Hloop.
  destruct (pd_read_csv w file _ None None) as [|[chunk|e] items] eqn:Hread;
    cbn [chunk_loop] in Hloop; [|..|discriminate].
  { injection Hloop as <-. discriminate. }
  apply bind_Ok in Hloop as (l1 & Hstep & Hloop).
  unfold chunk_step in Hstep. cbn [tts_schema fields renames stats] in Hstep.
  apply bind_Ok in Hstep as ([[s flds] rn] & Hinfer & Hstep).
  apply bind_Ok in Hinfer as ([[s' f] rn'] & Hinfer & Heq). injection Heq as -> <- ->.
  cbn [mbind result_bind] in Hstep. apply bind_Ok in Hstep as (st1 & Hst1 & Hstep).
  injection Hstep as <-.
  apply chunk_loop_resolved in Hloop as (chunks & -> & Hs & Hf & Hrn & _ & Hagg);
    [|simpl; eauto].
  cbn [tts_schema fields renames stats] in *. specialize (Hagg f eq_refl).
  exists header_columns, ncols, chunk, chunks, s, f, rn.
  split; [done|]. split; [done|]. split; [done|]. split; [by rewrite Hs, Hf|].
  rewrite fmap_cons. unfold aggregate. rewrite foldlM_cons.
  fold (renamed rn chunk) in Hst1. rewrite Hst1. exact Hagg.
Qed.

Lemma schema_from_first_chunk_witness :
  exists carried r,
    process_file two_files (Some "RETAIL") (None, None) "data/a.csv" = Ok (carried, r)
    /\ exists s f, carried = (Some s, Some f).
Proof.
  assert (Hok : is_ok (process_file two_files (Some "RETAIL") (None, None) "data/a.csv")
                = true) by (vm_compute; reflexivity).
  destruct (process_file two_files (Some "RETAIL") (None, None) "data/a.csv")
    as [[carried r]|] eqn:Hp; [|discriminate].
  exists carried, r. split; [done|].
  destruct (schema_from_first_chunk _ _ _ _ _ _ Hp)
    as (_ & _ & _ & _ & s & f & _ & _ & _ & _ & Hc & _).
  by exists s, f.
Defined.

(** ** Resolving the input path *)

Lemma List_filter_Permutation {A} (p : A -> bool) (l l' : list A) :
  l ≡ₚ l' -> List.filter p l ≡ₚ List.filter p l'.
Proof.
  induction 1 as [|x l l' _ IH|x y l|l l' l'' _ IH1 _ IH2]; simpl.
  - done.
  - destruct (p x); [by constructor | done].
  - destruct (p x), (p y); try done. apply perm_swap.
  - by etrans.
Qed.

Lemma List_filter_all {A} (p : A -> bool) (l : list A) :
  length (List.filter p l) = length l -> List.filter p l = l.
Proof.
  induction l as [|a l IH]; simpl; [done|]. destruct (p a) eqn:Hp; simpl.
  - intros [= Hlen]. by rewrite IH.
  - pose proof (List_filter_length_le p l). lia.
Qed.

Lemma sorted_Permutation l : sorted l ≡ₚ l.
Proof. apply (merge_sort_Permutation (fun a b => Is_true (String.leb a b))). Qed.

Lemma sorted_Sorted l : Sorted String.le (sorted l).
Proof. apply (Sorted_merge_sort String.le). Qed.

(** X10.  What the input path resolves to.  A directory wins over a file;
    its listing comes back in ascending order of the path names.  If at
    least one file below it has a name ending in [.csv] (in any letter
    case), the result is exactly those files, each as often as the walk
    lists it; if none has, the result is every file of the walk.  A path
    that is a file and no directory gives that one path, and any other path
    is refused with [InvalidPath]. *)
Theorem resolve_inputs_outcome (w : World) (tts_path : string) :
  match resolve_inputs w tts_path with
  | Ok files =>
      (os_path_isdir w tts_path = true
       /\ Sorted String.le files
       /\ ((exists f, f ∈ os_walk w tts_path /\ is_csv f = true) ->
           files ≡ₚ List.filter is_csv (os_walk w tts_path))
       /\ ((forall f, f ∈ os_walk w tts_path -> is_csv f = false) ->
           files ≡ₚ os_walk w tts_path))
      \/ (os_path_isdir w tts_path = false /\ os_path_isfile w tts_path = true
          /\ files = [tts_path])
  | Err e =>
      e = InvalidPath tts_path
      /\ os_path_isdir w tts_path = false /\ os_path_isfile w tts_path = false
  end.
Proof.
  unfold resolve_inputs. destruct (os_path_isdir w tts_path).
  - set (raw := sorted (os_walk w tts_path)).
    set (filtered := sorted (List.filter is_csv raw)).
    assert (Hraw : raw ≡ₚ os_walk w tts_path) by apply sorted_Permutation.
    assert (Hfiltered : filtered ≡ₚ List.filter is_csv (os_walk w tts_path)).
    { unfold filtered. rewrite sorted_Permutation. by apply List_filter_Permutation. }
    destruct (bool_decide (0 < length filtered) && bool_decide (length filtered < length raw))
      eqn:Hcond.
    + left. split; [done|]. split; [apply sorted_Sorted|]. split; [done|].
      intros Hnone. apply andb_true_iff in Hcond as [Hpos%bool_decide_eq_true _].
      rewrite Hfiltered, List_filter_none in Hpos by done. simpl in Hpos. lia.
    + left. split; [done|]. split; [apply sorted_Sorted|]. split; [|done].
      intros (f & Hf & Hcsv). rewrite Hraw.
      assert (Hpos : 0 < length filtered).
      { rewrite Hfiltered.
        assert (Hin : f ∈ List.filter is_csv (os_walk w tts_path))
          by (by apply elem_of_List_filter).
        destruct (List.filter is_csv (os_walk w tts_path)); [by apply elem_of_nil in Hin|].
        simpl. lia. }
      apply andb_false_iff in Hcond as [Hc|Hc]; apply bool_decide_eq_false in Hc; [lia|].
      pose proof (List_filter_length_le is_csv (os_walk w tts_path)) as Hle.
      rewrite Hfiltered, Hraw in Hc.
      rewrite (List_filter_all is_csv (os_walk w tts_path)) by lia. done.
  - destruct (os_path_isfile w tts_path); [right|]; done.
Qed.

(** ** Schema inference on the first chunk *)

Section column_loop_results.
Variable file : string.

Lemma infer_columns_attrs cols ixs counts0 attrs0 counts attrs :
  length ixs = length cols ->
  foldlM (infer_column file) (counts0, attrs0) (zip ixs cols) = Ok (counts, attrs) ->
  Forall (fun c => is_Some (schematype_of c.2)) cols
  /\ attrs = attrs0 ++ omap detected_attribute cols
  /\ AttributeName <$> omap detected_attribute cols = cols.*1.
Proof.
  revert ixs counts0 attrs0 counts attrs. induction cols as [|[name dt] cols IH];
    intros ixs counts0 attrs0 counts attrs Hlen Hfold.
  - destruct ixs; [|done]. injection Hfold as <- <-. by rewrite app_nil_r.
  - destruct ixs as [|ix ixs]; [done|]. cbn [zip zip_with] in Hfold.
    rewrite foldlM_cons in Hfold. apply bind_Ok in Hfold as ([counts1 attrs1] & Hstep & Hfold).
    unfold infer_column in Hstep. destruct (schematype_of dt) as [t|] eqn:Ht; [|discriminate].
    injection Hstep as <- <-.
    apply IH in Hfold as (Hall & -> & Hnames); [|by injection Hlen].
    assert (Hhd : omap detected_attribute ((name, dt) :: cols)
                  = {| AttributeName := name; AttributeType := t |}
                    :: omap detected_attribute cols).
    { cbn [omap list_omap]. unfold detected_attribute at 1. cbn [fst snd]. by rewrite Ht. }
    split; [constructor; [simpl; eauto | done]|].
    rewrite Hhd. split; [by rewrite <- app_assoc|]. by rewrite fmap_cons, Hnames.
Qed.

Lemma infer_columns_unsupported pre name dt post n counts0 attrs0 :
  schematype_of dt = None ->
  Forall (fun c => is_Some (schematype_of c.2)) pre ->
  foldlM (infer_column file) (counts0, attrs0)
         (zip (seq n (length (pre ++ (name, dt) :: post))) (pre ++ (name, dt) :: post))
  = Err (UnsupportedPhysicalType file (n + length pre)).
Proof.
  intros Hdt. revert n counts0 attrs0.
  induction pre as [|[name' dt'] pre IH]; intros n counts0 attrs0 Hall.
  - cbn [app length seq zip zip_with]. rewrite foldlM_cons. unfold infer_column at 2.
    rewrite Hdt. cbn. by rewrite Nat.add_0_r.
  - apply Forall_cons in Hall as [[t Ht] Hall]. simpl in Ht.
    cbn [app length seq zip zip_with]. rewrite foldlM_cons. unfold infer_column at 2.
    rewrite Ht. cbn [mbind result_bind]. rewrite IH by done. f_equal. f_equal. lia.
Qed.

End column_loop_results.

(** X11.  Which error inference raises first.  A column whose dtype is none
    of integer, float and string ends it with [UnsupportedPhysicalType] at
    the position of the first such column, before the domain, the header or
    the other columns matter.  With every column supported and no domain,
    a headerless file ends it with [SchemaIndeterminate], and a file with a
    header with the [KeyError] of looking up the domain [None]. *)
Theorem infer_schema_first_error
    (file : string) (header_columns : option (list string))
    (rn : option (gmap label string)) (tts_chunk : DataFrame) :
  (forall domain pre name dt post,
      columns tts_chunk = pre ++ (name, dt) :: post ->
      schematype_of dt = None ->
      Forall (fun c => is_Some (schematype_of c.2)) pre ->
      infer_schema file domain header_columns rn tts_chunk
      = Err (UnsupportedPhysicalType file (length pre)))
  /\ (Forall (fun c => is_Some (schematype_of c.2)) (columns tts_chunk) ->
      infer_schema file None header_columns rn tts_chunk
      = Err (match header_columns with
             | None => SchemaIndeterminate
             | Some _ => PyKeyError
             end)).
Proof.
  split.
  - intros domain pre name dt post Hcols Hdt Hpre. unfold infer_schema.
    rewrite imap_pair_zip, Hcols, infer_columns_unsupported by done. done.
  - intros Hall.
    destruct (infer_schema_without_domain file header_columns rn tts_chunk) as (e & -> & He).
    by rewrite He.
Qed.

Section name_loop_labels.
Variable d : DomainTemplate.
Variable labels0 : list label.
Variable types : list string.
Hypothesis labels_NoDup : NoDup labels0.

Lemma names_inv_weaken seen t acc :
  names_inv labels0 types seen acc -> names_inv labels0 types (t :: seen) acc.
Proof.
  intros (Hty & Hnm & Hdom). split; [done|]. split; [done|].
  intros k Hk. destruct (Hdom k Hk) as (i & t' & ? & ? & ?). exists i, t'.
  split; [done|]. split; [done|]. by right.
Qed.

Lemma names_inv_rename seen attrs r i a new :
  names_inv labels0 types seen (attrs, r) ->
  attrs !! i = Some a -> AttributeType a ∉ seen ->
  names_inv labels0 types (AttributeType a :: seen)
    (<[i := {| AttributeName := LStr new; AttributeType := AttributeType a |}]> attrs,
     <[AttributeName a := new]> r).
Proof.
  intros (Hty & Hnm & Hdom) Hi Hnot. simpl in *.
  assert (Hti : types !! i = Some (AttributeType a))
    by (by rewrite <- Hty, list_lookup_fmap, Hi).
  assert (Hni : (renamed_label r <$> labels0) !! i = Some (AttributeName a))
    by (by rewrite <- Hnm, list_lookup_fmap, Hi).
  rewrite list_lookup_fmap in Hni.
  destruct (labels0 !! i) as [li|] eqn:Hli; [|discriminate]. simpl in Hni.
  assert (Hfresh : r !! li = None).
  { destruct (r !! li) as [x|] eqn:Hr; [|done]. exfalso.
    destruct (Hdom li) as (j & t' & Hj & Htj & Hseen); [by eauto|].
    rewrite (NoDup_lookup _ _ _ _ labels_NoDup Hli Hj) in Hti. congruence. }
  assert (Hname : AttributeName a = li).
  { unfold renamed_label in Hni. rewrite Hfresh in Hni. by injection Hni. }
  rewrite Hname. split; [|split]; simpl.
  - rewrite list_fmap_insert, Hty. by apply list_insert_id.
  - rewrite list_fmap_insert, Hnm. simpl. apply list_eq. intros j.
    destruct (decide (i = j)) as [<-|Hne].
    + rewrite list_lookup_insert_eq
        by (rewrite length_fmap; by apply lookup_lt_is_Some; eauto).
      rewrite list_lookup_fmap, Hli. simpl. unfold renamed_label.
      by rewrite lookup_insert_eq.
    + rewrite list_lookup_insert_ne by done. rewrite !list_lookup_fmap.
      destruct (labels0 !! j) as [lj|] eqn:Hlj; [|done]. simpl. f_equal.
      unfold renamed_label. rewrite lookup_insert_ne; [done|].
      intros ->. apply Hne. by apply (NoDup_lookup _ _ _ _ labels_NoDup Hli Hlj).
  - intros k Hk. destruct (decide (li = k)) as [<-|Hne].
    + exists i, (AttributeType a). split; [done|]. split; [done|]. left.
    + rewrite lookup_insert_ne in Hk by done.
      destruct (Hdom k Hk) as (j & t' & ? & ? & ?). exists j, t'.
      split; [done|]. split; [done|]. by right.
Qed.

Lemma infer_column_name_inv seen attrs r t count acc' :
  names_inv labels0 types seen (attrs, r) -> t ∉ seen ->
  infer_column_name d (attrs, r) (t, count) = Ok acc' ->
  names_inv labels0 types (t :: seen) acc'.
Proof.
  intros Hinv Hnot Hstep. unfold infer_column_name in Hstep.
  case_bool_decide; [discriminate|].
  destruct (list_find _ attrs) as [[i a]|] eqn:Hfind; [|discriminate].
  apply list_find_Some in Hfind as (Hi & <- & _).
  case_bool_decide; [discriminate|].
  repeat case_bool_decide; simpl in Hstep; injection Hstep as <-;
    first [ by apply names_inv_rename | by apply names_inv_weaken ].
Qed.

Lemma infer_column_names_inv counts seen acc acc' :
  NoDup counts.*1 -> (forall t, t ∈ counts.*1 -> t ∉ seen) ->
  names_inv labels0 types seen acc ->
  foldlM (infer_column_name d) acc counts = Ok acc' ->
  exists seen', names_inv labels0 types seen' acc'.
Proof.
  revert seen acc. induction counts as [|[t n] counts IH]; intros seen acc Hnd Hnot Hinv Hfold.
  - injection Hfold as <-. eauto.
  - rewrite foldlM_cons in Hfold. apply bind_Ok in Hfold as (acc1 & Hstep & Hfold).
    simpl in Hnd. apply NoDup_cons in Hnd as [Ht Hnd]. destruct acc as [attrs r].
    apply (IH (t :: seen) acc1); [done| |by eapply infer_column_name_inv; eauto; apply Hnot; left|done].
    intros t' Hin [->|Hseen]%elem_of_cons; [done|].
    apply (Hnot t'); [by right | done].
Qed.

End name_loop_labels.

Lemma infer_columns_Err file cols ixs acc e :
  foldlM (infer_column file) acc (zip ixs cols) = Err e ->
  exists i, e = UnsupportedPhysicalType file i.
Proof.
  revert ixs acc. induction cols as [|[name dt] cols IH]; intros [|ix ixs] [counts attrs];
    try discriminate.
  cbn [zip zip_with]. rewrite foldlM_cons. unfold infer_column at 2.
  destruct (schematype_of dt); cbn [mbind result_bind]; [apply IH|].
  intros [= <-]. eauto.
Qed.

Lemma rename_labels r df : (columns (rename r df)).*1 = renamed_label r <$> (columns df).*1.
Proof. unfold rename. simpl. rewrite <- !list_fmap_compose. done. Qed.

Lemma renamed_label_empty (ls : list label) : renamed_label ∅ <$> ls = ls.
Proof.
  rewrite <- (list_fmap_id ls) at 2. apply list_fmap_ext. intros _ l _.
  unfold renamed_label. by rewrite lookup_empty.
Qed.

Lemma renamed_labels_unchanged rn df :
  rn = None \/ rn = Some ∅ -> (columns (renamed rn df)).*1 = (columns df).*1.
Proof. intros [->| ->]; cbn [renamed]; [done|]. by rewrite rename_labels, renamed_label_empty. Qed.

Lemma getitem_ok df n : n ∈ (columns df).*1 -> is_ok (getitem df n) = true.
Proof.
  intros ([l dt] & -> & Hin)%list_elem_of_fmap. unfold getitem, column_index.
  destruct (list_find_elem_of (fun c : label * pd_dtype => c.1 = l) (columns df) (l, dt))
    as [[i c] Hfind]; [done..|].
  simpl in *. by rewrite Hfind.
Qed.

Lemma derive_fields_names s domain reqd f :
  derive_fields s domain reqd = Ok f ->
  timestamp_field f ∈ schema_names s
  /\ forall n, n ∈ dimension_fields f -> n ∈ schema_names s.
Proof.
  unfold derive_fields. intros Hf. apply bind_Ok in Hf as (ts & Hts & Hf).
  apply bind_Ok in Hf as (target & _ & Hf). injection Hf as <-. simpl. split.
  - unfold next_name in Hts. destruct (List.find _ _) as [a|] eqn:Hfind; [|discriminate].
    injection Hts as <-. apply find_Some_elem_of in Hfind as [Hin _].
    apply list_elem_of_fmap. by exists a.
  - by intros n [? _]%elem_of_List_filter.
Qed.

(** X12.  Inference on the first chunk of a file that has a header, for a
    given domain.  The schema is read off the chunk alone: one attribute
    per column, in column order, named by the column's label and typed by
    its dtype; no column is renamed.  It succeeds exactly when that schema
    passes the validator for the domain, and then returns the fields
    derived from it.  When it fails, the error is the validator's, unless a
    column has an unsupported dtype. *)
Theorem infer_schema_with_header
    (file dn : string) (hs : list string) (rn : option (gmap label string))
    (tts_chunk : DataFrame) :
  match infer_schema file (Some dn) (Some hs) rn tts_chunk with
  | Ok (s, f, rn') =>
      s = detected_schema tts_chunk /\ rn' = rn
      /\ schema_names s = (columns tts_chunk).*1
      /\ exists v, validate_tts_schema_on_domain s dn = Ok v
           /\ derive_fields s (Some dn) (required_fnames v) = Ok f
  | Err e =>
      (exists i, e = UnsupportedPhysicalType file i)
      \/ (Forall (fun c => is_Some (schematype_of c.2)) (columns tts_chunk)
          /\ validate_tts_schema_on_domain (detected_schema tts_chunk) dn = Err e)
  end.
Proof.
  unfold infer_schema. rewrite imap_pair_zip.
  destruct (foldlM (infer_column file) ([], []) _) as [[counts attrs]|e] eqn:Hcols.
  - apply infer_columns_attrs in Hcols as (Hall & -> & Hnames); [|by rewrite length_seq].
    cbn [mbind result_bind app validate_on]. fold (detected_schema tts_chunk).
    destruct (validate_tts_schema_on_domain (detected_schema tts_chunk) dn) as [v|e] eqn:Hv;
      cbn [mbind result_bind]; [|by right].
    destruct (derived_fields_of_validated _ _ _ Hv) as (d & f & _ & Hf & _).
    rewrite Hf. cbn [mbind result_bind]. split; [done|]. split; [done|]. split; [done|].
    by exists v.
  - left. cbn [mbind result_bind]. by apply infer_columns_Err in Hcols.
Qed.

(** X13.  After a successful inference the schema and the chunk agree on
    the column names: the schema's attribute names are, in order, the labels
    of the chunk once the renames are applied, and its types are the
    detected ones.  So the timestamp field and every dimension field that
    the statistics look up is a column of the renamed chunk.  (The labels of
    the chunk are assumed distinct, as the positions 0, 1, ... of a
    headerless file are, and the renames start out empty.) *)
Theorem inferred_names_are_column_labels
    (file : string) (domain : option string) (header_columns : option (list string))
    (rn : option (gmap label string)) (tts_chunk : DataFrame)
    (s : Schema) (f : Fields) (rn' : option (gmap label string)) :
  infer_schema file domain header_columns rn tts_chunk = Ok (s, f, rn') ->
  rn = None \/ rn = Some ∅ ->
  NoDup (columns tts_chunk).*1 ->
  schema_names s = (columns (renamed rn' tts_chunk)).*1
  /\ AttributeType <$> Attributes s = AttributeType <$> Attributes (detected_schema tts_chunk)
  /\ is_ok (getitem (renamed rn' tts_chunk) (timestamp_field f)) = true
  /\ (forall n, n ∈ dimension_fields f -> is_ok (getitem (renamed rn' tts_chunk) n) = true).
Proof.
  intros Hinfer Hrn Hnd.
  assert (Hmain : schema_names s = (columns (renamed rn' tts_chunk)).*1
            /\ AttributeType <$> Attributes s
               = AttributeType <$> Attributes (detected_schema tts_chunk)
            /\ exists reqd, derive_fields s domain reqd = Ok f).
  { unfold infer_schema in Hinfer. rewrite imap_pair_zip in Hinfer.
    apply bind_Ok in Hinfer as ([counts attrs] & Hcols & Hinfer).
    pose proof Hcols as Hcols'.
    apply infer_columns_attrs in Hcols' as (Hall & -> & Hnames); [|by rewrite length_seq].
    cbn [app] in *.
    apply bind_Ok in Hinfer as ([attrs' rn1] & Hloop & Hinfer).
    apply bind_Ok in Hinfer as (v & _ & Hinfer). apply bind_Ok in Hinfer as (f' & Hf & Hinfer).
    injection Hinfer as <- <- <-. unfold schema_names. cbn [Attributes].
    destruct header_columns as [hs|].
    - injection Hloop as <- <-. rewrite renamed_labels_unchanged by done. eauto.
    - destruct domain as [dn|]; [|discriminate].
      apply bind_Ok in Hloop as (d & _ & Hloop). apply bind_Ok in Hloop as (r0 & Hr0 & Hloop).
      apply bind_Ok in Hloop as ([attrs1 r] & Hfold & Hloop). injection Hloop as <- <-.
      destruct Hrn as [->| ->]; [discriminate|]. injection Hr0 as <-.
      destruct (infer_columns_Ok file (columns tts_chunk) (seq 0 (length (columns tts_chunk)))
                  [] []) as (counts' & attrs'' & Hok & _ & Hkeys & _);
        [by rewrite length_seq | done |].
      rewrite Hcols in Hok. injection Hok as <- <-.
      assert (Hinit : names_inv (columns tts_chunk).*1
                        (AttributeType <$> omap detected_attribute (columns tts_chunk)) []
                        (omap detected_attribute (columns tts_chunk), ∅)).
      { split; [done|]. split; [simpl; by rewrite renamed_label_empty|].
        intros k [x Hx]. simpl in Hx. by rewrite lookup_empty in Hx. }
      destruct (infer_column_names_inv d _ _ Hnd counts [] _ _ (Hkeys (NoDup_nil_2))
                  ltac:(by intros ? _ ?%elem_of_nil) Hinit Hfold) as (seen & Hty & Hnm & _).
      simpl in Hty, Hnm. cbn [renamed]. rewrite rename_labels. eauto. }
  destruct Hmain as (Hnames & Htypes & reqd & Hf).
  apply derive_fields_names in Hf as [Hts Hdims]. rewrite Hnames in Hts, Hdims.
  split; [done|]. split; [done|]. split; [by apply getitem_ok|].
  intros n Hn. by apply getitem_ok, Hdims.
Qed.

Lemma inferred_names_are_column_labels_witness :
  exists s f rn',
    infer_schema "data/a.csv" (Some "RETAIL") None (Some ∅) retail_with_integer
    = Ok (s, f, rn')
    /\ schema_names s = (columns (renamed rn' retail_with_integer)).*1.
Proof.
  assert (Hok : is_ok (infer_schema "data/a.csv" (Some "RETAIL") None (Some ∅)
                         retail_with_integer) = true) by (vm_compute; reflexivity).
  assert (Hnd : NoDup (columns retail_with_integer).*1) by by_decide.
  destruct (infer_schema "data/a.csv" (Some "RETAIL") None (Some ∅) retail_with_integer)
    as [[[s f] rn']|] eqn:Hinfer; [|discriminate].
  exists s, f, rn'. split; [done|].
  exact (proj1 (inferred_names_are_column_labels _ _ _ _ _ _ _ _ Hinfer
                  (or_intror eq_refl) Hnd)).
Defined.

(** ** The statistics of a file *)

Lemma rows_with_nulls_bounds df :
  (0 <= rows_with_nulls df <= Z.of_nat (length (rows df)))%Z
  /\ (rows_with_nulls df <> 0%Z
      <-> exists row, row ∈ rows df /\ row_has_null (length (columns df)) row = true).
Proof.
  unfold rows_with_nulls.
  pose proof (List_filter_length_le (row_has_null (length (columns df))) (rows df)) as Hle.
  split; [lia|]. split.
  - intros Hne. apply List_filter_nonempty. lia.
  - intros (row & Hin & Hnull).
    assert (Hrow : row ∈ List.filter (row_has_null (length (columns df))) (rows df))
      by (by apply elem_of_List_filter).
    destruct (List.filter _ (rows df)); [by apply elem_of_nil in Hrow|]. simpl. lia.
Qed.

Lemma total_rows_nulls chunks :
  (0 <= total_rows_without_nulls chunks <= total_rows chunks)%Z
  /\ (total_rows chunks <> total_rows_without_nulls chunks
      <-> exists chunk row, chunk ∈ chunks /\ row ∈ rows chunk
            /\ row_has_null (length (columns chunk)) row = true).
Proof.
  induction chunks as [|c cs [IHb IHn]]; simpl.
  - split; [lia|]. split; [done|]. by intros (? & ? & ?%elem_of_nil & _).
  - destruct (rows_with_nulls_bounds c) as [Hb Hn]. split; [lia|]. split.
    + intros Hne. destruct (decide (rows_with_nulls c = 0%Z)) as [Hz|Hnz].
      * destruct (proj1 IHn) as (chunk & row & ? & ? & ?); [lia|].
        exists chunk, row. split; [by right | done].
      * destruct (proj1 Hn Hnz) as (row & ? & ?). exists c, row. split; [by left | done].
    + intros (chunk & row & [->|Hin]%elem_of_cons & Hrow & Hnull).
      * assert (rows_with_nulls c <> 0%Z) by (apply Hn; eauto). lia.
      * assert (total_rows cs <> total_rows_without_nulls cs) by (apply IHn; eauto). lia.
Qed.

(** X14.  The record counters of a file.  The count of records without a
    missing value lies between zero and the count of all records, and the
    warning about missing values is raised exactly when some row of some
    chunk has a null in one of its columns (a row shorter than the header
    counts as having one). *)
Theorem missing_values_warning_iff
    (ts : label) (dims : list label) (chunks : list DataFrame) (st : Stats) (r : Report) :
  aggregate ts dims initial_stats chunks = Ok st ->
  report st = Ok r ->
  (0 <= total_records_nonulls (shown r) <= total_records (shown r))%Z
  /\ (total_records (shown r) - total_records_nonulls (shown r)
      = foldr (fun c acc => (rows_with_nulls c + acc)%Z) 0%Z chunks)%Z
  /\ (missing_values_warning r = true
      <-> exists chunk row, chunk ∈ chunks /\ row ∈ rows chunk
            /\ row_has_null (length (columns chunk)) row = true).
Proof.
  intros Hagg Hr. apply aggregate_totals in Hagg as [Htotal Hnonulls]. simpl in *.
  unfold report in Hr. destruct (unique_dimension_combos st); [|discriminate].
  injection Hr as <-. simpl. rewrite Htotal, Hnonulls, !Z.add_0_l.
  destruct (total_rows_nulls chunks) as [Hb Hn]. split; [done|]. split.
  - clear. induction chunks as [|c cs IH]; simpl; lia.
  - rewrite <- Hn, negb_true_iff, bool_decide_eq_false. done.
Qed.

Lemma missing_values_warning_iff_witness :
  exists st r,
    run_chunked 1 missing_item = Ok st /\ report st = Ok r
    /\ (0 <= total_records_nonulls (shown r) <= total_records (shown r))%Z.
Proof.
  assert (Hok : is_ok (run_chunked 1 missing_item ≫= report) = true)
    by (vm_compute; reflexivity).
  destruct (run_chunked 1 missing_item) as [st|] eqn:Hst; [|discriminate].
  simpl in Hok. destruct (report st) as [r|] eqn:Hr; [|discriminate].
  exists st, r. split; [done|]. split; [done|].
  exact (proj1 (missing_values_warning_iff _ _ _ _ _ Hst Hr)).
Defined.

(** ** The labels of the dimension counts *)

Lemma dom_series_iadd `{Countable K} (a b : Series K) : dom (series_iadd a b) = dom a.
Proof.
  apply set_eq. intros k. rewrite !elem_of_dom, series_iadd_lookup.
  destruct (a !! k); split; intros [? ?]; by eauto.
Qed.

Lemma series_iadd_nan `{Countable K} (a b : Series K) k :
  a !! k = Some None -> series_iadd a b !! k = Some None.
Proof. intros Ha. rewrite series_iadd_lookup, Ha. by destruct (b !! k). Qed.

Lemma series_iadd_missing `{Countable K} (a b : Series K) k :
  k ∈ dom a -> b !! k = None -> series_iadd a b !! k = Some None.
Proof. intros [u Ha]%elem_of_dom Hb. by rewrite series_iadd_lookup, Ha, Hb. Qed.

(** Once the combination counts exist, later chunks change neither their
    labels nor a NaN among them, and a label that a later chunk lacks turns
    to NaN. *)
Lemma aggregate_combos_labels ts dims chunks st1 st c1 :
  aggregate ts dims st1 chunks = Ok st ->
  unique_dimension_combos st1 = Some c1 ->
  exists combos,
    unique_dimension_combos st = Some combos
    /\ dom combos = dom c1
    /\ (forall k, c1 !! k = Some None -> combos !! k = Some None)
    /\ forall later c k, later ∈ chunks -> groupby_size later dims = Ok c ->
         k ∈ dom c1 -> c !! k = None -> combos !! k = Some None.
Proof.
  revert st1 c1. induction chunks as [|chunk chunks IH]; intros st1 c1 Hagg Hc1.
  - injection Hagg as <-. exists c1. split; [done|]. split; [done|]. split; [done|].
    by intros ? ? ? ?%elem_of_nil.
  - rewrite aggregate_cons in Hagg. apply bind_Ok in Hagg as (st2 & Hstep & Hagg).
    apply update_stats_Ok in Hstep as (_ & _ & cc & Hcc & Hc2). rewrite Hc1 in Hc2.
    destruct (IH _ _ Hagg Hc2) as (combos & Hcombos & Hdom & Hnan & Hlater).
    rewrite dom_series_iadd in Hdom.
    exists combos. split; [done|]. split; [done|]. split.
    + intros k Hk. by apply Hnan, series_iadd_nan.
    + intros later c k [->|Hin]%elem_of_cons Hc Hk Hnone.
      * rewrite Hcc in Hc. injection Hc as <-. by apply Hnan, series_iadd_missing.
      * apply (Hlater later c k Hin Hc); [by rewrite dom_series_iadd | done].
Qed.

(** X15.  The labels of the dimension combination counts are fixed by the
    first chunk of a file.  After any number of further chunks the counts
    have exactly the dimension tuples of the first chunk as labels, so the
    number of unique items reported is the number of distinct null-free
    dimension tuples of the first chunk; a tuple first seen in a later chunk
    is never added, and a tuple of the first chunk that any later chunk
    lacks is shown as NaN. *)
Theorem unique_items_of_first_chunk
    (ts : label) (dims : list label) (chunk : DataFrame) (chunks : list DataFrame)
    (st : Stats) :
  aggregate ts dims initial_stats (chunk :: chunks) = Ok st ->
  exists r first combos ixs,
    report st = Ok r
    /\ groupby_size chunk dims = Ok first
    /\ mapM (column_index chunk) dims = Ok ixs
    /\ unique_dimension_combos st = Some combos
    /\ dom combos = dom first
    /\ unique_items r = length (remove_dups (dimension_keys chunk ixs))
    /\ (forall later c k, later ∈ chunks -> groupby_size later dims = Ok c ->
          k ∈ dom first -> c !! k = None -> combos !! k = Some None).
Proof.
  intros Hagg. rewrite aggregate_cons in Hagg. apply bind_Ok in Hagg as (st1 & Hstep & Hagg).
  apply update_stats_Ok in Hstep as (_ & _ & first & Hfirst & Hc1). simpl in Hc1.
  destruct (aggregate_combos_labels _ _ _ _ _ _ Hagg Hc1)
    as (combos & Hcombos & Hdom & _ & Hlater).
  destruct (groupby_size_Ok chunk dims first Hfirst) as (ixs & Hixs & Hvc & _).
  unfold report. rewrite Hcombos.
  eexists _, first, combos, ixs. split; [done|]. split; [done|]. split; [done|].
  split; [done|]. split; [done|]. split; [|done]. simpl. unfold series_len.
  rewrite <- size_dom, Hdom, size_dom, Hvc. apply series_len_value_counts.
Qed.

Lemma unique_items_of_first_chunk_witness :
  exists st r,
    aggregate (LStr "timestamp") [LStr "item_id"] initial_stats [missing_item; two_items]
    = Ok st
    /\ report st = Ok r.
Proof.
  assert (Hok : is_ok (aggregate (LStr "timestamp") [LStr "item_id"] initial_stats
                         [missing_item; two_items]) = true) by (vm_compute; reflexivity).
  destruct (aggregate (LStr "timestamp") [LStr "item_id"] initial_stats
              [missing_item; two_items]) as [st|] eqn:Hst; [|discriminate].
  destruct (unique_items_of_first_chunk _ _ _ _ _ Hst) as (r & _ & _ & _ & Hr & _).
  by exists st, r.
Defined.

(** ** Missing values by field *)

Lemma series_add_list_to_map (cols : list (label * pd_dtype)) (c1 c2 : nat -> Z) :
  series_add (list_to_map (imap (fun i c => (c.1, Some (c1 i))) cols))
             (list_to_map (imap (fun i c => (c.1, Some (c2 i))) cols))
  = (list_to_map (imap (fun i c => (c.1, Some (c1 i + c2 i)%Z)) cols) : Series label).
Proof.
  revert c1 c2. induction cols as [|[l dt] cols IH]; intros c1 c2.
  - apply merge_empty.
  - rewrite !imap_cons, !list_to_map_cons. unfold series_add.
    rewrite <- (insert_merge _ _ _ _ (Some (c1 0%nat + c2 0%nat)%Z)) by done.
    f_equal. exact (IH (c1 ∘ S) (c2 ∘ S)).
Qed.

Lemma isna_sum_app cols r1 r2 :
  isna_sum {| columns := cols; rows := r1 ++ r2 |}
  = series_add (isna_sum {| columns := cols; rows := r1 |})
               (isna_sum {| columns := cols; rows := r2 |}).
Proof.
  unfold isna_sum. cbn [columns rows].
  etrans; [|symmetry; apply (series_add_list_to_map cols
    (fun i => Z.of_nat (length (List.filter (fun r => bool_decide (cell_at i r = None)) r1)))
    (fun i => Z.of_nat (length (List.filter (fun r => bool_decide (cell_at i r = None)) r2))))].
  f_equal. apply imap_ext. intros i c _. simpl.
  rewrite List.filter_app, length_app. do 2 f_equal. lia.
Qed.

Lemma update_stats_nulls ts dims st chunk st' :
  update_stats ts dims st chunk = Ok st' ->
  num_nulls_by_field st'
  = Some (match num_nulls_by_field st with
          | None => isna_sum chunk
          | Some seen => series_add seen (isna_sum chunk)
          end).
Proof. unfold update_stats. intros Hst. bind_inv Hst. by injection Hst as <-. Qed.

Lemma aggregate_nulls ts dims cols rss seen st st' :
  num_nulls_by_field st = Some (isna_sum {| columns := cols; rows := seen |}) ->
  aggregate ts dims st ((fun rs => {| columns := cols; rows := rs |}) <$> rss) = Ok st' ->
  num_nulls_by_field st'
  = Some (isna_sum {| columns := cols; rows := seen ++ concat rss |}).
Proof.
  revert seen st. induction rss as [|rs rss IH]; intros seen st Hst Hagg.
  - injection Hagg as <-. by rewrite app_nil_r.
  - rewrite fmap_cons, aggregate_cons in Hagg. apply bind_Ok in Hagg as (st1 & Hstep & Hagg).
    apply update_stats_nulls in Hstep. rewrite Hst, <- isna_sum_app in Hstep.
    rewrite (IH _ _ Hstep Hagg). simpl. by rewrite <- app_assoc.
Qed.

Lemma concat_chunk_rows_aux fuel n rs : concat (chunk_rows_aux fuel n rs) = rs.
Proof.
  revert rs. induction fuel as [|fuel IH]; intros [|r rs]; try done.
  - simpl. by rewrite app_nil_r.
  - change (chunk_rows_aux (S fuel) n (r :: rs))
      with (take (S n) (r :: rs) :: chunk_rows_aux fuel n (drop (S n) (r :: rs))).
    cbn [concat]. by rewrite IH, take_drop.
Qed.

(** X16.  The record statistics of a file do not depend on how the reader
    cuts it into chunks: for every chunk size the record count is the
    number of rows of the file, the count of records without a missing value
    is the number of rows without a null, and the missing values by field
    are the null counts of the columns of the whole file.  (The dimension
    counts do depend on the cut.) *)
Theorem record_statistics_ignore_chunking
    (ts : label) (dims : list label) (df : DataFrame) (n : nat) (st : Stats) :
  aggregate ts dims initial_stats (chunked (S n) df) = Ok st ->
  total_records st = Z.of_nat (length (rows df))
  /\ total_records_nonulls st = (Z.of_nat (length (rows df)) - rows_with_nulls df)%Z
  /\ (rows df <> [] -> num_nulls_by_field st = Some (isna_sum df)).
Proof.
  intros Hagg. pose proof (aggregate_totals _ _ _ _ _ Hagg) as [Htotal Hnonulls].
  rewrite total_rows_chunked in Htotal. rewrite total_rows_without_nulls_chunked in Hnonulls.
  simpl in Htotal, Hnonulls. split; [lia|]. split; [lia|].
  intros Hrows. unfold chunked in Hagg.
  pose proof (concat_chunk_rows_aux (length (rows df)) n (rows df)) as Hconcat.
  destruct (chunk_rows_aux (length (rows df)) n (rows df)) as [|rs rss].
  - by destruct Hrows.
  - rewrite fmap_cons, aggregate_cons in Hagg. apply bind_Ok in Hagg as (st1 & Hstep & Hagg).
    apply update_stats_nulls in Hstep. simpl in Hstep.
    rewrite (aggregate_nulls _ _ _ _ _ _ _ Hstep Hagg). simpl in Hconcat. rewrite Hconcat.
    by destruct df.
Qed.

Lemma record_statistics_ignore_chunking_witness :
  exists st, run_chunked 1 two_items = Ok st /\ total_records st = 2%Z.
Proof.
  assert (Hok : is_ok (run_chunked 1 two_items) = true) by (vm_compute; reflexivity).
  destruct (run_chunked 1 two_items) as [st|] eqn:Hst; [|discriminate].
  exists st. split; [done|].
  exact (proj1 (record_statistics_ignore_chunking _ _ two_items 0 st Hst)).
Defined.

(** ** The value counts of the dimension fields *)

Lemma update_dimension_vals_Ok chunk vals f vals' :
  update_dimension_vals chunk vals f = Ok vals' ->
  exists col,
    getitem chunk f = Ok col
    /\ vals' = <[f := match vals !! f with
                      | Some seen => series_iadd seen (value_counts col)
                      | None => value_counts col
                      end]> vals.
Proof.
  unfold update_dimension_vals. intros Hv. apply bind_Ok in Hv as (col & Hcol & Hv).
  exists col. split; [done|]. destruct (vals !! f); by injection Hv as <-.
Qed.

Lemma update_dimension_vals_labels chunk dims vals vals' :
  foldlM (update_dimension_vals chunk) vals dims = Ok vals' ->
  (forall f s, vals !! f = Some s -> exists s', vals' !! f = Some s' /\ dom s' = dom s)
  /\ (forall f, vals !! f = None -> f ∈ dims ->
        exists col s', getitem chunk f = Ok col /\ vals' !! f = Some s'
                       /\ dom s' = dom (value_counts col))
  /\ dom vals' = dom vals ∪ list_to_set dims.
Proof.
  revert vals. induction dims as [|f0 dims IH]; intros vals Hfold.
  - injection Hfold as <-. split; [eauto|]. split; [by intros ? _ ?%elem_of_nil|].
    simpl. by rewrite (right_id_L ∅ (∪)).
  - rewrite foldlM_cons in Hfold. apply bind_Ok in Hfold as (vals1 & Hstep & Hfold).
    apply update_dimension_vals_Ok in Hstep as (col & Hcol & ->).
    destruct (IH _ Hfold) as (Hkept & Hnew & Hdom). split; [|split].
    + intros f s Hf. destruct (decide (f0 = f)) as [->|Hne].
      * rewrite Hf in Hkept. destruct (Hkept f (series_iadd s (value_counts col)))
          as (s' & Hs' & Hd); [by rewrite lookup_insert_eq|].
        exists s'. split; [done|]. by rewrite Hd, dom_series_iadd.
      * apply Hkept. by rewrite lookup_insert_ne.
    + intros f Hf [->|Hin]%elem_of_cons.
      * rewrite Hf in Hkept. destruct (Hkept f0 (value_counts col)) as (s' & Hs' & Hd);
          [by rewrite lookup_insert_eq|].
        by exists col, s'.
      * destruct (decide (f0 = f)) as [->|Hne].
        -- rewrite Hf in Hkept. destruct (Hkept f (value_counts col)) as (s' & Hs' & Hd);
             [by rewrite lookup_insert_eq|].
           by exists col, s'.
        -- apply Hnew; [by rewrite lookup_insert_ne | done].
    + rewrite Hdom, dom_insert_L. simpl.
      by rewrite (comm_L (∪) {[f0]} (dom vals)), (assoc_L (∪)).
Qed.

Lemma update_stats_vals ts dims st chunk st' :
  update_stats ts dims st chunk = Ok st' ->
  foldlM (update_dimension_vals chunk) (unique_dimension_vals st) dims
  = Ok (unique_dimension_vals st').
Proof.
  unfold update_stats. intros Hst. bind_inv Hst. injection Hst as <-. simpl.
  by match goal with H : foldlM (update_dimension_vals _) _ _ = _ |- _ => rewrite H end.
Qed.

Lemma aggregate_vals_labels ts dims chunks st1 st :
  aggregate ts dims st1 chunks = Ok st ->
  dom (unique_dimension_vals st1) = list_to_set dims ->
  dom (unique_dimension_vals st) = list_to_set dims
  /\ forall f s, unique_dimension_vals st1 !! f = Some s ->
       exists s', unique_dimension_vals st !! f = Some s' /\ dom s' = dom s.
Proof.
  revert st1. induction chunks as [|chunk chunks IH]; intros st1 Hagg Hdom.
  - injection Hagg as <-. eauto.
  - rewrite aggregate_cons in Hagg. apply bind_Ok in Hagg as (st2 & Hstep & Hagg).
    apply update_stats_vals, update_dimension_vals_labels in Hstep as (Hkept & _ & Hdom2).
    destruct (IH st2 Hagg) as [Hdom' Hkept']; [by rewrite Hdom2, Hdom, (idemp_L (∪))|].
    split; [done|]. intros f s Hf. destruct (Hkept f s Hf) as (s2 & Hs2 & Hd2).
    destruct (Hkept' f s2 Hs2) as (s' & Hs' & Hd'). exists s'. split; [done|]. congruence.
Qed.

(** X20.  The report lists value counts for exactly the dimension fields,
    and the labels of each list are fixed by the first chunk: after any
    further chunks they are the values (a missing value included) that the
    field's column has in the first chunk, so the number of unique values
    printed for a field is the number of distinct values of that column in
    the first chunk. *)
Theorem dimension_values_of_first_chunk
    (ts : label) (dims : list label) (chunk : DataFrame) (chunks : list DataFrame)
    (st : Stats) :
  aggregate ts dims initial_stats (chunk :: chunks) = Ok st ->
  dom (unique_dimension_vals st) = list_to_set dims
  /\ forall f, f ∈ dims ->
       exists col s,
         getitem chunk f = Ok col
         /\ unique_dimension_vals st !! f = Some s
         /\ dom s = list_to_set col
         /\ series_len s = length (remove_dups col).
Proof.
  intros Hagg. rewrite aggregate_cons in Hagg. apply bind_Ok in Hagg as (st1 & Hstep & Hagg).
  apply update_stats_vals, update_dimension_vals_labels in Hstep as (_ & Hnew & Hdom1).
  simpl in Hnew, Hdom1. rewrite dom_empty_L, (left_id_L ∅ (∪)) in Hdom1.
  destruct (aggregate_vals_labels _ _ _ _ _ Hagg Hdom1) as [Hdom Hkept].
  split; [done|]. intros f Hf.
  destruct (Hnew f (lookup_empty f) Hf) as (col & s1 & Hcol & Hs1 & Hd1).
  destruct (Hkept f s1 Hs1) as (s & Hs & Hd). exists col, s.
  assert (Hds : dom s = dom (value_counts col)) by (by etrans).
  split; [done|]. split; [done|]. split; [etrans; [exact Hds | apply value_counts_dom]|].
  etrans; [|apply (series_len_value_counts col)]. unfold series_len.
  etrans; [symmetry; apply size_dom|]. etrans; [|apply size_dom]. by f_equal.
Qed.

Lemma dimension_values_of_first_chunk_witness :
  exists st,
    aggregate (LStr "timestamp") [LStr "item_id"] initial_stats [missing_item; two_items]
    = Ok st
    /\ dom (unique_dimension_vals st) = list_to_set [LStr "item_id"].
Proof.
  assert (Hok : is_ok (aggregate (LStr "timestamp") [LStr "item_id"] initial_stats
                         [missing_item; two_items]) = true) by (vm_compute; reflexivity).
  destruct (aggregate (LStr "timestamp") [LStr "item_id"] initial_stats
              [missing_item; two_items]) as [st|] eqn:Hst; [|discriminate].
  exists st. split; [done|]. exact (proj1 (dimension_values_of_first_chunk _ _ _ _ _ Hst)).
Defined.

(** ** Headerless files: when the names can be inferred *)

Lemma elem_of_fields_of_type (fields : list (string * SchemaAttribute.t)) t k :
  k ∈ fields_of_type fields t
  <-> exists spec, (k, spec) ∈ fields /\ SchemaAttribute.AttributeType spec = t.
Proof.
  unfold fields_of_type. rewrite list_elem_of_fmap. split.
  - intros ([k' spec] & -> & [Hin Hp%bool_decide_eq_true]%elem_of_List_filter). by exists spec.
  - intros (spec & Hin & Ht). exists (k, spec). split; [done|].
    apply elem_of_List_filter. split; [done|]. by apply bool_decide_eq_true.
Qed.

Section headerless.
Variable d : DomainTemplate.
Hypothesis d_wf : template_wf d = true.
Variable labels0 : list label.

Lemma inferred_name_required t k spec :
  inferred_name d t = Some k -> (k, spec) ∈ required_fields (tts d) ->
  SchemaAttribute.AttributeType spec = t.
Proof.
  intros Hname Hin. unfold template_wf in d_wf.
  apply andb_true_iff in d_wf as [Hwf _]. apply andb_true_iff in Hwf as [Hwf Hdisj].
  apply andb_true_iff in Hwf as [Hnd%bool_decide_eq_true _].
  apply bool_decide_eq_true in Hdisj. unfold inferred_name in Hname.
  destruct (fields_of_type (required_fields (tts d)) t) as [|k1 [|? ?]] eqn:Hreq;
    [|injection Hname as ->|discriminate].
  - destruct (fields_of_type (optional_fields (tts d)) t) as [|k1 [|? ?]] eqn:Hopt;
      [discriminate|injection Hname as ->|discriminate].
    assert (Hk : k ∈ fields_of_type (optional_fields (tts d)) t) by (rewrite Hopt; left).
    apply elem_of_fields_of_type in Hk as (spec' & Hin' & _). exfalso.
    apply (proj1 (Forall_forall _ _) Hdisj k).
    + apply list_elem_of_fmap. by exists (k, spec').
    + apply list_elem_of_fmap. by exists (k, spec).
  - assert (Hk : k ∈ fields_of_type (required_fields (tts d)) t) by (rewrite Hreq; left).
    apply elem_of_fields_of_type in Hk as (spec' & Hin' & <-).
    by rewrite (dict_functional _ k spec spec' Hnd Hin Hin').
Qed.

Lemma inferred_name_of_required k spec :
  (k, spec) ∈ required_fields (tts d) ->
  inferred_name d (SchemaAttribute.AttributeType spec) = Some k.
Proof.
  intros Hin. unfold inferred_name.
  pose proof (required_of_type_le_1 d d_wf (SchemaAttribute.AttributeType spec)) as Hle.
  assert (Hk : k ∈ fields_of_type (required_fields (tts d)) (SchemaAttribute.AttributeType spec))
    by (apply elem_of_fields_of_type; eauto).
  destruct (fields_of_type _ _) as [|k1 [|? ?]]; simpl in Hle; [|..|lia].
  - by apply elem_of_nil in Hk.
  - by apply list_elem_of_singleton in Hk as ->.
Qed.

Lemma infer_column_name_resolved seen attrs r t count :
  NoDup (AttributeType <$> attrs) ->
  names_resolved d labels0 seen attrs ->
  t ∉ seen -> count <= 1 -> t ∈ AttributeType <$> attrs ->
  exists attrs' r',
    infer_column_name d (attrs, r) (t, count) = Ok (attrs', r')
    /\ AttributeType <$> attrs' = AttributeType <$> attrs
    /\ names_resolved d labels0 (t :: seen) attrs'.
Proof.
  intros Hnd Hinv Hnot Hcount Hin. unfold infer_column_name.
  rewrite bool_decide_eq_false_2 by lia.
  apply list_elem_of_fmap in Hin as (a0 & Ha0 & Hin0).
  destruct (list_find_elem_of (fun a => AttributeType a = t) attrs a0 Hin0)
    as [[i a] Hfind]; [done|].
  rewrite Hfind. apply list_find_Some in Hfind as (Hi & Hta & _).
  pose proof (required_of_type_le_1 d d_wf t) as Hle.
  rewrite bool_decide_eq_false_2 by lia.
  assert (Hother : forall j a', attrs !! j = Some a' -> i <> j -> AttributeType a' <> t).
  { intros j a' Hj Hne Heq. apply Hne.
    apply (NoDup_lookup _ i j t Hnd); rewrite list_lookup_fmap.
    - by rewrite Hi; simpl; rewrite Hta.
    - by rewrite Hj; simpl; rewrite Heq. }
  assert (Hkeep : inferred_name d t = None -> names_resolved d labels0 (t :: seen) attrs).
  { intros Hnone j a' l Hj Hl. destruct (Hinv j a' l Hj Hl) as [H1 H2]. split.
    - intros [Heq|Hs]%elem_of_cons; [|by apply H1].
      rewrite Heq, Hnone. simpl. apply H2. by rewrite Heq.
    - intros Hn. apply H2. intros Hs. apply Hn. by right. }
  assert (Hren : forall new, inferred_name d t = Some new ->
            AttributeType <$> <[i := {| AttributeName := LStr new;
                                        AttributeType := AttributeType a |}]> attrs
            = AttributeType <$> attrs
            /\ names_resolved d labels0 (t :: seen)
                 (<[i := {| AttributeName := LStr new;
                            AttributeType := AttributeType a |}]> attrs)).
  { intros new Hnew. split.
    - rewrite list_fmap_insert. simpl. apply list_insert_id. by rewrite list_lookup_fmap, Hi.
    - intros j a' l Hj Hl. destruct (decide (i = j)) as [<-|Hne].
      + rewrite list_lookup_insert_eq in Hj by (by eapply lookup_lt_Some).
        injection Hj as <-. simpl. rewrite Hta. split.
        * intros _. by rewrite Hnew.
        * intros Hn. destruct Hn. left.
      + rewrite list_lookup_insert_ne in Hj by done.
        pose proof (Hother j a' Hj Hne) as Hty.
        destruct (Hinv j a' l Hj Hl) as [H1 H2]. split.
        * intros [Heq|Hs]%elem_of_cons; [done | by apply H1].
        * intros Hn. apply H2. intros Hs. apply Hn. by right. }
  unfold inferred_name in Hkeep, Hren.
  destruct (fields_of_type (required_fields (tts d)) t) as [|k [|? ?]];
    simpl in *; [|..|lia].
  - destruct (fields_of_type (optional_fields (tts d)) t) as [|k [|? ?]]; simpl.
    + eexists _, _. split; [done|]. split; [done|]. by apply Hkeep.
    + destruct (Hren k eq_refl) as [? ?]. eexists _, _. split; [done|]. done.
    + eexists _, _. split; [done|]. split; [done|]. by apply Hkeep.
  - destruct (Hren k eq_refl) as [? ?]. eexists _, _. split; [done|]. done.
Qed.

Lemma infer_column_names_resolved counts seen attrs r :
  NoDup (AttributeType <$> attrs) -> NoDup counts.*1 ->
  (forall t n, (t, n) ∈ counts -> n <= 1 /\ t ∈ AttributeType <$> attrs /\ t ∉ seen) ->
  names_resolved d labels0 seen attrs ->
  exists attrs' r',
    foldlM (infer_column_name d) (attrs, r) counts = Ok (attrs', r')
    /\ AttributeType <$> attrs' = AttributeType <$> attrs
    /\ names_resolved d labels0 (rev counts.*1 ++ seen) attrs'.
Proof.
  revert seen attrs r. induction counts as [|[t n] counts IH];
    intros seen attrs r Hnd Hkeys Hcounts Hinv.
  - by exists attrs, r.
  - simpl in Hkeys. apply NoDup_cons in Hkeys as [Ht Hkeys].
    destruct (Hcounts t n) as (Hn & Hin & Hnot); [left|].
    destruct (infer_column_name_resolved seen attrs r t n Hnd Hinv Hnot Hn Hin)
      as (attrs1 & r1 & Hstep & Hty & Hinv1).
    destruct (IH (t :: seen) attrs1 r1) as (attrs' & r' & Hfold & Hty' & Hinv');
      [by rewrite Hty | done | | done |].
    { intros t' n' Hin'. destruct (Hcounts t' n') as (? & ? & ?); [by right|].
      split; [done|]. split; [by rewrite Hty|].
      intros [->|?]%elem_of_cons; [|done]. apply Ht. apply list_elem_of_fmap.
      by exists (t, n'). }
    exists attrs', r'. rewrite foldlM_cons, Hstep. split; [done|]. split; [congruence|].
    simpl. by rewrite <- app_assoc.
Qed.

Lemma resolved_satisfied attrs seen k spec :
  names_resolved d labels0 seen attrs ->
  length attrs <= length labels0 ->
  (forall a, a ∈ attrs -> AttributeType a ∈ seen) ->
  (forall l, l ∈ labels0 -> exists n, l = LInt n) ->
  (k, spec) ∈ required_fields (tts d) ->
  SchemaAttribute.AttributeType spec ∈ AttributeType <$> attrs ->
  field_satisfied attrs (k, spec) = true.
Proof.
  intros Hinv Hlen Hseen Hint Hin Hty.
  assert (Hname : forall a, a ∈ attrs ->
            (exists n, AttributeName a = LInt n) \/
            exists k', AttributeName a = LStr k'
                       /\ inferred_name d (AttributeType a) = Some k').
  { intros a [j Hj]%list_elem_of_lookup_1.
    destruct (lookup_lt_is_Some_2 labels0 j) as [l Hl];
      [apply lookup_lt_Some in Hj; lia|].
    destruct (Hinv j a l Hj Hl) as [H1 _].
    specialize (H1 (Hseen a ltac:(by eapply list_elem_of_lookup_2))).
    destruct (inferred_name d (AttributeType a)) as [k'|]; simpl in H1; [right; eauto|].
    left. rewrite H1. apply Hint. by eapply list_elem_of_lookup_2. }
  apply list_elem_of_fmap in Hty as (a & Hta & Ha).
  assert (Ha' : a ∈ matching_fields attrs k).
  { apply elem_of_List_filter. split; [done|]. apply bool_decide_eq_true.
    destruct (Hname a Ha) as [[n Hn]|(k' & Hk' & Hinf)].
    - destruct (list_elem_of_lookup_1 _ _ Ha) as [j Hj].
      destruct (lookup_lt_is_Some_2 labels0 j) as [l Hl];
        [apply lookup_lt_Some in Hj; lia|].
      destruct (Hinv j a l Hj Hl) as [H1 _]. rewrite H1 by auto.
      by rewrite <- Hta, (inferred_name_of_required k spec Hin).
    - rewrite <- Hta, (inferred_name_of_required k spec Hin) in Hinf. congruence. }
  unfold field_satisfied. simpl.
  destruct (matching_fields attrs k) as [|f0 more] eqn:Hm; [by apply elem_of_nil in Ha'|].
  assert (Hf0 : f0 ∈ matching_fields attrs k) by (rewrite Hm; left).
  apply elem_of_List_filter in Hf0 as [Hf0 Hn%bool_decide_eq_true].
  apply bool_decide_eq_true.
  destruct (Hname f0 Hf0) as [[n Hn']|(k' & Hk' & Hinf)]; [congruence|].
  rewrite Hn in Hk'. injection Hk' as <-. symmetry.
  by apply (inferred_name_required _ k).
Qed.

End headerless.

Lemma columns_of_type_pos t (cols : list (label * pd_dtype)) :
  0 < columns_of_type t cols <-> t ∈ omap (fun c => schematype_of c.2) cols.
Proof.
  unfold columns_of_type. rewrite list_elem_of_omap. split.
  - intros (c & Hc & Hp%bool_decide_eq_true)%List_filter_nonempty. eauto.
  - intros (c & Hc & Hp).
    assert (Hin : c ∈ List.filter (fun c => bool_decide (schematype_of c.2 = Some t)) cols)
      by (apply elem_of_List_filter; split; [done | by apply bool_decide_eq_true]).
    destruct (List.filter _ cols); [by apply elem_of_nil in Hin | simpl; lia].
Qed.

Lemma NoDup_detected_types (cols : list (label * pd_dtype)) :
  (forall t, columns_of_type t cols <= 1) ->
  NoDup (omap (fun c => schematype_of c.2) cols).
Proof.
  induction cols as [|[l dt] cols IH]; intros Hle; [constructor|].
  assert (Hrest : forall t, columns_of_type t cols <= 1).
  { intros t. specialize (Hle t). unfold columns_of_type in *. simpl in Hle.
    destruct (bool_decide _); simpl in Hle; lia. }
  cbn [omap list_omap snd]. destruct (schematype_of dt) as [t|] eqn:Hdt; [|by apply IH].
  constructor; [|by apply IH].
  intros Hin%columns_of_type_pos. specialize (Hle t). unfold columns_of_type in *.
  simpl in Hle. rewrite Hdt, bool_decide_eq_true_2 in Hle by done. simpl in Hle. lia.
Qed.

(** What the column loop has counted. *)
Lemma column_loop_counts file cols counts attrs :
  foldlM (infer_column file) ([], []) (zip (seq 0 (length cols)) cols) = Ok (counts, attrs) ->
  Forall (fun c => is_Some (schematype_of c.2)) cols
  /\ attrs = omap detected_attribute cols
  /\ AttributeName <$> attrs = cols.*1
  /\ AttributeType <$> attrs = omap (fun c => schematype_of c.2) cols
  /\ NoDup counts.*1
  /\ (forall t n, (t, n) ∈ counts -> n = columns_of_type t cols /\ 0 < n)
  /\ (forall t, 0 < columns_of_type t cols -> (t, columns_of_type t cols) ∈ counts).
Proof.
  intros Hfold. pose proof Hfold as Hfold'.
  apply infer_columns_attrs in Hfold' as (Hall & Hattrs & Hnames); [|by rewrite length_seq].
  simpl in Hattrs. subst attrs.
  destruct (infer_columns_Ok file cols (seq 0 (length cols)) [] [])
    as (counts' & attrs' & Hok & Hty & Hnd & Hpos & Hcount); [by rewrite length_seq | done |].
  rewrite Hfold in Hok. injection Hok as <- <-. simpl in Hty, Hcount.
  specialize (Hnd (NoDup_nil_2)).
  assert (Hin : forall t n, (t, n) ∈ counts -> n = columns_of_type t cols /\ 0 < n).
  { intros t n Hin. split; [|apply (Hpos ltac:(by intros ?? ?%elem_of_nil) t n Hin)].
    destruct (dict_get_Some_elem_of _ _ _ Hin) as [m Hm].
    pose proof (Hcount t) as Hc. rewrite Hm in Hc. simpl in Hc. rewrite <- Hc.
    apply dict_get_elem_of in Hm. apply (dict_functional counts t n m Hnd Hin Hm). }
  split; [done|]. split; [done|]. split; [done|]. split; [done|]. split; [done|].
  split; [exact Hin|].
  intros t Ht. pose proof (Hcount t) as Hc.
  destruct (dict_get counts t) as [n|] eqn:Hget; simpl in Hc; [|lia].
  rewrite <- Hc. by apply dict_get_elem_of.
Qed.

Lemma infer_column_name_types d acc item acc' :
  infer_column_name d acc item = Ok acc' -> AttributeType <$> acc'.1 = AttributeType <$> acc.1.
Proof.
  destruct acc as [attrs r], item as [t n]. unfold infer_column_name.
  case_bool_decide; [discriminate|].
  destruct (list_find _ attrs) as [[i a]|] eqn:Hfind; [|discriminate].
  apply list_find_Some in Hfind as (Hi & _ & _).
  assert (Hkeep : forall new,
    AttributeType <$> <[i := {| AttributeName := LStr new;
                                AttributeType := AttributeType a |}]> attrs
    = AttributeType <$> attrs).
  { intros new. rewrite list_fmap_insert. simpl. apply list_insert_id.
    by rewrite list_lookup_fmap, Hi. }
  repeat case_bool_decide; simpl; intros [= <-]; simpl; auto.
Qed.

Lemma infer_column_names_types d counts acc acc' :
  foldlM (infer_column_name d) acc counts = Ok acc' ->
  AttributeType <$> acc'.1 = AttributeType <$> acc.1.
Proof.
  revert acc. induction counts as [|item counts IH]; intros acc Hfold.
  - by injection Hfold as <-.
  - rewrite foldlM_cons in Hfold. apply bind_Ok in Hfold as (acc1 & Hstep & Hfold).
    rewrite (IH _ Hfold). by eapply infer_column_name_types.
Qed.

Lemma detected_types_length (cols : list (label * pd_dtype)) :
  Forall (fun c => is_Some (schematype_of c.2)) cols ->
  (forall t, columns_of_type t cols <= 1) ->
  length cols <= 4.
Proof.
  intros Hall Hle.
  assert (Hlen : length (omap (fun c : label * pd_dtype => schematype_of c.2) cols)
                 = length cols).
  { clear Hle. induction Hall as [|[l dt] cols [t Ht] _ IH]; [done|].
    simpl in Ht. cbn [omap list_omap snd]. rewrite Ht. simpl. by rewrite IH. }
  rewrite <- Hlen. change 4 with (length TypeTag_keywords).
  apply submseteq_length, NoDup_submseteq; [by apply NoDup_detected_types|].
  intros t (c & _ & Hc)%list_elem_of_omap. unfold TypeTag_keywords.
  destruct c as [l [| |[]|]]; simpl in Hc; try discriminate; injection Hc as <-;
    rewrite !elem_of_cons; auto.
Qed.

(** X17.  When a headerless first file can be diagnosed.  For a catalog
    domain and a chunk whose columns carry the positions 0, 1, ... as
    labels, inference of the schema succeeds exactly when every column has
    a supported dtype, no detected type is carried by two columns, and each
    required field of the domain finds a column of its type.  Such a file
    has at most four columns, since there are four detected types. *)
Theorem headerless_inference_succeeds_iff
    (file dn : string) (d : DomainTemplate) (tts_chunk : DataFrame) :
  DOMAINS_getitem dn = Ok d ->
  (forall l, l ∈ (columns tts_chunk).*1 -> exists n, l = LInt n) ->
  (is_ok (infer_schema file (Some dn) None (Some ∅) tts_chunk) = true
   <-> Forall (fun c => is_Some (schematype_of c.2)) (columns tts_chunk)
       /\ (forall t, columns_of_type t (columns tts_chunk) <= 1)
       /\ (forall k spec, (k, spec) ∈ required_fields (tts d) ->
             columns_of_type (SchemaAttribute.AttributeType spec) (columns tts_chunk) = 1))
  /\ (is_ok (infer_schema file (Some dn) None (Some ∅) tts_chunk) = true ->
      length (columns tts_chunk) <= 4).
Proof.
  intros Hd Hint. pose proof (DOMAINS_wf dn d Hd) as Hwf.
  enough (Hiff : is_ok (infer_schema file (Some dn) None (Some ∅) tts_chunk) = true
            <-> Forall (fun c => is_Some (schematype_of c.2)) (columns tts_chunk)
                /\ (forall t, columns_of_type t (columns tts_chunk) <= 1)
                /\ (forall k spec, (k, spec) ∈ required_fields (tts d) ->
                      columns_of_type (SchemaAttribute.AttributeType spec)
                                      (columns tts_chunk) = 1)).
  { split; [exact Hiff|]. intros (Hall & Hle & _)%Hiff. by apply detected_types_length. }
  split.
  - destruct (infer_schema file (Some dn) None (Some ∅) tts_chunk) as [[[s f] rn']|] eqn:Hinfer;
      [intros _ | discriminate].
    unfold infer_schema in Hinfer. rewrite imap_pair_zip in Hinfer.
    apply bind_Ok in Hinfer as ([counts attrs] & Hcols & Hinfer).
    apply bind_Ok in Hinfer as ([attrs' rn1] & Hloop & Hinfer).
    apply bind_Ok in Hinfer as (v & Hv & _).
    rewrite Hd in Hloop. cbn [mbind result_bind] in Hloop.
    apply bind_Ok in Hloop as ([attrs1 r] & Hfold & Hloop). injection Hloop as <- <-.
    destruct (column_loop_counts _ _ _ _ Hcols)
      as (Hall & _ & _ & Htypes & Hnd & Hcounts & Hkeys).
    assert (Hle : forall t, columns_of_type t (columns tts_chunk) <= 1).
    { intros t. destruct (decide (columns_of_type t (columns tts_chunk) <= 1)) as [|Hmany];
        [done|]. exfalso.
      destruct (infer_column_names_many_columns d Hwf counts attrs ∅)
        as (t' & n & _ & _ & Herr).
      - intros t1 n1 Hin1. rewrite Htypes. apply columns_of_type_pos.
        destruct (Hcounts t1 n1 Hin1) as [-> ?]. done.
      - exists t, (columns_of_type t (columns tts_chunk)). split; [apply Hkeys; lia | lia].
      - rewrite Herr in Hfold. discriminate. }
    split; [done|]. split; [done|]. intros k spec Hin.
    pose proof (Hle (SchemaAttribute.AttributeType spec)) as Hle1.
    enough (0 < columns_of_type (SchemaAttribute.AttributeType spec) (columns tts_chunk)) by lia.
    apply columns_of_type_pos. rewrite <- Htypes.
    apply infer_column_names_types in Hfold. simpl in Hfold. rewrite <- Hfold.
    cbn [validate_on] in Hv. apply validate_Ok_inv in Hv as (d' & Hd' & Hsat & _).
    rewrite Hd in Hd'. injection Hd' as <-.
    apply (proj1 (Forall_forall _ _) Hsat) in Hin. unfold field_satisfied in Hin. simpl in Hin.
    destruct (matching_fields attrs1 k) as [|f0 more] eqn:Hm; [discriminate|].
    apply bool_decide_eq_true in Hin. rewrite <- Hin.
    assert (Hf0 : f0 ∈ matching_fields attrs1 k) by (rewrite Hm; left).
    apply elem_of_List_filter in Hf0 as [Hf0 _]. apply list_elem_of_fmap. by exists f0.
  - intros (Hall & Hle & Hreq).
    destruct (infer_columns_Ok file (columns tts_chunk) (seq 0 (length (columns tts_chunk)))
                [] []) as (counts & attrs & Hcols & _); [by rewrite length_seq | done |].
    destruct (column_loop_counts _ _ _ _ Hcols)
      as (_ & Hattrs & Hnames & Htypes & Hnd & Hcounts & Hkeys).
    assert (Hinit : names_resolved d (columns tts_chunk).*1 [] attrs).
    { intros i a l Hi Hl. split; [by intros ?%elem_of_nil|]. intros _.
      assert (Hn : (AttributeName <$> attrs) !! i = Some (AttributeName a))
        by (by rewrite list_lookup_fmap, Hi).
      rewrite Hnames, Hl in Hn. by injection Hn. }
    destruct (infer_column_names_resolved d Hwf (columns tts_chunk).*1 counts [] attrs ∅)
      as (attrs' & r' & Hfold & Hty' & Hinv); [| done | | done |].
    { rewrite Htypes. by apply NoDup_detected_types. }
    { intros t n Hin. destruct (Hcounts t n Hin) as [-> Hpos].
      split; [apply Hle|]. split; [|apply not_elem_of_nil].
      rewrite Htypes. by apply columns_of_type_pos. }
    rewrite app_nil_r in Hinv.
    assert (Hsat : Forall (fun kv => field_satisfied attrs' kv = true) (required_fields (tts d))).
    { apply Forall_forall. intros [k spec] Hin.
      apply (resolved_satisfied d Hwf (columns tts_chunk).*1 attrs' (rev counts.*1)); try done.
      - pose proof (f_equal length Hty') as Hl1. pose proof (f_equal length Hnames) as Hl2.
        rewrite !length_fmap in Hl1. rewrite !length_fmap in Hl2. rewrite length_fmap. lia.
      - intros a Ha. rewrite list_elem_of_In, <- in_rev, <- list_elem_of_In.
        assert (Hta : AttributeType a ∈ AttributeType <$> attrs')
          by (apply list_elem_of_fmap; eauto).
        rewrite Hty', Htypes in Hta. apply columns_of_type_pos in Hta.
        apply list_elem_of_fmap. eexists (_, _). split; [|by apply Hkeys]. done.
      - rewrite Hty', Htypes. apply columns_of_type_pos. rewrite (Hreq k spec Hin). lia. }
    assert (Hv : exists v, validate_tts_schema_on_domain {| Attributes := attrs' |} dn = Ok v).
    { unfold validate_tts_schema_on_domain. rewrite Hd. cbn [mbind result_bind Attributes].
      rewrite (check_required_fields_satisfied dn _ _ Hsat). cbn [mbind result_bind].
      destruct (scan_optional_fields _ _). eauto. }
    destruct Hv as [v Hv].
    destruct (derived_fields_of_validated _ _ _ Hv) as (d' & f & _ & Hf & _).
    unfold infer_schema. rewrite imap_pair_zip, Hcols. cbn [mbind result_bind].
    rewrite Hd. cbn [mbind result_bind]. rewrite Hfold. cbn [mbind result_bind validate_on].
    rewrite Hv. cbn [mbind result_bind]. by rewrite Hf.
Qed.

Lemma headerless_inference_succeeds_iff_witness :
  is_ok (infer_schema "data/a.csv" (Some "RETAIL") None (Some ∅) retail_with_integer) = true
  <-> Forall (fun c => is_Some (schematype_of c.2)) (columns retail_with_integer)
      /\ (forall t, columns_of_type t (columns retail_with_integer) <= 1)
      /\ (forall k spec,
            (k, spec) ∈ [("item_id", SA "item_id" "string");
                         ("timestamp", SA "timestamp" "timestamp");
                         ("demand", SA "demand" "float")] ->
            columns_of_type (SchemaAttribute.AttributeType spec) (columns retail_with_integer)
            = 1).
Proof.
  refine (proj1 (headerless_inference_succeeds_iff "data/a.csv" "RETAIL" _ retail_with_integer
                   eq_refl _)).
  intros l Hl. vm_compute in Hl.
  repeat (apply elem_of_cons in Hl as [->|Hl]; [eauto|]). by apply elem_of_nil in Hl.
Defined.

(** ** The shape of the catalog *)

(** X18.  Every template of the catalog has the same shape.  It requires
    three fields, in this order: an identifier of type [string] stored under
    its own name, [timestamp] of type [timestamp], and the target, which is
    the template's [target_field] and has type [float] or [integer].  The
    attribute stored under the target's key carries the key as its name
    except for WEB_TRAFFIC, where the key [value] holds an attribute named
    [demand]; the validator and the name inference go by the key.  The only
    optional field is [location] of type [string], so a domain that requires
    no field of some type has no optional field of that type either: name
    inference never names a column after an optional field. *)
Theorem DOMAINS_template_structure (dn : string) (d : DomainTemplate) :
  DOMAINS_getitem dn = Ok d ->
  (exists id target target_spec,
     required_fields (tts d)
     = [(id, SA id "string"); ("timestamp", SA "timestamp" "timestamp");
        (target, target_spec)]
     /\ target_field d = target
     /\ SchemaAttribute.AttributeType target_spec ∈ ["float"; "integer"]
     /\ (SchemaAttribute.AttributeName target_spec = target
         \/ (dn = "WEB_TRAFFIC" /\ target = "value"
             /\ SchemaAttribute.AttributeName target_spec = "demand")))
  /\ (optional_fields (tts d) = []
      \/ optional_fields (tts d) = [("location", SA "location" "string")])
  /\ (forall t, fields_of_type (required_fields (tts d)) t = [] ->
        fields_of_type (optional_fields (tts d)) t = [])
  /\ (forall t k, inferred_name d t = Some k -> k ∈ dict_keys (required_fields (tts d))).
Proof.
  intros Hd%DOMAINS_getitem_elem_of.
  assert (Hshape :
    (exists id target target_spec,
       required_fields (tts d)
       = [(id, SA id "string"); ("timestamp", SA "timestamp" "timestamp");
          (target, target_spec)]
       /\ target_field d = target
       /\ SchemaAttribute.AttributeType target_spec ∈ ["float"; "integer"]
       /\ (SchemaAttribute.AttributeName target_spec = target
           \/ (dn = "WEB_TRAFFIC" /\ target = "value"
               /\ SchemaAttribute.AttributeName target_spec = "demand")))
    /\ (optional_fields (tts d) = []
        \/ optional_fields (tts d) = [("location", SA "location" "string")])).
  { unfold DOMAINS in Hd.
    repeat (apply elem_of_cons in Hd as [[= -> ->]|Hd];
            [split; [do 3 eexists; split; [reflexivity|]; split; [reflexivity|];
                     split; [rewrite !elem_of_cons; simpl; auto | simpl; auto]
                    | simpl; auto]|]).
    by apply elem_of_nil in Hd. }
  destruct Hshape as [(id & target & target_spec & Hreq & Htarget & Hty & Hname) Hopt].
  assert (Hdead : forall t, fields_of_type (required_fields (tts d)) t = [] ->
                    fields_of_type (optional_fields (tts d)) t = []).
  { intros t Hnone. rewrite Hreq in Hnone. unfold fields_of_type in *. simpl in Hnone.
    destruct Hopt as [-> | ->]; [done|]. simpl.
    destruct (bool_decide ("string" = t)); [discriminate | done]. }
  split; [by exists id, target, target_spec|]. split; [done|]. split; [done|].
  intros t k Hinf. unfold inferred_name in Hinf.
  destruct (fields_of_type (required_fields (tts d)) t) as [|k1 [|? ?]] eqn:Hf;
    [|injection Hinf as ->|discriminate].
  - by rewrite (Hdead t Hf) in Hinf.
  - assert (Hk : k ∈ fields_of_type (required_fields (tts d)) t) by (rewrite Hf; left).
    apply elem_of_fields_of_type in Hk as (spec & Hin & _).
    apply list_elem_of_fmap. by exists (k, spec).
Qed.

Lemma DOMAINS_template_structure_witness :
  exists id target target_spec,
    [("item_id", SA "item_id" "string"); ("timestamp", SA "timestamp" "timestamp");
     ("value", SA "demand" "float")]
    = [(id, SA id "string"); ("timestamp", SA "timestamp" "timestamp");
       (target, target_spec)]
    /\ "value" = target
    /\ SchemaAttribute.AttributeType target_spec ∈ ["float"; "integer"]
    /\ (SchemaAttribute.AttributeName target_spec = target
        \/ ("WEB_TRAFFIC" = "WEB_TRAFFIC" /\ target = "value"
            /\ SchemaAttribute.AttributeName target_spec = "demand")).
Proof.
  exact (proj1 (DOMAINS_template_structure "WEB_TRAFFIC" _ eq_refl)).
Defined.
